(** * optithor: formula chemistry, record scoring, attempt cache,
      compound table and medium optimizer

    Shallow embedding of the Python sources
      src/optithor/utils.py, paths.py, compound_db.py, medium_optimizer.py,
      compound_db_builder/pubchem_cache.py, step_03_fetch_pubchem.py,
      step_04_build_parquet.py
    and the properties the specification states about them.

    Python [str] values are sequences of Unicode code points; they are
    modelled as [list N].  The character classes of the [re] module and of
    [str.strip] are the tables of Unicode 14.0 (CPython 3.11). *)

From Stdlib Require Import ZArith NArith QArith Qcanon List Bool Lia Ascii String.
From stdpp Require Import base option list gmap numbers sorting.

Local Open Scope N_scope.

(** ** Python strings *)

Module PyStr.

Abbreviation char := N.
Abbreviation pystr := (list N).

(** UTF-8 decoding, used only to write literals the way the source does. *)
Fixpoint utf8_decode (bs : list N) : pystr :=
  match bs with
  | [] => []
  | b :: r =>
    if b <? 0x80 then b :: utf8_decode r
    else if b <? 0xE0 then
      match r with
      | c1 :: r1 =>
        N.lor (N.shiftl (N.land b 0x1F) 6) (N.land c1 0x3F) :: utf8_decode r1
      | _ => []
      end
    else if b <? 0xF0 then
      match r with
      | c1 :: c2 :: r2 =>
        N.lor (N.shiftl (N.land b 0x0F) 12)
          (N.lor (N.shiftl (N.land c1 0x3F) 6) (N.land c2 0x3F)) :: utf8_decode r2
      | _ => []
      end
    else
      match r with
      | c1 :: c2 :: c3 :: r3 =>
        N.lor (N.shiftl (N.land b 0x07) 18)
          (N.lor (N.shiftl (N.land c1 0x3F) 12)
             (N.lor (N.shiftl (N.land c2 0x3F) 6) (N.land c3 0x3F))) :: utf8_decode r3
      | _ => []
      end
  end.

Definition py (s : string) : pystr :=
  utf8_decode (map N_of_ascii (list_ascii_of_string s)).

Definition in_range (c : N) (r : N * N) : bool := (fst r <=? c) && (c <=? snd r).

(** [str.isspace], which is also [\s] of a str pattern. *)
Definition space_ranges : list (N * N) :=
  [(9, 13); (28, 32); (133, 133); (160, 160); (5760, 5760); (8192, 8202);
   (8232, 8233); (8239, 8239); (8287, 8287); (12288, 12288)].

Definition is_space (c : N) : bool := existsb (in_range c) space_ranges.

(** [\d] of a str pattern: general category Nd.  Every block below is a run
    of ten code points with the values 0 to 9; [int] reads them all. *)
Definition digit_blocks : list N :=
  [
   48; 1632; 1776; 1984; 2406; 2534; 2662; 2790; 2918; 3046;
   3174; 3302; 3430; 3558; 3664; 3792; 3872; 4160; 4240; 6112;
   6160; 6470; 6608; 6784; 6800; 6992; 7088; 7232; 7248; 42528;
   43216; 43264; 43472; 43504; 43600; 44016; 65296; 66720; 68912; 69734;
   69872; 69942; 70096; 70384; 70736; 70864; 71248; 71360; 71472; 71904;
   72016; 72784; 73040; 73120; 92768; 92864; 93008; 120782; 120792; 120802;
   120812; 120822; 123200; 123632; 125264; 130032
  ].

Definition digit_value (c : N) : option Z :=
  match find (fun s => in_range c (s, s + 9)) digit_blocks with
  | Some s => Some (Z.of_N (c - s))
  | None => None
  end.

Definition is_digit (c : N) : bool := bool_decide (is_Some (digit_value c)).

(** [\w] of a str pattern: [str.isalnum] or the underscore. *)
Definition word_ranges : list (N * N) :=
  [
   (48, 57); (65, 90); (95, 95); (97, 122); (170, 170); (178, 179);
   (181, 181); (185, 186); (188, 190); (192, 214); (216, 246); (248, 705);
   (710, 721); (736, 740); (748, 748); (750, 750); (880, 884); (886, 887);
   (890, 893); (895, 895); (902, 902); (904, 906); (908, 908); (910, 929);
   (931, 1013); (1015, 1153); (1162, 1327); (1329, 1366); (1369, 1369); (1376, 1416);
   (1488, 1514); (1519, 1522); (1568, 1610); (1632, 1641); (1646, 1647); (1649, 1747);
   (1749, 1749); (1765, 1766); (1774, 1788); (1791, 1791); (1808, 1808); (1810, 1839);
   (1869, 1957); (1969, 1969); (1984, 2026); (2036, 2037); (2042, 2042); (2048, 2069);
   (2074, 2074); (2084, 2084); (2088, 2088); (2112, 2136); (2144, 2154); (2160, 2183);
   (2185, 2190); (2208, 2249); (2308, 2361); (2365, 2365); (2384, 2384); (2392, 2401);
   (2406, 2415); (2417, 2432); (2437, 2444); (2447, 2448); (2451, 2472); (2474, 2480);
   (2482, 2482); (2486, 2489); (2493, 2493); (2510, 2510); (2524, 2525); (2527, 2529);
   (2534, 2545); (2548, 2553); (2556, 2556); (2565, 2570); (2575, 2576); (2579, 2600);
   (2602, 2608); (2610, 2611); (2613, 2614); (2616, 2617); (2649, 2652); (2654, 2654);
   (2662, 2671); (2674, 2676); (2693, 2701); (2703, 2705); (2707, 2728); (2730, 2736);
   (2738, 2739); (2741, 2745); (2749, 2749); (2768, 2768); (2784, 2785); (2790, 2799);
   (2809, 2809); (2821, 2828); (2831, 2832); (2835, 2856); (2858, 2864); (2866, 2867);
   (2869, 2873); (2877, 2877); (2908, 2909); (2911, 2913); (2918, 2927); (2929, 2935);
   (2947, 2947); (2949, 2954); (2958, 2960); (2962, 2965); (2969, 2970); (2972, 2972);
   (2974, 2975); (2979, 2980); (2984, 2986); (2990, 3001); (3024, 3024); (3046, 3058);
   (3077, 3084); (3086, 3088); (3090, 3112); (3114, 3129); (3133, 3133); (3160, 3162);
   (3165, 3165); (3168, 3169); (3174, 3183); (3192, 3198); (3200, 3200); (3205, 3212);
   (3214, 3216); (3218, 3240); (3242, 3251); (3253, 3257); (3261, 3261); (3293, 3294);
   (3296, 3297); (3302, 3311); (3313, 3314); (3332, 3340); (3342, 3344); (3346, 3386);
   (3389, 3389); (3406, 3406); (3412, 3414); (3416, 3425); (3430, 3448); (3450, 3455);
   (3461, 3478); (3482, 3505); (3507, 3515); (3517, 3517); (3520, 3526); (3558, 3567);
   (3585, 3632); (3634, 3635); (3648, 3654); (3664, 3673); (3713, 3714); (3716, 3716);
   (3718, 3722); (3724, 3747); (3749, 3749); (3751, 3760); (3762, 3763); (3773, 3773);
   (3776, 3780); (3782, 3782); (3792, 3801); (3804, 3807); (3840, 3840); (3872, 3891);
   (3904, 3911); (3913, 3948); (3976, 3980); (4096, 4138); (4159, 4169); (4176, 4181);
   (4186, 4189); (4193, 4193); (4197, 4198); (4206, 4208); (4213, 4225); (4238, 4238);
   (4240, 4249); (4256, 4293); (4295, 4295); (4301, 4301); (4304, 4346); (4348, 4680);
   (4682, 4685); (4688, 4694); (4696, 4696); (4698, 4701); (4704, 4744); (4746, 4749);
   (4752, 4784); (4786, 4789); (4792, 4798); (4800, 4800); (4802, 4805); (4808, 4822);
   (4824, 4880); (4882, 4885); (4888, 4954); (4969, 4988); (4992, 5007); (5024, 5109);
   (5112, 5117); (5121, 5740); (5743, 5759); (5761, 5786); (5792, 5866); (5870, 5880);
   (5888, 5905); (5919, 5937); (5952, 5969); (5984, 5996); (5998, 6000); (6016, 6067);
   (6103, 6103); (6108, 6108); (6112, 6121); (6128, 6137); (6160, 6169); (6176, 6264);
   (6272, 6276); (6279, 6312); (6314, 6314); (6320, 6389); (6400, 6430); (6470, 6509);
   (6512, 6516); (6528, 6571); (6576, 6601); (6608, 6618); (6656, 6678); (6688, 6740);
   (6784, 6793); (6800, 6809); (6823, 6823); (6917, 6963); (6981, 6988); (6992, 7001);
   (7043, 7072); (7086, 7141); (7168, 7203); (7232, 7241); (7245, 7293); (7296, 7304);
   (7312, 7354); (7357, 7359); (7401, 7404); (7406, 7411); (7413, 7414); (7418, 7418);
   (7424, 7615); (7680, 7957); (7960, 7965); (7968, 8005); (8008, 8013); (8016, 8023);
   (8025, 8025); (8027, 8027); (8029, 8029); (8031, 8061); (8064, 8116); (8118, 8124);
   (8126, 8126); (8130, 8132); (8134, 8140); (8144, 8147); (8150, 8155); (8160, 8172);
   (8178, 8180); (8182, 8188); (8304, 8305); (8308, 8313); (8319, 8329); (8336, 8348);
   (8450, 8450); (8455, 8455); (8458, 8467); (8469, 8469); (8473, 8477); (8484, 8484);
   (8486, 8486); (8488, 8488); (8490, 8493); (8495, 8505); (8508, 8511); (8517, 8521);
   (8526, 8526); (8528, 8585); (9312, 9371); (9450, 9471); (10102, 10131); (11264, 11492);
   (11499, 11502); (11506, 11507); (11517, 11517); (11520, 11557); (11559, 11559); (11565, 11565);
   (11568, 11623); (11631, 11631); (11648, 11670); (11680, 11686); (11688, 11694); (11696, 11702);
   (11704, 11710); (11712, 11718); (11720, 11726); (11728, 11734); (11736, 11742); (11823, 11823);
   (12293, 12295); (12321, 12329); (12337, 12341); (12344, 12348); (12353, 12438); (12445, 12447);
   (12449, 12538); (12540, 12543); (12549, 12591); (12593, 12686); (12690, 12693); (12704, 12735);
   (12784, 12799); (12832, 12841); (12872, 12879); (12881, 12895); (12928, 12937); (12977, 12991);
   (13312, 19903); (19968, 42124); (42192, 42237); (42240, 42508); (42512, 42539); (42560, 42606);
   (42623, 42653); (42656, 42735); (42775, 42783); (42786, 42888); (42891, 42954); (42960, 42961);
   (42963, 42963); (42965, 42969); (42994, 43009); (43011, 43013); (43015, 43018); (43020, 43042);
   (43056, 43061); (43072, 43123); (43138, 43187); (43216, 43225); (43250, 43255); (43259, 43259);
   (43261, 43262); (43264, 43301); (43312, 43334); (43360, 43388); (43396, 43442); (43471, 43481);
   (43488, 43492); (43494, 43518); (43520, 43560); (43584, 43586); (43588, 43595); (43600, 43609);
   (43616, 43638); (43642, 43642); (43646, 43695); (43697, 43697); (43701, 43702); (43705, 43709);
   (43712, 43712); (43714, 43714); (43739, 43741); (43744, 43754); (43762, 43764); (43777, 43782);
   (43785, 43790); (43793, 43798); (43808, 43814); (43816, 43822); (43824, 43866); (43868, 43881);
   (43888, 44002); (44016, 44025); (44032, 55203); (55216, 55238); (55243, 55291); (63744, 64109);
   (64112, 64217); (64256, 64262); (64275, 64279); (64285, 64285); (64287, 64296); (64298, 64310);
   (64312, 64316); (64318, 64318); (64320, 64321); (64323, 64324); (64326, 64433); (64467, 64829);
   (64848, 64911); (64914, 64967); (65008, 65019); (65136, 65140); (65142, 65276); (65296, 65305);
   (65313, 65338); (65345, 65370); (65382, 65470); (65474, 65479); (65482, 65487); (65490, 65495);
   (65498, 65500); (65536, 65547); (65549, 65574); (65576, 65594); (65596, 65597); (65599, 65613);
   (65616, 65629); (65664, 65786); (65799, 65843); (65856, 65912); (65930, 65931); (66176, 66204);
   (66208, 66256); (66273, 66299); (66304, 66339); (66349, 66378); (66384, 66421); (66432, 66461);
   (66464, 66499); (66504, 66511); (66513, 66517); (66560, 66717); (66720, 66729); (66736, 66771);
   (66776, 66811); (66816, 66855); (66864, 66915); (66928, 66938); (66940, 66954); (66956, 66962);
   (66964, 66965); (66967, 66977); (66979, 66993); (66995, 67001); (67003, 67004); (67072, 67382);
   (67392, 67413); (67424, 67431); (67456, 67461); (67463, 67504); (67506, 67514); (67584, 67589);
   (67592, 67592); (67594, 67637); (67639, 67640); (67644, 67644); (67647, 67669); (67672, 67702);
   (67705, 67742); (67751, 67759); (67808, 67826); (67828, 67829); (67835, 67867); (67872, 67897);
   (67968, 68023); (68028, 68047); (68050, 68096); (68112, 68115); (68117, 68119); (68121, 68149);
   (68160, 68168); (68192, 68222); (68224, 68255); (68288, 68295); (68297, 68324); (68331, 68335);
   (68352, 68405); (68416, 68437); (68440, 68466); (68472, 68497); (68521, 68527); (68608, 68680);
   (68736, 68786); (68800, 68850); (68858, 68899); (68912, 68921); (69216, 69246); (69248, 69289);
   (69296, 69297); (69376, 69415); (69424, 69445); (69457, 69460); (69488, 69505); (69552, 69579);
   (69600, 69622); (69635, 69687); (69714, 69743); (69745, 69746); (69749, 69749); (69763, 69807);
   (69840, 69864); (69872, 69881); (69891, 69926); (69942, 69951); (69956, 69956); (69959, 69959);
   (69968, 70002); (70006, 70006); (70019, 70066); (70081, 70084); (70096, 70106); (70108, 70108);
   (70113, 70132); (70144, 70161); (70163, 70187); (70272, 70278); (70280, 70280); (70282, 70285);
   (70287, 70301); (70303, 70312); (70320, 70366); (70384, 70393); (70405, 70412); (70415, 70416);
   (70419, 70440); (70442, 70448); (70450, 70451); (70453, 70457); (70461, 70461); (70480, 70480);
   (70493, 70497); (70656, 70708); (70727, 70730); (70736, 70745); (70751, 70753); (70784, 70831);
   (70852, 70853); (70855, 70855); (70864, 70873); (71040, 71086); (71128, 71131); (71168, 71215);
   (71236, 71236); (71248, 71257); (71296, 71338); (71352, 71352); (71360, 71369); (71424, 71450);
   (71472, 71483); (71488, 71494); (71680, 71723); (71840, 71922); (71935, 71942); (71945, 71945);
   (71948, 71955); (71957, 71958); (71960, 71983); (71999, 71999); (72001, 72001); (72016, 72025);
   (72096, 72103); (72106, 72144); (72161, 72161); (72163, 72163); (72192, 72192); (72203, 72242);
   (72250, 72250); (72272, 72272); (72284, 72329); (72349, 72349); (72368, 72440); (72704, 72712);
   (72714, 72750); (72768, 72768); (72784, 72812); (72818, 72847); (72960, 72966); (72968, 72969);
   (72971, 73008); (73030, 73030); (73040, 73049); (73056, 73061); (73063, 73064); (73066, 73097);
   (73112, 73112); (73120, 73129); (73440, 73458); (73648, 73648); (73664, 73684); (73728, 74649);
   (74752, 74862); (74880, 75075); (77712, 77808); (77824, 78894); (82944, 83526); (92160, 92728);
   (92736, 92766); (92768, 92777); (92784, 92862); (92864, 92873); (92880, 92909); (92928, 92975);
   (92992, 92995); (93008, 93017); (93019, 93025); (93027, 93047); (93053, 93071); (93760, 93846);
   (93952, 94026); (94032, 94032); (94099, 94111); (94176, 94177); (94179, 94179); (94208, 100343);
   (100352, 101589); (101632, 101640); (110576, 110579); (110581, 110587); (110589, 110590); (110592, 110882);
   (110928, 110930); (110948, 110951); (110960, 111355); (113664, 113770); (113776, 113788); (113792, 113800);
   (113808, 113817); (119520, 119539); (119648, 119672); (119808, 119892); (119894, 119964); (119966, 119967);
   (119970, 119970); (119973, 119974); (119977, 119980); (119982, 119993); (119995, 119995); (119997, 120003);
   (120005, 120069); (120071, 120074); (120077, 120084); (120086, 120092); (120094, 120121); (120123, 120126);
   (120128, 120132); (120134, 120134); (120138, 120144); (120146, 120485); (120488, 120512); (120514, 120538);
   (120540, 120570); (120572, 120596); (120598, 120628); (120630, 120654); (120656, 120686); (120688, 120712);
   (120714, 120744); (120746, 120770); (120772, 120779); (120782, 120831); (122624, 122654); (123136, 123180);
   (123191, 123197); (123200, 123209); (123214, 123214); (123536, 123565); (123584, 123627); (123632, 123641);
   (124896, 124902); (124904, 124907); (124909, 124910); (124912, 124926); (124928, 125124); (125127, 125135);
   (125184, 125251); (125259, 125259); (125264, 125273); (126065, 126123); (126125, 126127); (126129, 126132);
   (126209, 126253); (126255, 126269); (126464, 126467); (126469, 126495); (126497, 126498); (126500, 126500);
   (126503, 126503); (126505, 126514); (126516, 126519); (126521, 126521); (126523, 126523); (126530, 126530);
   (126535, 126535); (126537, 126537); (126539, 126539); (126541, 126543); (126545, 126546); (126548, 126548);
   (126551, 126551); (126553, 126553); (126555, 126555); (126557, 126557); (126559, 126559); (126561, 126562);
   (126564, 126564); (126567, 126570); (126572, 126578); (126580, 126583); (126585, 126588); (126590, 126590);
   (126592, 126601); (126603, 126619); (126625, 126627); (126629, 126633); (126635, 126651); (127232, 127244);
   (130032, 130041); (131072, 173791); (173824, 177976); (177984, 178205); (178208, 183969); (183984, 191456);
   (194560, 195101); (196608, 201546)
  ].

Definition is_word (c : N) : bool := existsb (in_range c) word_ranges.

Definition is_upper_AZ (c : N) : bool := in_range c (65, 90).
Definition is_lower_az (c : N) : bool := in_range c (97, 122).

(** [int(s)] on a run of decimal digits (the only strings the sources pass to
    it are groups matched by [\d+] or [\d*]).  CPython's configurable cap on
    the number of digits is not part of the model. *)
Definition int_of_digits (s : pystr) : Z :=
  fold_left (fun acc c => (10 * acc + default 0 (digit_value c))%Z) s 0%Z.

(** [str(n)] for a non-negative integer (positional decimal, no sign). *)
Fixpoint digits_of_pos_fuel (fuel : nat) (n : N) (acc : pystr) : pystr :=
  match fuel with
  | O => acc
  | S f =>
    let acc' := (48 + n mod 10) :: acc in
    if n <? 10 then acc' else digits_of_pos_fuel f (n / 10) acc'
  end.

Definition str_of_N (n : N) : pystr :=
  digits_of_pos_fuel (S (N.to_nat (N.log2 n))) n [].

Definition str_of_Z (z : Z) : pystr :=
  if (z <? 0)%Z then 45 :: str_of_N (Z.to_N (- z)) else str_of_N (Z.to_N z).

(** [s.strip()], [s.lstrip()], [s.rstrip()] *)
Fixpoint lstrip (s : pystr) : pystr :=
  match s with
  | c :: s' => if is_space c then lstrip s' else s
  | [] => []
  end.

Definition rstrip (s : pystr) : pystr := rev (lstrip (rev s)).
Definition strip (s : pystr) : pystr := rstrip (lstrip s).

(** A string has no leading and no trailing whitespace. *)
Definition stripped (s : pystr) : Prop :=
  from_option is_space false (head s) = false ∧
  from_option is_space false (head (rev s)) = false.

Fixpoint is_prefix (p s : pystr) : bool :=
  match p, s with
  | [], _ => true
  | a :: p', b :: s' => (a =? b) && is_prefix p' s'
  | _ :: _, [] => false
  end.

Definition str_eqb (a b : pystr) : bool := bool_decide (a = b).

(** [sub in s] *)
Fixpoint contains (sub s : pystr) : bool :=
  is_prefix sub s ||
  match s with
  | [] => false
  | _ :: s' => contains sub s'
  end.

Definition endswith (s suf : pystr) : bool := is_prefix (rev suf) (rev s).

(** [s.removesuffix(suf)] *)
Definition removesuffix (s suf : pystr) : pystr :=
  if endswith s suf then take (length s - length suf)%nat s else s.

(** [s.replace(old, new)] for a non-empty [old]: occurrences are found from
    the left and do not overlap.  [skip] counts the characters of an
    occurrence that are still to be dropped. *)
Fixpoint replace_from (old new : pystr) (skip : nat) (s : pystr) : pystr :=
  match s with
  | [] => []
  | c :: s' =>
    match skip with
    | S k => replace_from old new k s'
    | O =>
      if is_prefix old s then new ++ replace_from old new (length old - 1) s'
      else c :: replace_from old new 0 s'
    end
  end.

Definition replace (old new s : pystr) : pystr := replace_from old new 0 s.

(** [s.split(sep)] and [s.split(sep, maxsplit)] for a one-character [sep]
    (every separator in the sources is one character).  [cur] is the piece
    being read, reversed; [maxsplit = None] is no limit. *)
Fixpoint split_from (sep : N) (maxsplit : option nat) (cur : pystr) (s : pystr)
  : list pystr :=
  match s with
  | [] => [rev cur]
  | c :: s' =>
    if (c =? sep) && bool_decide (maxsplit ≠ Some O) then
      rev cur :: split_from sep (pred <$> maxsplit) [] s'
    else split_from sep maxsplit (c :: cur) s'
  end.

Definition split (sep : N) (s : pystr) : list pystr := split_from sep None [] s.
Definition split_max (sep : N) (n : nat) (s : pystr) : list pystr :=
  split_from sep (Some n) [] s.

(** [s.lower()].  Its table (full case mapping, final-sigma rule) is left
    abstract: every result below holds for any function in its place.
    [ascii_lower] agrees with it on ASCII text and is what the worked examples
    run with. *)
Class Lower := lower : pystr → pystr.

Definition ascii_lower : Lower :=
  fmap (M := list) (fun c => if is_upper_AZ c then c + 32 else c).

(** Lexicographic comparison of strings by code point ([a <= b]). *)
Fixpoint str_leb (a b : pystr) : bool :=
  match a, b with
  | [], _ => true
  | _ :: _, [] => false
  | x :: a', y :: b' => (x <? y) || ((x =? y) && str_leb a' b')
  end.

End PyStr.

(** ** A few list operations of pandas *)

Module Pandas.

(** A stable sort ([sort_values(kind="mergesort")], and Python's
    [list.sort]): insertion from the right keeps equal keys in input order.
    The sorts the sources leave at the default kind are used on keys that are
    pairwise different, or only their key order is stated. *)
Fixpoint insert_sorted {A} (leb : A → A → bool) (x : A) (l : list A) : list A :=
  match l with
  | [] => [x]
  | y :: l' => if leb x y then x :: l else y :: insert_sorted leb x l'
  end.

Fixpoint sort_stable {A} (leb : A → A → bool) (l : list A) : list A :=
  match l with
  | [] => []
  | x :: l' => insert_sorted leb x (sort_stable leb l')
  end.

(** [drop_duplicates(subset=key, keep="first")] *)
Fixpoint drop_duplicates {A K} `{EqDecision K} (key : A → K) (l : list A) (seen : list K)
  : list A :=
  match l with
  | [] => []
  | x :: l' =>
    if bool_decide (key x ∈ seen) then drop_duplicates key l' seen
    else x :: drop_duplicates key l' (key x :: seen)
  end.

(** [df.loc[mask, col] = values]: the values go to the rows of the mask in
    order.  (pandas raises when the lengths differ; at the call sites they
    agree by construction.) *)
Fixpoint loc_assign {A B} (upd : B → A → A) (mask : list bool) (values : list B)
    (rows : list A) : list A :=
  match rows, mask with
  | r :: rows', true :: mask' =>
    match values with
    | v :: values' => upd v r :: loc_assign upd mask' values' rows'
    | [] => rows
    end
  | r :: rows', false :: mask' => r :: loc_assign upd mask' values rows'
  | _, _ => rows
  end.

(** Position of the first occurrence ([categories.get_loc]). *)
Fixpoint index_of {K} `{EqDecision K} (k : K) (l : list K) : option nat :=
  match l with
  | [] => None
  | x :: l' => if decide (x = k) then Some O else S <$> index_of k l'
  end.

End Pandas.

(** ** The fragment of [re] the sources use

    A backtracking matcher in continuation-passing style: alternatives are
    tried in the order CPython tries them (greedy first), so the first
    success is the match [re] reports. *)

Module Re.
Import PyStr.

Record mstate := MState {
  before : pystr;          (* the text already consumed, reversed *)
  rest : pystr;            (* the text still to read *)
  groups : gmap nat pystr  (* the groups that took part in the match *)
}.

Inductive re :=
| Chr (c : N)                (* a literal character *)
| Cls (p : N → bool)         (* a character class *)
| Seq (r1 r2 : re)
| Opt (r : re)               (* r?  greedy *)
| StarC (p : N → bool)       (* [p]*  greedy *)
| PlusC (p : N → bool)       (* [p]+  greedy *)
| Grp (i : nat) (r : re)     (* capturing group number i *)
| Bol                        (* ^ *)
| Eol                        (* $ : at the end, or before a final newline *)
| WordB.                     (* \b *)

Fixpoint star (p : N → bool) (bef s : pystr) (g : gmap nat pystr)
    (k : mstate → option mstate) : option mstate :=
  match s with
  | c :: s' =>
    if p c then
      match star p (c :: bef) s' g k with
      | Some m => Some m
      | None => k (MState bef s g)
      end
    else k (MState bef s g)
  | [] => k (MState bef [] g)
  end.

Definition at_boundary (st : mstate) : bool :=
  xorb (from_option is_word false (head (before st)))
       (from_option is_word false (head (rest st))).

Fixpoint run (r : re) (st : mstate) (k : mstate → option mstate) : option mstate :=
  match r with
  | Chr c =>
    match rest st with
    | x :: s' => if x =? c then k (MState (x :: before st) s' (groups st)) else None
    | [] => None
    end
  | Cls p =>
    match rest st with
    | x :: s' => if p x then k (MState (x :: before st) s' (groups st)) else None
    | [] => None
    end
  | Seq r1 r2 => run r1 st (fun st1 => run r2 st1 k)
  | Opt r1 =>
    match run r1 st k with
    | Some m => Some m
    | None => k st
    end
  | StarC p => star p (before st) (rest st) (groups st) k
  | PlusC p =>
    match rest st with
    | x :: s' => if p x then star p (x :: before st) s' (groups st) k else None
    | [] => None
    end
  | Grp i r1 =>
    run r1 st (fun st1 =>
      let text := take (length (rest st) - length (rest st1))%nat (rest st) in
      k (MState (before st1) (rest st1) (<[i := text]> (groups st1))))
  | Bol => match before st with [] => k st | _ => None end
  | Eol => match rest st with [] | [10] => k st | _ => None end
  | WordB => if at_boundary st then k st else None
  end.

Definition match_at (r : re) (bef s : pystr) : option mstate :=
  run r (MState bef s ∅) Some.

(** [re.search]: the leftmost position with a match. *)
Fixpoint search_from (r : re) (bef s : pystr) : option mstate :=
  match match_at r bef s with
  | Some m => Some m
  | None =>
    match s with
    | c :: s' => search_from r (c :: bef) s'
    | [] => None
    end
  end.

Definition search (r : re) (s : pystr) : option mstate := search_from r [] s.

(** [re.fullmatch] *)
Definition fullmatch (r : re) (s : pystr) : option mstate :=
  run r (MState [] s ∅)
    (fun st => match rest st with [] => Some st | _ => None end).

(** [m.group(i)]: [None] for a group that took no part. *)
Definition group (m : mstate) (i : nat) : option pystr := groups m !! i.

(** [re.findall]: the matches from the left, not overlapping.  [skip] is the
    number of characters of the last match still to step over.  (The pattern
    this is used with matches no empty string, so the rule for scanning on
    after an empty match does not arise.) *)
Fixpoint findall_from (r : re) (skip : nat) (bef s : pystr) : list mstate :=
  let here := match skip with O => match_at r bef s | S _ => None end in
  match here with
  | Some m =>
    m :: match s with
         | c :: s' =>
           findall_from r (length s - length (rest m) - 1)%nat (c :: bef) s'
         | [] => []
         end
  | None =>
    match s with
    | c :: s' => findall_from r (pred skip) (c :: bef) s'
    | [] => []
    end
  end.

Definition findall (r : re) (s : pystr) : list mstate := findall_from r 0 [] s.

(** A group of a [findall] tuple: the empty string when it took no part. *)
Definition group_str (m : mstate) (i : nat) : pystr := default [] (group m i).

End Re.

(** ** src/optithor/utils.py *)

Module utils.
Import PyStr Re.

Definition BULLET : N := 0x2022.      (* '•' *)
Definition MIDDLE_DOT : N := 0xB7.    (* '·' *)
Definition FULL_STOP : N := 46.       (* '.' *)
Definition SPACE : N := 32.

(** The three characters the specification calls hydrate-bond markers. *)
Definition is_hydrate_marker (c : N) : bool :=
  bool_decide (c ∈ [BULLET; MIDDLE_DOT; FULL_STOP]).

(** The pattern  (?:(\d+))?H2O\b  of the source. *)
Definition water_re : re :=
  Seq (Opt (Grp 1 (PlusC is_digit)))
      (Seq (Chr 72) (Seq (Chr 50) (Seq (Chr 79) WordB))).

(** The loop over [parts[1:]]: the first part with a match decides. *)
Fixpoint first_water_count (parts : list pystr) : Z :=
  match parts with
  | [] => 0
  | part :: more =>
    let compact := replace [SPACE] [] part in
    match search water_re compact with
    | Some m =>
      match group m 1 with
      | Some d => int_of_digits d
      | None => 1
      end
    | None => first_water_count more
    end
  end.

Definition split_hydrate_formula (formula : pystr) : pystr * Z :=
  match formula with
  | [] => ([], 0%Z)
  | _ =>
    let s := strip formula in
    let s := replace [FULL_STOP] [BULLET] (replace [MIDDLE_DOT] [BULLET] s) in
    if negb (contains [BULLET] s) then (s, 0%Z)
    else
      let parts := filter (fun p => p ≠ []) (strip <$> split BULLET s) in
      match parts with
      | [] => (s, 0%Z)
      | base_formula :: others => (base_formula, first_water_count others)
      end
  end.

(** The pattern of the source: group 1 is [A-Z][a-z]?, group 2 is \d* . *)
Definition token_re : re :=
  Seq (Grp 1 (Seq (Cls is_upper_AZ) (Opt (Cls is_lower_az))))
      (Grp 2 (StarC is_digit)).

Definition tokens (molecular_formula : pystr) : list (pystr * pystr) :=
  (fun m => (group_str m 1, group_str m 2)) <$> findall token_re molecular_formula.

(** The body of the [for element, count_str in matches] loop. *)
Definition count_step (counts : gmap pystr Z) (tok : pystr * pystr) : gmap pystr Z :=
  let '(element, count_str) := tok in
  if bool_decide (is_Some (counts !! element)) then
    <[element := match count_str with [] => 1%Z | _ => int_of_digits count_str end]> counts
  else counts.

Definition elemental_counts (molecular_formula : pystr) (elements : list pystr)
  : gmap pystr Z :=
  let counts : gmap pystr Z := list_to_map ((fun e => (e, 0%Z)) <$> elements) in
  fold_left count_step (tokens molecular_formula) counts.

(** [molar_mass] is chempy's [Substance.from_formula(f).mass], 0.0 when the
    parse fails; chempy is not part of the repository and stays a parameter. *)
Definition H2O_MOLAR_MASS_FALLBACK : Qc := Q2Qc (Qmake 1801528 100000).

Section Mass.
Variable molar_mass : pystr → Qc.

Definition molar_mass_h2o : Qc :=
  let mm := molar_mass (py "H2O") in
  if decide (0 < mm)%Qc then mm else H2O_MOLAR_MASS_FALLBACK.

End Mass.

End utils.


(** ** compound_db_builder/step_03_fetch_pubchem.py: one retried GET *)

Module step_03_fetch_pubchem.

Record PubchemConfig := {
  max_concurrent_requests : Z;
  max_retries : Z;
  initial_backoff_seconds : Z;
  timeout_seconds : Z
}.

(** The defaults of the dataclass. *)
Definition default_config : PubchemConfig :=
  {| max_concurrent_requests := 2; max_retries := 8;
     initial_backoff_seconds := 10; timeout_seconds := 30 |}.

(** What one pass through the [try] block can meet: a response with its
    status and decoded JSON body, or an exception of the two classes the
    [except] clause names ([aiohttp.ClientError], [asyncio.TimeoutError]). *)
Inductive outcome (J : Type) :=
| Response (status : Z) (body : J)
| ClientErrorOrTimeout.
Arguments Response {J} status body.
Arguments ClientErrorOrTimeout {J}.

(** The observable run: the value returned, the arguments of the
    [asyncio.sleep] calls in order, and the number of GETs issued. *)
Record run (J : Type) := Run {
  result : option J;
  sleeps : list Z;
  gets : nat
}.
Arguments Run {J} result sleeps gets.
Arguments result {J} r.
Arguments sleeps {J} r.
Arguments gets {J} r.

Section Retry.
Context {J : Type}.
(** [session i] is what the i-th GET of this call meets. *)
Variable session : nat → outcome J.

(** The [for _ in range(config.max_retries)] loop; [n] iterations remain,
    [i] GETs were issued and [slept] lists the sleeps so far. *)
Fixpoint retry_loop (n : nat) (backoff : Z) (i : nat) (slept : list Z) : run J :=
  match n with
  | O => Run None slept i
  | S n' =>
    match session i with
    | Response status body =>
      if (status =? 200)%Z then Run (Some body) slept (S i)
      else if ((status =? 429) || (status =? 503))%Z then
        retry_loop n' (Z.min (backoff * 2) 300) (S i) (slept ++ [backoff])
      else Run None slept (S i)
    | ClientErrorOrTimeout =>
      retry_loop n' (Z.min (backoff * 2) 300) (S i) (slept ++ [backoff])
    end
  end.

Definition _get_json_with_retries (config : PubchemConfig) : run J :=
  retry_loop (Z.to_nat (max_retries config)) (initial_backoff_seconds config) 0 [].


End Retry.

(** The backoff schedule of the specification: the first [k] sleeps, starting
    at [b] and doubling up to the ceiling of 300 seconds. *)
Fixpoint backoffs (b : Z) (k : nat) : list Z :=
  match k with
  | O => []
  | S k' => b :: backoffs (Z.min (b * 2) 300) k'
  end.

End step_03_fetch_pubchem.

(** ** The compound table as a frame

    The six columns of the table.  The identifier and name columns are always
    there; the other four may be absent from a frame, which the flags record
    (a cell of an absent column is not looked at).  A cell of a text column
    holds a string, [None] or NaN; a cell of a float64 column holds a number
    or NaN ([None] here).  Numbers are exact rationals: rounding of float64
    arithmetic is outside this model. *)

Module Frame.
Import PyStr.

Inductive scell := SStr (s : pystr) | SNone | SNaN.

(** [str(v)], which [astype(str)] applies to every cell. *)
Definition str_of_scell (v : scell) : pystr :=
  match v with
  | SStr s => s
  | SNone => py "None"
  | SNaN => py "nan"
  end.

Record row := Row {
  CID : pystr;          (* "PubChem CID" *)
  Name : scell;         (* "PubChem Name" *)
  Formula : scell;      (* "Formula" *)
  FormulaAnh : scell;   (* "Formula (-H2O)" *)
  MW : option Qc;       (* "MW" *)
  MWAnh : option Qc     (* "MW (-H2O)" *)
}.

Record frame := Frame {
  has_Formula : bool;
  has_FormulaAnh : bool;
  has_MW : bool;
  has_MWAnh : bool;
  rows : list row
}.

(** [df.empty] *)
Definition empty (df : frame) : bool :=
  match rows df with [] => true | _ => false end.

(** [df.loc[mask]] *)
Definition loc {A} (mask : list bool) (l : list A) : list A :=
  snd <$> filter (fun p => fst p = true) (zip mask l).

Definition set_FormulaAnh (v : pystr) (r : row) : row :=
  Row (CID r) (Name r) (Formula r) (SStr v) (MW r) (MWAnh r).

Definition set_MWAnh (v : option Qc) (r : row) : row :=
  Row (CID r) (Name r) (Formula r) (FormulaAnh r) (MW r) v.

End Frame.

(** ** src/optithor/paths.py *)

Module paths.
Import PyStr Frame Pandas.

Definition empty_db_df : frame := Frame true true true true [].

Section Schema.
Variable molar_mass : pystr → Qc.

(** The coercions at the head of the function, and the columns it adds. *)
Definition coerce (df : frame) (r : row) : row :=
  Row (CID r) (Name r)
    (if has_Formula df then SStr (str_of_scell (Formula r)) else Formula r)
    (if has_FormulaAnh df then SStr (str_of_scell (FormulaAnh r)) else SStr [])
    (if has_MW df then MW r else None)
    (if has_MWAnh df then MWAnh r else None).

Definition needs_formula_of (df : frame) (r : row) : bool :=
  has_Formula df &&
  (match FormulaAnh r with SStr _ => false | _ => true end
   || bool_decide (strip (str_of_scell (FormulaAnh r)) = [])).

Definition needs_mw_of (r : row) : bool := bool_decide (MWAnh r = None).

(** MW minus water count times the molar mass of water, row by row; a NaN
    water count is filled with 0. *)
Definition derive_mw (h2o : Qc) (need : bool) (water_count : option Z) (r : row) : row :=
  if need then
    set_MWAnh ((fun mw => mw - Qc_of_Z (default 0%Z water_count) * h2o)%Qc <$> MW r) r
  else r.

Definition ensure_db_schema (df : frame) : frame :=
  if empty df then df
  else
    let out := coerce df <$> rows df in
    let needs_formula := needs_formula_of df <$> out in
    let needs_mw := needs_mw_of <$> out in
    let needs_any := zip_with orb needs_formula needs_mw in
    let '(out, water_count) :=
      if has_Formula df && existsb id needs_any then
        let splits :=
          (fun r => utils.split_hydrate_formula (str_of_scell (Formula r)))
            <$> loc needs_any out in
        let bases := fst <$> splits in
        let waters := snd <$> splits in
        let water_count :=
          loc_assign (fun w _ => Some w) needs_any waters
                     (replicate (length out) (None : option Z)) in
        let out :=
          if existsb id needs_formula then
            loc_assign set_FormulaAnh needs_formula
              (take (length (filter (fun b => b = true) needs_formula))
                 (fst <$> filter (fun p => snd p = true)
                            (zip bases (loc needs_any needs_any))))
              out
          else out in
        (out, water_count)
      else (out, replicate (length out) (Some 0%Z)) in
    let out :=
      if existsb id needs_mw then
        let h2o := utils.molar_mass_h2o molar_mass in
        zip_with (fun nw r => derive_mw h2o (fst nw) (snd nw) r)
                 (zip needs_mw water_count) out
      else out in
    Frame (has_Formula df) true true true out.

End Schema.
End paths.

(** ** src/optithor/compound_db.py *)

Module compound_db.
Import PyStr Frame Pandas.

Inductive exn :=
| RuntimeError | ValueError | DataError | ClientError | ZeroDivisionError.

Inductive result (A : Type) := Ok (a : A) | Raise (e : exn).
Arguments Ok {A} a.
Arguments Raise {A} e.

(** A requested identifier is a [str] or an [int]. *)
Inductive cid_arg := CidStr (s : pystr) | CidInt (z : Z).

Definition str_of_cid_arg (v : cid_arg) : pystr :=
  match v with
  | CidStr s => s
  | CidInt z => str_of_Z z
  end.

(** What [PubChemClient.fetch_by_cid] returns for a found compound; the
    molecular weight is given as the number [pd.to_numeric] reads from it. *)
Record fetched := Fetched {
  rCID : pystr;
  rName : option pystr;
  rFormula : option pystr;
  rMW : option Qc
}.

(** What a call leaves behind: the identifiers sent to the remote client and
    the tables written to the cache file, in order. *)
Record effects := Effects {
  remote_fetches : list pystr;
  cache_writes : list frame
}.

Definition no_effects : effects := Effects [] [].

Section Db.
Context `{Lower}.
Variable molar_mass : pystr → Qc.
(** [self.load(force_reload=...)]: the validated, normalized table, or the
    [DataError] it raises. *)
Variable loaded : result frame.
(** The remote client; it has no handler of its own for transport errors. *)
Variable fetch_by_cid : pystr → result (option fetched).

Definition _normalize_cid (value : cid_arg) : pystr :=
  let s := strip (str_of_cid_arg value) in
  if bool_decide (s = []) || bool_decide (lower s ∈ [py "none"; py "nan"]) then []
  else removesuffix s (py ".0").

Definition scell_present (v : scell) : bool :=
  match v with
  | SNone | SNaN => false
  | SStr s => negb (bool_decide (strip s = []))
  end.

Definition _completeness_score (r : row) : Z :=
  (if scell_present (Name r) then 1 else 0) +
  (if scell_present (Formula r) then 1 else 0) +
  (if scell_present (FormulaAnh r) then 1 else 0) +
  (match MW r with Some _ => 1 | None => 0 end) +
  (match MWAnh r with Some _ => 1 | None => 0 end).

(** The sort key of [_dedupe_keep_most_complete]: identifier ascending, then
    score descending. *)
Definition dedupe_leb (a b : row) : bool :=
  if bool_decide (CID a = CID b) then (_completeness_score b <=? _completeness_score a)%Z
  else str_leb (CID a) (CID b).

Definition _dedupe_keep_most_complete (df : frame) : frame :=
  if empty df then df
  else Frame (has_Formula df) (has_FormulaAnh df) (has_MW df) (has_MWAnh df)
         (drop_duplicates CID (sort_stable dedupe_leb (rows df)) []).

(** [CompoundDb.normalize].  After [strip()] the pattern  \.0$  can match at
    the very end only, so the substitution removes one final ".0". *)
Definition normalize (df : frame) : frame :=
  if empty df then df
  else
    Frame (has_Formula df) (has_FormulaAnh df) (has_MW df) (has_MWAnh df)
      ((fun r =>
          Row (removesuffix (strip (CID r)) (py ".0"))
              (SStr (str_of_scell (Name r)))
              (if has_Formula df then SStr (str_of_scell (Formula r)) else Formula r)
              (if has_FormulaAnh df then SStr (str_of_scell (FormulaAnh r))
               else FormulaAnh r)
              (MW r) (MWAnh r)) <$> rows df).

(** [pd.concat([a, b], ignore_index=True)] *)
Definition concat (a b : frame) : frame :=
  Frame (has_Formula a || has_Formula b) (has_FormulaAnh a || has_FormulaAnh b)
        (has_MW a || has_MW b) (has_MWAnh a || has_MWAnh b) (rows a ++ rows b).

Definition isin (wanted : list pystr) (df : frame) : list row :=
  filter (fun r => CID r ∈ wanted) (rows df).

(** [pd.Categorical(hit["PubChem CID"], categories=wanted, ordered=True)],
    [sort_values("_order")], [reset_index]: categories that are not unique
    raise [ValueError]; the rows are put in the order of their category
    codes. *)
Definition order_leb (wanted : list pystr) (a b : row) : bool :=
  match index_of (CID a) wanted, index_of (CID b) wanted with
  | Some i, Some j => (i <=? j)%nat
  | Some _, None => true
  | None, Some _ => false
  | None, None => true
  end.

Definition in_requested_order (wanted : list pystr) (hit : list row) : result frame :=
  if bool_decide (NoDup wanted) then
    Ok (Frame true true true true (sort_stable (order_leb wanted) hit))
  else Raise ValueError.

Definition or_empty (s : option pystr) : pystr := default [] s.

(** One round of the loop of [_fetch_missing_rows_async]. *)
Fixpoint fetch_records (missing : list pystr) (eff : effects)
  : result (list row) * effects :=
  match missing with
  | [] => (Ok [], eff)
  | cid :: more =>
    let eff := Effects (remote_fetches eff ++ [cid]) (cache_writes eff) in
    match fetch_by_cid cid with
    | Raise e => (Raise e, eff)
    | Ok None => fetch_records more eff
    | Ok (Some rec) =>
      let r := Row (_normalize_cid (CidStr (rCID rec)))
                   (SStr (or_empty (rName rec)))
                   (SStr (or_empty (rFormula rec)))
                   (SStr (or_empty (rFormula rec)))
                   (rMW rec) (rMW rec) in
      match fetch_records more eff with
      | (Ok rs, eff') => (Ok (r :: rs), eff')
      | (Raise e, eff') => (Raise e, eff')
      end
    end
  end.

Definition _fetch_missing_rows_async (missing : list pystr) (eff : effects)
  : result frame * effects :=
  match missing with
  | [] => (Ok paths.empty_db_df, eff)
  | _ =>
    match fetch_records missing eff with
    | (Raise e, eff') => (Raise e, eff')
    | (Ok rs, eff') =>
      let df_new := Frame true true true true rs in
      if empty df_new then (Ok df_new, eff')
      else (Ok (paths.ensure_db_schema molar_mass (normalize df_new)), eff')
    end
  end.

Definition wanted_of (cids : list cid_arg) : list pystr :=
  filter (fun w => w ≠ []) (_normalize_cid <$> cids).

Definition get_compounds_by_cids_async
    (cids : list cid_arg) (fetch_missing update_cache : bool) (eff : effects)
  : result frame * effects :=
  let wanted := wanted_of cids in
  match wanted with
  | [] => (Ok paths.empty_db_df, eff)
  | _ =>
    match loaded with
    | Raise e => (Raise e, eff)
    | Ok df =>
      if empty df then (Ok paths.empty_db_df, eff)
      else
        let hit := isin wanted df in
        let finish (hit : list row) (eff : effects) :=
          match hit with
          | [] => (Ok paths.empty_db_df, eff)
          | _ => (in_requested_order wanted hit, eff)
          end in
        let missing := filter (fun cid => cid ∉ (CID <$> hit)) wanted in
        if fetch_missing && negb (bool_decide (missing = [])) then
          match _fetch_missing_rows_async missing eff with
          | (Raise e, eff') => (Raise e, eff')
          | (Ok df_new, eff') =>
            if empty df_new then finish hit eff'
            else
              let df_all := concat df df_new in
              let df_all := normalize df_all in
              let df_all := paths.ensure_db_schema molar_mass df_all in
              let df_all := _dedupe_keep_most_complete df_all in
              let eff' :=
                if update_cache
                then Effects (remote_fetches eff') (cache_writes eff' ++ [df_all])
                else eff' in
              finish (isin wanted df_all) eff'
          end
        else finish hit eff
    end
  end.

(** The synchronous wrapper; [in_running_event_loop] is what
    [_in_running_event_loop()] answers. *)
Definition get_compounds_by_cids
    (in_running_event_loop : bool)
    (cids : list cid_arg) (fetch_missing update_cache : bool)
  : result frame * effects :=
  if fetch_missing && in_running_event_loop then (Raise RuntimeError, no_effects)
  else if fetch_missing then
    get_compounds_by_cids_async cids fetch_missing update_cache no_effects
  else
    let wanted := wanted_of cids in
    match wanted with
    | [] => (Ok paths.empty_db_df, no_effects)
    | _ =>
      match loaded with
      | Raise e => (Raise e, no_effects)
      | Ok df =>
        if empty df then (Ok paths.empty_db_df, no_effects)
        else
          match isin wanted df with
          | [] => (Ok paths.empty_db_df, no_effects)
          | hit => (in_requested_order wanted hit, no_effects)
          end
      end
    end.

End Db.
End compound_db.

(** ** src/optithor/medium_optimizer.py *)

Module medium_optimizer.
Import PyStr Frame Pandas compound_db.

Record ElementRequirement := {
  reference_yield_g_cdw_per_g : Qc;
  excess_factor : Qc
}.

(** [required_elements] is a dict: the pairs are in insertion order and the
    keys are pairwise different. *)
Record MediumOptimizationInput := {
  compound_cids : list cid_arg;
  max_dry_biomass_g_per_l : Qc;
  required_elements : list (pystr * ElementRequirement)
}.

Record CompoundDose := { cid : pystr; mass_g_per_l : Qc; mol_per_l : Qc }.

Record ElementMatch := {
  element : pystr;
  required_mass_g_per_l : Qc;
  obtained_mass_g_per_l : Qc;
  match_percent : Qc
}.

Record MediumOptimizationResult := {
  success : bool;
  message : pystr;
  compound_doses : list CompoundDose;
  element_matches : list ElementMatch;
  diagnostics : option pystr
}.

Record LpSolution := { lp_success : bool; lp_message : pystr; x : option (list Qc) }.

(** [selected_compounds_df]: the identifier column and one integer column per
    selected element. *)
Record selected_df := {
  columns : list pystr;
  cells : list (pystr * gmap pystr Z)
}.

(** [sep.join(parts)] *)
Fixpoint join (sep : pystr) (parts : list pystr) : pystr :=
  match parts with
  | [] => []
  | [p] => p
  | p :: more => p ++ sep ++ join sep more
  end.

(** [selected_compounds_df[element].sum()] *)
Definition column_sum (df : selected_df) (element : pystr) : Z :=
  foldr (fun row acc => (default 0 (snd row !! element) + acc)%Z) 0%Z (cells df).

Definition missing_elements_of (df : selected_df) (selected_elements : list pystr)
  : list pystr :=
  filter (fun element => element ∉ columns df ∨ column_sum df element = 0%Z)
         selected_elements.

Definition analyze_unsolvable_system
    (b_eq : list Qc) (selected_compounds_df : selected_df)
    (selected_elements : list pystr) : pystr :=
  let num_constraints := length b_eq in
  let missing_elements := missing_elements_of selected_compounds_df selected_elements in
  let head_part :=
    py "A total of " ++ str_of_N (N.of_nat num_constraints) ++
    py " constraints were applied to match required elements with available compounds." in
  let message_parts :=
    match missing_elements with
    | [] =>
      [head_part;
       py "All required elements were found in the provided compounds, but the constraints could not be satisfied. This may be due to insufficient compound availability or conflicting constraints."]
    | [one] =>
      [head_part;
       py "However, the required element '" ++ one ++
       py "' is missing or not present in the provided compounds.";
       py "Please ensure that the input compounds contain these missing elements or review the required constraints."]
    | _ =>
      [head_part;
       py "However, the following " ++ str_of_N (N.of_nat (length missing_elements)) ++
       py " elements are missing or not present in the provided compounds: " ++
       join (py ", ") missing_elements ++ py ".";
       py "Please ensure that the input compounds contain these missing elements or review the required constraints."]
    end in
  join (py " ") message_parts.

Definition count_of (counts : gmap pystr Z) (element : pystr) : Z :=
  default 0%Z (counts !! element).

(** The element columns written by the two loops over the compounds: per
    compound, the counts of the selected elements in its anhydrous formula.
    (An element named like a column of the table would overwrite that column
    in the source; chempy gives none of those names a molar mass, so such a
    request ends in the division by zero before any column is written.) *)
Definition counts_table (compounds_df : frame) (selected_elements : list pystr)
  : list (pystr * gmap pystr Z) :=
  (fun row => (CID row,
               utils.elemental_counts (str_of_scell (FormulaAnh row)) selected_elements))
    <$> rows compounds_df.

(** [a_eq]: one row per element, one column per compound. *)
Definition matrix_of (counts : list (pystr * gmap pystr Z))
    (selected_elements : list pystr) : list (list Z) :=
  (fun e => (fun c => count_of (snd c) e) <$> counts) <$> selected_elements.


(** The names of the six columns of the table. *)
Definition TABLE_COLUMNS : list pystr :=
  [py "PubChem CID"; py "PubChem Name"; py "Formula"; py "Formula (-H2O)";
   py "MW"; py "MW (-H2O)"].

Section Optimizer.
Variable molar_mass : pystr → Qc.
(** [compound_repository.get_compounds_by_cids] *)
Variable compound_repository : list cid_arg → result frame.
(** [solve_linear_program] with the solver configuration fixed: the matrix has
    one row per element and one column per compound. *)
Variable solve_linear_program : list (list Z) → list Qc → nat → LpSolution.

(** The requirement rows (element, required mass, required moles); the
    division by a zero molar mass is Python's [ZeroDivisionError]. *)
Fixpoint requirement_rows (biomass : Qc) (items : list (pystr * ElementRequirement))
  : result (list (pystr * Qc * Qc)) :=
  match items with
  | [] => Ok []
  | (element, req) :: more =>
    if bool_decide (reference_yield_g_cdw_per_g req ≤ 0)%Qc
       || bool_decide (excess_factor req ≤ 0)%Qc
    then requirement_rows biomass more
    else
      let ref_mass := (biomass / reference_yield_g_cdw_per_g req)%Qc in
      let required_mass := (ref_mass * excess_factor req)%Qc in
      if bool_decide (molar_mass element = 0%Qc) then Raise ZeroDivisionError
      else
        let required_mol := (required_mass / molar_mass element)%Qc in
        match requirement_rows biomass more with
        | Ok rows => Ok ((element, required_mass, required_mol) :: rows)
        | Raise e => Raise e
        end
  end.

Definition dot (counts : list Z) (xs : list Qc) : Qc :=
  foldr Qcplus 0%Qc (zip_with (fun c v => (Qc_of_Z c * v)%Qc) counts xs).

Definition optimize_medium (medium_input : MediumOptimizationInput)
  : result MediumOptimizationResult :=
  match compound_repository (compound_cids medium_input) with
  | Raise e => Raise e
  | Ok compounds_df =>
    if empty compounds_df then
      Ok {| success := false;
            message := py "no compounds found for provided cids";
            compound_doses := []; element_matches := [];
            diagnostics := Some (py "repository returned an empty dataframe") |}
    else
      let compounds_df := paths.ensure_db_schema molar_mass compounds_df in
      match requirement_rows (max_dry_biomass_g_per_l medium_input)
                             (required_elements medium_input) with
      | Raise e => Raise e
      | Ok [] =>
        Ok {| success := false;
              message := py "no valid element requirements provided";
              compound_doses := []; element_matches := [];
              diagnostics :=
                Some (py "all elements had non-positive yield or excess factor") |}
      | Ok requirements =>
        let selected_elements := (fun r => fst (fst r)) <$> requirements in
        let counts := counts_table compounds_df selected_elements in
        let selected_compounds_df :=
          {| columns := py "PubChem CID" :: selected_elements; cells := counts |} in
        let a_eq := matrix_of counts selected_elements in
        let b_eq := snd <$> requirements in
        let solution := solve_linear_program a_eq b_eq (length counts) in
        match lp_success solution, x solution with
        | true, Some mol_per_l =>
          let doses :=
            omap (fun p =>
                    match MW (fst p) with
                    | Some mw =>
                      let m := (snd p * mw)%Qc in
                      if bool_decide (0 < m)%Qc
                      then Some {| cid := CID (fst p); mass_g_per_l := m;
                                   mol_per_l := snd p |}
                      else None
                    | None => None
                    end)
                 (zip (rows compounds_df) mol_per_l) in
          let doses :=
            sort_stable (fun a b => bool_decide (mass_g_per_l b ≤ mass_g_per_l a)%Qc)
                        doses in
          let matches :=
            (fun r =>
               let '(e, required_mass, _) := r in
               let obtained_mol := dot ((fun c => count_of (snd c) e) <$> counts) mol_per_l in
               let obtained_mass := (obtained_mol * molar_mass e)%Qc in
               {| element := e;
                  required_mass_g_per_l := required_mass;
                  obtained_mass_g_per_l := obtained_mass;
                  match_percent :=
                    if bool_decide (0 < required_mass)%Qc
                    then (obtained_mass / required_mass * Qc_of_Z 100)%Qc
                    else 0%Qc |})
              <$> requirements in
          Ok {| success := true; message := lp_message solution;
                compound_doses := doses; element_matches := matches;
                diagnostics := None |}
        | _, _ =>
          Ok {| success := false;
                message := py "optimization could not be solved: " ++ lp_message solution;
                compound_doses := []; element_matches := [];
                diagnostics :=
                  Some (analyze_unsolvable_system b_eq selected_compounds_df
                                                  selected_elements) |}
        end
      end
  end.

End Optimizer.
End medium_optimizer.

(** ** The call records of the builder

    A frame of call records (the attempt cache, the outcomes of a run): the
    list of its columns and, per row, the cells that hold something.  A column
    a row has no entry for holds NaN there, which is how pandas fills a key a
    record lacks. *)

Module Records.
Import PyStr.

Inductive value :=
| VNone                    (* None *)
| VStr (s : pystr)
| VInt (z : Z)
| VFloat (repr : pystr).   (* a float that is not NaN, named by its repr *)

#[global] Instance value_eq_dec : EqDecision value.
Proof. solve_decision. Defined.

(** A cell: a value, or NaN. *)
Definition cell := option value.

Record frame := Frame {
  columns : list pystr;
  rows : list (gmap pystr value)
}.

(** [str(v)] *)
Definition str_of_cell (c : cell) : pystr :=
  match c with
  | None => py "nan"
  | Some VNone => py "None"
  | Some (VStr s) => s
  | Some (VInt z) => str_of_Z z
  | Some (VFloat repr) => repr
  end.


(** [df.empty]: no row or no column. *)
Definition is_empty (df : frame) : bool :=
  match rows df, columns df with
  | [], _ | _, [] => true
  | _, _ => false
  end.

(** [row.get(col, default)] on a row of a frame with the columns [cols]. *)
Definition row_get (cols : list pystr) (r : gmap pystr value) (col : pystr)
    (dflt : value) : cell :=
  if bool_decide (col ∈ cols) then r !! col else Some dflt.

(** [pd.concat([a, b], ignore_index=True)] *)
Definition concat (a b : frame) : frame :=
  Frame (columns a ++ filter (fun c => c ∉ columns a) (columns b))
        (rows a ++ rows b).

(** [df.drop(columns=names)] *)
Definition drop_columns (names : list pystr) (df : frame) : frame :=
  Frame (filter (fun c => c ∉ names) (columns df))
        ((fun r => foldr delete r names) <$> rows df).

(** A row with the three scratch columns of a dedup: its key, its score and
    its position. *)
Record entry := Entry {
  e_key : pystr;
  e_score : Z;
  e_idx : nat;
  e_row : gmap pystr value
}.

(** [sort_values(by=[key, "_score", "_idx"], ascending=[True, False, False])] *)
Definition entry_leb (a b : entry) : bool :=
  if bool_decide (e_key a = e_key b) then
    if bool_decide (e_score a = e_score b) then (e_idx b <=? e_idx a)%nat
    else (e_score b <? e_score a)%Z
  else str_leb (e_key a) (e_key b).

(** The sort followed by [drop_duplicates(subset=[key], keep="first")]. *)
Definition best_entries (entries : list entry) : list entry :=
  Pandas.drop_duplicates e_key (Pandas.sort_stable entry_leb entries) [].

Definition annotate (key : gmap pystr value → pystr) (score : gmap pystr value → Z)
    (rs : list (gmap pystr value)) : list entry :=
  imap (fun i r => Entry (key r) (score r) i r) rs.

End Records.

(** ** compound_db_builder/pubchem_cache.py *)

Module pubchem_cache.
Import PyStr Records.

Definition QUERY_NAME : pystr := py "Query Name".
Definition STATUS : pystr := py "Status".
Definition PUBCHEM_CID : pystr := py "PubChem CID".
Definition PUBCHEM_NAME : pystr := py "PubChem Name".
Definition MOLECULAR_FORMULA : pystr := py "Molecular Formula".
Definition MOLECULAR_WEIGHT : pystr := py "Molecular Weight".
Definition SMILES : pystr := py "SMILES".

Section Cache.
Context `{Lower}.

Definition _norm_cid (v : cell) : option pystr :=
  match v with
  | Some VNone => None
  | _ =>
    let s := strip (str_of_cell v) in
    match s with
    | [] => None
    | _ =>
      let s := if endswith s (py ".0") then replace (py ".0") [] s else s in
      if bool_decide (lower s = py "none") then None else Some s
    end
  end.

Definition _not_empty (v : cell) : bool :=
  match v with
  | Some VNone => false
  | _ =>
    let s := strip (str_of_cell v) in
    negb (bool_decide (s = [])) && negb (bool_decide (lower s = py "nan"))
  end.

(** Truth value of what [_norm_cid] returns. *)
Definition truthy (o : option pystr) : bool :=
  match o with
  | Some (_ :: _) => true
  | _ => false
  end.

Definition status_ok (cols : list pystr) (r : gmap pystr value) : bool :=
  bool_decide (lower (strip (str_of_cell (row_get cols r STATUS (VStr [])))) = py "ok").

Definition _score_row (cols : list pystr) (r : gmap pystr value) : Z :=
  (if status_ok cols r then 10000 else 0) +
  (if truthy (_norm_cid (row_get cols r PUBCHEM_CID VNone)) then 2000 else 0) +
  (if _not_empty (row_get cols r PUBCHEM_NAME VNone) then 400 else 0) +
  (if _not_empty (row_get cols r MOLECULAR_FORMULA VNone) then 400 else 0) +
  (if _not_empty (row_get cols r MOLECULAR_WEIGHT VNone) then 400 else 0) +
  (if _not_empty (row_get cols r SMILES VNone) then 50 else 0).

(** [df["Query Name"].astype(str).str.strip()] on one row. *)
Definition strip_query (r : gmap pystr value) : gmap pystr value :=
  <[QUERY_NAME := VStr (strip (str_of_cell (r !! QUERY_NAME)))]> r.

Definition qkey (r : gmap pystr value) : pystr :=
  lower (str_of_cell (r !! QUERY_NAME)).

Definition MERGE_SCRATCH : list pystr := [py "_qkey"; py "_score"; py "_idx"].

(** The frame returned is also the one [save_cache] writes to the cache
    file.  The arguments are frames; the source treats [None] like an empty
    frame. *)
Definition all_records (df_cached df_new : frame) : frame :=
  if is_empty df_cached then df_new
  else if is_empty df_new then df_cached
  else concat df_cached df_new.

Definition merge_cache (df_cached df_new : frame) : frame :=
  let df_all := all_records df_cached df_new in
  if is_empty df_all || negb (bool_decide (QUERY_NAME ∈ columns df_all)) then df_all
  else
    let rs := strip_query <$> rows df_all in
    let entries := annotate qkey (_score_row (columns df_all)) rs in
    drop_columns MERGE_SCRATCH
      (Frame (columns df_all) (e_row <$> best_entries entries)).

(** [successful_only] *)
Definition successful_only (df_calls : frame) : frame :=
  if is_empty df_calls then Frame [] []
  else
    let rs :=
      if bool_decide (STATUS ∈ columns df_calls)
      then filter (fun r => lower (strip (str_of_cell (r !! STATUS))) = py "ok")
                  (rows df_calls)
      else rows df_calls in
    if negb (bool_decide (PUBCHEM_CID ∈ columns df_calls)) then Frame [] []
    else
      Frame (columns df_calls)
        (omap (fun r =>
                 match _norm_cid (r !! PUBCHEM_CID) with
                 | Some s => Some (<[PUBCHEM_CID := VStr s]> r)
                 | None => None
                 end) rs).

Definition CID_SCRATCH : list pystr := [py "_score"; py "_idx"].

(** [best_per_cid].  Its argument comes from [successful_only], so the
    identifier cells are strings and sort as such. *)
Definition best_per_cid (df_ok : frame) : frame :=
  if is_empty df_ok then Frame [] []
  else
    let entries :=
      annotate (fun r => str_of_cell (r !! PUBCHEM_CID))
               (_score_row (columns df_ok)) (rows df_ok) in
    drop_columns CID_SCRATCH
      (Frame (columns df_ok) (e_row <$> best_entries entries)).

End Cache.
End pubchem_cache.

(** ** compound_db_builder/step_04_build_parquet.py (formula part) *)

Module step_04_build_parquet.
Import PyStr Re.

Definition molar_mass_h2o : Qc := Q2Qc (Qmake 1801528 100000).

(** Under [re.IGNORECASE] the literal H matches exactly H and h, and the
    literal O exactly O and o: no other code point has either as its
    lower case. *)
Definition is_Hh (c : N) : bool := (c =? 72) || (c =? 104).
Definition is_Oo (c : N) : bool := (c =? 79) || (c =? 111).

(** The pattern  ^\s*(\d+)\s*H2O\s*$  with [flags=re.IGNORECASE]. *)
Definition counted_water_re : re :=
  Seq Bol (Seq (StarC is_space) (Seq (Grp 1 (PlusC is_digit)) (Seq (StarC is_space)
    (Seq (Cls is_Hh) (Seq (Chr 50) (Seq (Cls is_Oo) (Seq (StarC is_space) Eol))))))).

(** The pattern  H2O  with [flags=re.IGNORECASE]. *)
Definition plain_water_re : re := Seq (Cls is_Hh) (Seq (Chr 50) (Cls is_Oo)).

(** [formula] is a [str] at the one call site, so the [isinstance] test of
    the source is not a branch here.  [s.split(sep, 1)] of a string that
    contains [sep] has exactly two pieces; the last branch below stands for
    the unpacking error that therefore cannot happen. *)
Definition split_hydrate_formula (formula : pystr) : pystr * Z :=
  match formula with
  | [] => ([], 0%Z)
  | _ =>
    let s := replace [utils.MIDDLE_DOT] [utils.BULLET] formula in
    if negb (contains [utils.BULLET] s) then (strip s, 0%Z)
    else
      match strip <$> split_max utils.BULLET 1 s with
      | [left_; right_] =>
        match search counted_water_re right_ with
        | Some m => (left_, int_of_digits (group_str m 1))
        | None =>
          match fullmatch plain_water_re right_ with
          | Some _ => (left_, 1%Z)
          | None => (left_, 0%Z)
          end
        end
      | _ => ([], 0%Z)
      end
  end.

Import Records.

Section Score.
Context `{Lower}.





End Score.

(** [compute_minus_h2o] on the two cells it reads: the text of the row's
    Formula, when it is a string, and its MW. *)
Definition compute_minus_h2o (formula : cell) (mw : option Qc)
  : option pystr * option Qc :=
  match formula with
  | Some (VStr f) =>
    if bool_decide (strip f = []) then (None, None)
    else
      let '(base, n) := split_hydrate_formula f in
      match mw with
      | None => (Some base, None)
      | Some m => (Some base, Some (m - Qc_of_Z n * molar_mass_h2o)%Qc)
      end
  | _ => (None, None)
  end.

End step_04_build_parquet.

(** ** compound_db_builder/io_json.py *)

Module io_json.
Import PyStr.

Section Dedupe.
Context `{Lower}.

(** The loop of [dedupe_preserve_order]; [seen] holds the keys met so far,
    and the list returned is [out] in the order of its appends. *)
Fixpoint dedupe_loop (items : list pystr) (seen : gset pystr) : list pystr :=
  match items with
  | [] => []
  | s :: more =>
    match strip s with
    | [] => dedupe_loop more seen
    | s =>
      let key := lower s in
      if bool_decide (key ∈ seen) then dedupe_loop more seen
      else s :: dedupe_loop more ({[key]} ∪ seen)
    end
  end.

Definition dedupe_preserve_order (items : list pystr) : list pystr :=
  dedupe_loop items ∅.

End Dedupe.
End io_json.

(** ** compound_db_builder/db_state.py *)

Module db_state.
Import PyStr.

Section State.
Context `{Lower}.
(** [str.isdigit] is a builtin of Python; like [str.lower] it stays a
    parameter. *)
Variable isdigit : pystr → bool.

Definition _norm (s : pystr) : pystr := lower (strip s).

(** The loop of [filter_names_to_fetch]. *)
Fixpoint filter_loop (names : list pystr)
    (known_names_lower known_cids_str attempted_queries_lower seen : gset pystr)
  : list pystr :=
  match names with
  | [] => []
  | n :: more =>
    match strip n with
    | [] =>
      filter_loop more known_names_lower known_cids_str attempted_queries_lower seen
    | s =>
      let key := lower s in
      if bool_decide (key ∈ seen) then
        filter_loop more known_names_lower known_cids_str attempted_queries_lower seen
      else
        let seen := {[key]} ∪ seen in
        let rest :=
          filter_loop more known_names_lower known_cids_str attempted_queries_lower
                      seen in
        if bool_decide (key ∈ attempted_queries_lower) then rest
        else if isdigit s && bool_decide (s ∈ known_cids_str) then rest
        else if bool_decide (key ∈ known_names_lower) then rest
        else s :: rest
    end
  end.

Definition filter_names_to_fetch (names : list pystr)
    (known_names_lower known_cids_str attempted_queries_lower : gset pystr)
  : list pystr :=
  filter_loop names known_names_lower known_cids_str attempted_queries_lower ∅.

End State.
End db_state.

(** ** Notions used to state the properties *)

Module Notions.
Import PyStr Records pubchem_cache.


(** A character that is no hydrate marker. *)
Definition plain (c : N) : Prop := utils.is_hydrate_marker c = false.

(** The two [replace] calls of [utils.split_hydrate_formula] that turn every
    marker into the bullet. *)
Definition unify_markers (s : pystr) : pystr :=
  replace [utils.FULL_STOP] [utils.BULLET]
    (replace [utils.MIDDLE_DOT] [utils.BULLET] s).

(** The columns [_score_row] reads. *)
Definition SCORED : list pystr :=
  [STATUS; PUBCHEM_CID; PUBCHEM_NAME; MOLECULAR_FORMULA; MOLECULAR_WEIGHT; SMILES].

Definition scored_agree (cols1 cols2 : list pystr) : Prop :=
  ∀ c, c ∈ SCORED → (c ∈ cols1 ↔ c ∈ cols2).

(** A row without the scratch columns [names]. *)
Definition del (names : list pystr) (r : gmap pystr value) : gmap pystr value :=
  foldr delete r names.

(** The columns a merge returns. *)
Definition keep (cols : list pystr) : list pystr :=
  filter (λ c, c ∉ MERGE_SCRATCH) cols.

(** A frame of outcomes: it is empty, or it has the query column (every
    outcome carries the query it was made for). *)
Definition has_query (df : frame) : Prop :=
  is_empty df = true ∨ QUERY_NAME ∈ columns df.

Definition cid_key (r : gmap pystr value) : pystr := str_of_cell (r !! PUBCHEM_CID).

(** The order of the categories: position of first occurrence. *)
Definition index_le (wanted : list pystr) (a b : pystr) : Prop :=
  ∃ i j, Pandas.index_of a wanted = Some i ∧ Pandas.index_of b wanted = Some j ∧
         (i ≤ j)%nat.

(** The count a token stands for: its digits, or 1 without digits. *)
Definition token_count (count_str : pystr) : Z :=
  match count_str with [] => 1%Z | _ => int_of_digits count_str end.

(** The reading of the specification: the atoms of [element] in the formula,
    counted over all its tokens. *)
Definition atoms_in_formula (molecular_formula element : pystr) : Z :=
  foldr (fun tok acc =>
           if bool_decide (fst tok = element) then (token_count (snd tok) + acc)%Z
           else acc)
        0%Z (utils.tokens molecular_formula).

(** What the loop of [elemental_counts] leaves for [element], starting from
    [v]: the count of the last token with that symbol. *)
Definition last_count (v : Z) (toks : list (pystr * pystr)) (element : pystr) : Z :=
  fold_left (fun acc tok =>
               if bool_decide (fst tok = element) then token_count (snd tok) else acc)
            toks v.



Section Cache.
Context `{Lower}.

(** The rows a merge keeps, from the rows of the concatenation. *)
Definition sel (cols : list pystr) (rs : list (gmap pystr value))
  : list (gmap pystr value) :=
  del MERGE_SCRATCH <$>
    (e_row <$> best_entries (annotate qkey (_score_row cols) (strip_query <$> rs))).

End Cache.
End Notions.

Module SchemaNotions.
Import Frame paths.

(** Every row that lacks the anhydrous mass also lacks the anhydrous formula,
    as in a table that has neither anhydrous column. *)
Definition aligned (df : frame) : Prop :=
  Forall (λ r0, needs_mw_of (coerce df r0) = true →
                needs_formula_of df (coerce df r0) = true) (rows df).

End SchemaNotions.

(** ** Data of the worked examples *)

Module Examples.
Import PyStr Records Frame compound_db medium_optimizer.

(** Molar masses for the examples (g/mol); 0 stands for a failed parse. *)
Definition sample_molar_mass (f : pystr) : Qc :=
  if bool_decide (f = py "H2O") then Q2Qc (Qmake 18015 1000)
  else if bool_decide (f = py "C") then Q2Qc (Qmake 12011 1000)
  else if bool_decide (f = py "Co") then Q2Qc (Qmake 58933 1000)
  else 0%Qc.

Definition mass (hundredths : Z) : option Qc := Some (Q2Qc (Qmake hundredths 100)).

(** A table with the anhydrous molar mass missing in its first row and both
    anhydrous cells missing in its second. *)
Definition legacy_table : frame :=
  Frame true true true true
    [ Row (py "5234") (SStr (py "Sodium chloride"))
          (SStr (py "NaCl")) (SStr (py "NaCl")) (mass 5844) None;
      Row (py "24643") (SStr (py "Cobalt chloride hexahydrate"))
          (SStr (py "CoCl2•6H2O")) (SStr (py "")) (mass 23793) None ].

Definition glucose_row : row :=
  Row (py "5793") (SStr (py "D-Glucose")) (SStr (py "C6H12O6")) (SStr (py "C6H12O6"))
      (mass 18016) (mass 18016).

Definition glucose_table : frame := Frame true true true true [glucose_row].

Definition no_client : pystr → result (option fetched) := fun _ => Ok None.

(** Call records. *)
Definition record (l : list (string * value)) : gmap pystr value :=
  list_to_map ((fun p => (py (fst p), snd p)) <$> l).

Definition CALL_COLUMNS : list pystr :=
  py <$> ["Query Name"; "Status"; "PubChem CID"; "PubChem Name"; "Molecular Formula";
          "Molecular Weight"; "SMILES"]%string.

Definition glucose_ok : gmap pystr value :=
  record [("Query Name", VStr (py "glucose")); ("Status", VStr (py "ok"));
          ("PubChem CID", VStr (py "5793")); ("PubChem Name", VStr (py "D-Glucose"));
          ("Molecular Formula", VStr (py "C6H12O6"));
          ("Molecular Weight", VStr (py "180.16"));
          ("SMILES", VStr (py "C(C1C(C(C(C(O1)O)O)O)O)O"))]%string.

(** The same query answered a second time, with another display name. *)
Definition dextrose_ok : gmap pystr value :=
  record [("Query Name", VStr (py "Glucose")); ("Status", VStr (py "ok"));
          ("PubChem CID", VStr (py "5793")); ("PubChem Name", VStr (py "Dextrose"));
          ("Molecular Formula", VStr (py "C6H12O6"));
          ("Molecular Weight", VStr (py "180.16"));
          ("SMILES", VStr (py "OCC1OC(O)C(O)C(O)C1O"))]%string.

Definition glucose_failed : gmap pystr value :=
  record [("Query Name", VStr (py "glucose")); ("Status", VStr (py "failed-no-props"));
          ("PubChem CID", VNone)]%string.

(** Two records of one identifier: one with a blank molecular weight and
    nothing else, one with a structure string and nothing else. *)
Definition blank_weight : gmap pystr value :=
  record [("Query Name", VStr (py "a")); ("Status", VStr (py "ok"));
          ("PubChem CID", VStr (py "962")); ("Molecular Weight", VStr (py ""))]%string.

Definition only_smiles : gmap pystr value :=
  record [("Query Name", VStr (py "b")); ("Status", VStr (py "ok"));
          ("PubChem CID", VStr (py "962")); ("SMILES", VStr (py "O"))]%string.

(** Two busy answers, then a body. *)
Definition busy_then_ok : nat → step_03_fetch_pubchem.outcome pystr :=
  fun i =>
    if (i <? 2)%nat then step_03_fetch_pubchem.Response 429 []
    else step_03_fetch_pubchem.Response 200 (py "{}").

Definition failing_solver : list (list Z) → list Qc → nat → LpSolution :=
  fun _ _ _ => {| lp_success := false; lp_message := py "infeasible"; x := None |}.

Definition glucose_repository : list cid_arg → result frame :=
  fun _ => Ok glucose_table.

(** Carbon and cobalt required from a medium of glucose alone. *)
Definition cobalt_input : MediumOptimizationInput :=
  {| compound_cids := [CidStr (py "5793")];
     max_dry_biomass_g_per_l := Qc_of_Z 10;
     required_elements :=
       [(py "C", {| reference_yield_g_cdw_per_g := Qc_of_Z 1;
                    excess_factor := Qc_of_Z 1 |});
        (py "Co", {| reference_yield_g_cdw_per_g := Qc_of_Z 100000;
                     excess_factor := Qc_of_Z 20 |})] |}.

End Examples.

Module MoreExamples.
Import PyStr Frame.

(** A table that has no anhydrous column yet. *)
Definition raw_table : frame :=
  Frame true false true false
    [ Row (py "5234") (SStr (py "Sodium chloride"))
          (SStr (py "NaCl")) SNaN (Examples.mass 5844) None;
      Row (py "24643") (SStr (py "Cobalt chloride hexahydrate"))
          (SStr (py " CoCl2 · 6 H2O")) SNaN (Examples.mass 23793) None ].

(** A remote client that cannot reach the service. *)
Definition failing_client : pystr → compound_db.result (option compound_db.fetched) :=
  fun _ => compound_db.Raise compound_db.ClientError.

(** A remote client that knows sodium chloride only. *)
Definition salt_client : pystr → compound_db.result (option compound_db.fetched) :=
  fun cid =>
    if bool_decide (cid = py "5234")
    then compound_db.Ok
           (Some (compound_db.Fetched (py "5234") (Some (py "Sodium chloride"))
                    (Some (py "NaCl")) (Examples.mass 5844)))
    else compound_db.Ok None.

(** A solver that reports success with two moles of every compound. *)
Definition two_moles_solver
  : list (list Z) → list Qc → nat → medium_optimizer.LpSolution :=
  fun _ _ n =>
    {| medium_optimizer.lp_success := true;
       medium_optimizer.lp_message := py "Optimization terminated successfully.";
       medium_optimizer.x := Some (replicate n (Qc_of_Z 2)) |}.

(** [str.isdigit] on ASCII text. *)
Definition ascii_isdigit (s : pystr) : bool :=
  negb (bool_decide (s = [])) && forallb (fun c => (48 <=? c) && (c <=? 57)) s.

(** Names of a run: one attempted before, one known by name, one a known
    identifier, one new and given twice. *)
Definition run_names : list pystr :=
  [py "glucose"; py " Sodium chloride"; py "5793"; py "Urea"; py ""; py "urea "].

End MoreExamples.

(** * Properties *)

(** ** Facts about the string operations *)

Module PyStrFacts.
Import PyStr Notions.

#[global] Arguments del : simpl never.

#[global] Arguments is_space : simpl never.
#[global] Arguments is_digit : simpl never.
#[global] Arguments is_word : simpl never.
#[global] Arguments digit_value : simpl never.




Lemma is_space_bound c : is_space c = true → c ≤ 12288.
Proof.
  unfold is_space, space_ranges, in_range. cbn [existsb fst snd].
  rewrite !orb_true_iff, !andb_true_iff, !N.leb_le. lia.
Qed.





(** *** strip *)




Lemma rstrip_id s c : is_space c = false → rstrip (s ++ [c]) = s ++ [c].
Proof.
  intros H. unfold rstrip. rewrite rev_app_distr. simpl. rewrite H.
  simpl. by rewrite rev_involutive.
Qed.

Lemma lstrip_head s : from_option is_space false (head (lstrip s)) = false.
Proof.
  induction s as [|c s IH]; [done|]. simpl.
  destruct (is_space c) eqn:E; [done|]. simpl. done.
Qed.

Lemma lstrip_fix s : from_option is_space false (head s) = false → lstrip s = s.
Proof. destruct s as [|c s]; [done|]. simpl. by intros ->. Qed.

Lemma lstrip_snoc u c : is_space c = false → ∃ v, lstrip (u ++ [c]) = v ++ [c].
Proof.
  intros Hc. induction u as [|y u [v IH]]; simpl.
  - rewrite Hc. by exists [].
  - destruct (is_space y); [by exists v|]. by exists (y :: u).
Qed.

Lemma strip_fix s : stripped s → strip s = s.
Proof.
  intros [Hh Hl]. unfold strip, rstrip.
  rewrite (lstrip_fix s Hh), (lstrip_fix (rev s) Hl). apply rev_involutive.
Qed.

Lemma strip_stripped s : stripped (strip s).
Proof.
  unfold stripped, strip, rstrip. split.
  - pose proof (lstrip_head s) as H. destruct (lstrip s) as [|c t]; [done|].
    simpl in H. simpl rev.
    destruct (lstrip_snoc (rev t) c H) as [v ->].
    rewrite rev_app_distr. simpl. done.
  - rewrite rev_involutive. apply lstrip_head.
Qed.

Lemma strip_idemp s : strip (strip s) = strip s.
Proof. apply strip_fix, strip_stripped. Qed.

Lemma stripped_cons_snoc c s x :
  is_space c = false → is_space x = false → stripped (c :: s ++ [x]).
Proof.
  intros Hc Hx. split; simpl; [done|].
  rewrite rev_app_distr. simpl. done.
Qed.

(** *** replace, split, in *)

Lemma replace_char a b s :
  replace [a] [b] s = (λ c, if c =? a then b else c) <$> s.
Proof.
  unfold replace. induction s as [|c s IH]; [done|].
  cbn [replace_from is_prefix length Nat.sub fmap list_fmap].
  rewrite andb_true_r, N.eqb_sym. destruct (c =? a); simpl; by rewrite IH.
Qed.

Lemma replace_char_absent a b s : Forall (λ c, c ≠ a) s → replace [a] [b] s = s.
Proof.
  intros H. rewrite replace_char. induction H as [|c s Hc _ IH]; [done|].
  cbn [fmap list_fmap] in *. rewrite IH.
  by destruct (N.eqb_spec c a).
Qed.






Lemma contains_char c s : contains [c] s = true ↔ c ∈ s.
Proof.
  induction s as [|x s IH]; simpl.
  - split; [done|]. intros H. by apply elem_of_nil in H.
  - rewrite andb_true_r, orb_true_iff, IH, elem_of_cons, N.eqb_eq.
    intuition congruence.
Qed.

Lemma contains_char_false c s : Forall (λ x, x ≠ c) s → contains [c] s = false.
Proof.
  intros H. apply not_true_is_false. rewrite contains_char.
  intros Hin. rewrite list.Forall_forall in H. exact (H c Hin eq_refl).
Qed.









End PyStrFacts.

(** ** Facts about the matcher *)

Module ReFacts.
Import PyStr Notions PyStrFacts Re.



End ReFacts.

(** ** Hydrate splitting *)

Module HydrateFacts.
Import PyStr Notions PyStrFacts Re ReFacts utils.


Lemma water_re_plain :
  ∃ m, search water_re [72; 50; 79] = Some m ∧ group m 1 = None.
Proof. eexists. split; [by vm_compute|]. by vm_compute. Qed.


Lemma plain_neq c : plain c ↔ c ≠ BULLET ∧ c ≠ MIDDLE_DOT ∧ c ≠ FULL_STOP.
Proof.
  unfold plain, is_hydrate_marker. rewrite bool_decide_eq_false.
  rewrite !elem_of_cons, elem_of_nil. tauto.
Qed.








Lemma unify_markers_plain s : Forall plain s → unify_markers s = s.
Proof.
  intros H. unfold unify_markers.
  rewrite (replace_char_absent MIDDLE_DOT), (replace_char_absent FULL_STOP);
    [done| |]; (eapply list.Forall_impl; [exact H|]);
    intros c Hc%plain_neq; tauto.
Qed.


Lemma plain_no_bullet s : Forall plain s → Forall (λ c, c ≠ BULLET) s.
Proof.
  intros H. eapply list.Forall_impl; [exact H|]. intros c Hc%plain_neq. tauto.
Qed.



Lemma split_hydrate_formula_nonempty formula :
  formula ≠ [] →
  split_hydrate_formula formula =
    let s := unify_markers (strip formula) in
    if negb (contains [BULLET] s) then (s, 0%Z)
    else
      match filter (λ p, p ≠ []) (strip <$> split BULLET s) with
      | [] => (s, 0%Z)
      | base_formula :: others => (base_formula, first_water_count others)
      end.
Proof. by destruct formula. Qed.



(** *** The builder's copy of the function *)

Import step_04_build_parquet.

Lemma step04_split_nonempty formula :
  formula ≠ [] →
  step_04_build_parquet.split_hydrate_formula formula =
    let s := replace [MIDDLE_DOT] [BULLET] formula in
    if negb (contains [BULLET] s) then (strip s, 0%Z)
    else
      match strip <$> split_max BULLET 1 s with
      | [left_; right_] =>
        match search counted_water_re right_ with
        | Some m => (left_, int_of_digits (group_str m 1))
        | None =>
          match fullmatch plain_water_re right_ with
          | Some _ => (left_, 1%Z)
          | None => (left_, 0%Z)
          end
        end
      | _ => ([], 0%Z)
      end.
Proof. by destruct formula. Qed.



End HydrateFacts.

(** ** The retried GET *)

Module RetryFacts.
Import step_03_fetch_pubchem.
Local Open Scope Z_scope.

Section Retry.
Context {J : Type} (session : nat → outcome J).

Lemma backoffs_snoc b k :
  backoffs b (S k) = backoffs b k ++ [nth k (backoffs b (S k)) 0].
Proof.
  revert b. induction k as [|k IH]; intros b; [done|].
  change (backoffs b (S (S k))) with (b :: backoffs (Z.min (b * 2) 300) (S k)).
  rewrite (IH (Z.min (b * 2) 300)) at 1. done.
Qed.


Lemma retry_loop_gets n backoff i slept :
  (gets (retry_loop session n backoff i slept) ≤ i + n)%nat.
Proof.
  revert backoff i slept. induction n as [|n IH]; intros backoff i slept; simpl.
  - lia.
  - destruct (session i) as [st body|].
    + destruct (st =? 200); [simpl; lia|].
      destruct ((st =? 429) || (st =? 503)); [|simpl; lia].
      etrans; [apply IH|lia].
    + etrans; [apply IH|lia].
Qed.



End Retry.
End RetryFacts.

(** ** Sorting and dropping duplicates *)

Module PandasFacts.
Import PyStr Pandas.

Lemma str_leb_refl a : str_leb a a = true.
Proof.
  induction a as [|x a IH]; [done|]. simpl.
  by rewrite N.eqb_refl, IH, orb_true_r.
Qed.

Lemma str_leb_total a b : str_leb a b = true ∨ str_leb b a = true.
Proof.
  revert b. induction a as [|x a IH]; intros [|y b]; simpl; auto.
  destruct (N.ltb_spec x y); [auto|]. destruct (N.ltb_spec y x); [auto|].
  assert (x = y) as -> by lia. rewrite N.eqb_refl. simpl. apply IH.
Qed.

Lemma str_leb_antisym a b : str_leb a b = true → str_leb b a = true → a = b.
Proof.
  revert b. induction a as [|x a IH]; intros [|y b]; simpl; try done.
  destruct (N.ltb_spec x y), (N.ltb_spec y x); try lia; simpl.
  - destruct (N.eqb_spec y x); [lia|done].
  - destruct (N.eqb_spec x y); [lia|done].
  - destruct (N.eqb_spec x y) as [->|]; [|done]. rewrite N.eqb_refl. simpl.
    intros. f_equal. by apply IH.
Qed.

Lemma str_leb_trans a b c :
  str_leb a b = true → str_leb b c = true → str_leb a c = true.
Proof.
  revert b c. induction a as [|x a IH]; intros [|y b] [|z c]; simpl; try done.
  rewrite !orb_true_iff, !andb_true_iff, !N.ltb_lt, !N.eqb_eq.
  intros [?|[-> ?]] [?|[-> ?]]; [left; lia|by left|by left|right].
  split; [done|]. by eapply IH.
Qed.

Section Sort.
Context {A : Type} (leb : A → A → bool).
Abbreviation R := (λ a b, leb a b = true).

Lemma insert_sorted_perm x l : insert_sorted leb x l ≡ₚ x :: l.
Proof.
  induction l as [|y l IH]; simpl; [done|].
  destruct (leb x y); [done|]. rewrite IH. apply perm_swap.
Qed.

Lemma sort_stable_perm l : sort_stable leb l ≡ₚ l.
Proof.
  induction l as [|x l IH]; simpl; [done|].
  by rewrite insert_sorted_perm, IH.
Qed.

Lemma elem_of_sort_stable x l : x ∈ sort_stable leb l ↔ x ∈ l.
Proof. by rewrite sort_stable_perm. Qed.

Hypothesis leb_total : ∀ a b, leb a b = true ∨ leb b a = true.
Hypothesis leb_trans : ∀ a b c, leb a b = true → leb b c = true → leb a c = true.

Lemma insert_sorted_sorted x l :
  StronglySorted R l → StronglySorted R (insert_sorted leb x l).
Proof.
  induction 1 as [|y l Hl IH Hy]; simpl.
  - repeat constructor.
  - destruct (leb x y) eqn:E.
    + constructor; [by constructor|]. constructor; [exact E|].
      eapply list.Forall_impl; [exact Hy|]. intros z Hz. by eapply leb_trans.
    + constructor; [exact IH|].
      rewrite list.Forall_forall. intros z Hz.
      rewrite insert_sorted_perm in Hz. apply elem_of_cons in Hz as [->|Hz].
      * by destruct (leb_total x y) as [E'|E']; [rewrite E' in E|].
      * rewrite list.Forall_forall in Hy. by apply Hy.
Qed.

Lemma sort_stable_sorted l : StronglySorted R (sort_stable leb l).
Proof.
  induction l as [|x l IH]; simpl; [constructor|]. by apply insert_sorted_sorted.
Qed.

End Sort.

Section Dedup.
Context {A K : Type} `{EqDecision K} (key : A → K).

Lemma elem_of_drop_duplicates e l seen :
  e ∈ drop_duplicates key l seen → e ∈ l ∧ key e ∉ seen.
Proof.
  revert seen. induction l as [|x l IH]; intros seen; simpl.
  - by intros ?%elem_of_nil.
  - case_bool_decide as Hx.
    + intros [? ?]%IH. split; [by right|done].
    + intros [->|[? Hn]%IH]%elem_of_cons; [split; [by left|done]|].
      split; [by right|]. intros ?. apply Hn. by right.
Qed.

Lemma drop_duplicates_NoDup l seen : NoDup (key <$> drop_duplicates key l seen).
Proof.
  revert seen. induction l as [|x l IH]; intros seen; simpl; [constructor|].
  case_bool_decide as Hx; [apply IH|]. csimpl. constructor; [|apply IH].
  intros (e & Hk & He)%list_elem_of_fmap.
  apply elem_of_drop_duplicates in He as [_ Hn]. apply Hn. rewrite <- Hk. by left.
Qed.

Lemma drop_duplicates_cover e l seen :
  e ∈ l → key e ∉ seen →
  ∃ e', e' ∈ drop_duplicates key l seen ∧ key e' = key e.
Proof.
  revert seen. induction l as [|x l IH]; intros seen; simpl.
  - by intros ?%elem_of_nil.
  - intros [->|He]%elem_of_cons Hn.
    + rewrite bool_decide_eq_false_2 by done. exists x. split; [by left|done].
    + case_bool_decide as Hx; [by apply IH|].
      destruct (decide (key e = key x)) as [Heq|Hne].
      * exists x. split; [by left|done].
      * destruct (IH (key x :: seen) He) as (e' & ? & ?).
        { intros [?|?]%elem_of_cons; done. }
        exists e'. split; [by right|done].
Qed.

(** In a sorted list the row kept for a key comes before every other row of
    that key. *)
Lemma drop_duplicates_first (R : relation A) l seen e e' :
  (∀ a, R a a) → StronglySorted R l →
  e ∈ drop_duplicates key l seen → e' ∈ l → key e' = key e → R e e'.
Proof.
  intros Hrefl Hs. revert seen. induction Hs as [|x l Hl IH Hx]; intros seen; simpl.
  - by intros ?%elem_of_nil.
  - case_bool_decide as Hseen.
    + intros He [->|He']%elem_of_cons Hk; [|by eapply IH].
      apply elem_of_drop_duplicates in He as [_ Hn]. by rewrite <- Hk in Hn.
    + intros [->|He]%elem_of_cons [->|He']%elem_of_cons Hk.
      * apply Hrefl.
      * rewrite list.Forall_forall in Hx. by apply Hx.
      * apply elem_of_drop_duplicates in He as [_ Hn]. destruct Hn. rewrite Hk. by left.
      * by eapply IH.
Qed.

Lemma drop_duplicates_sorted (R : relation A) l seen :
  StronglySorted R l → StronglySorted R (drop_duplicates key l seen).
Proof.
  intros Hs. revert seen. induction Hs as [|x l Hl IH Hx]; intros seen; simpl.
  - constructor.
  - case_bool_decide; [apply IH|]. constructor; [apply IH|].
    rewrite list.Forall_forall in Hx |- *. intros y [Hy _]%elem_of_drop_duplicates.
    by apply Hx.
Qed.

End Dedup.
End PandasFacts.

(** ** Best row per key *)

Module RecordsFacts.
Import PyStr Pandas PandasFacts Records.

Lemma entry_leb_refl a : entry_leb a a = true.
Proof.
  unfold entry_leb. rewrite !bool_decide_eq_true_2 by done. by apply Nat.leb_le.
Qed.

(** [entry_leb] spelled out: the key comes first, then the higher score, then
    the later position. *)
Lemma entry_leb_spec a b :
  entry_leb a b = true ↔
  (e_key a ≠ e_key b ∧ str_leb (e_key a) (e_key b) = true) ∨
  (e_key a = e_key b ∧
   ((e_score b < e_score a)%Z ∨ (e_score a = e_score b ∧ (e_idx b ≤ e_idx a)%nat))).
Proof.
  unfold entry_leb. repeat case_bool_decide;
    rewrite ?Nat.leb_le, ?Z.ltb_lt; intuition lia.
Qed.

Lemma entry_leb_total a b : entry_leb a b = true ∨ entry_leb b a = true.
Proof.
  rewrite !entry_leb_spec.
  destruct (decide (e_key a = e_key b)) as [E|E].
  - destruct (Z.lt_total (e_score a) (e_score b)) as [?|[?|?]];
      destruct (Nat.le_ge_cases (e_idx a) (e_idx b)); intuition (auto with lia).
  - destruct (str_leb_total (e_key a) (e_key b)); intuition auto.
Qed.

Lemma entry_leb_trans a b c :
  entry_leb a b = true → entry_leb b c = true → entry_leb a c = true.
Proof.
  rewrite !entry_leb_spec.
  intros [[Hab Lab]|[Eab Sab]] [[Hbc Lbc]|[Ebc Sbc]].
  - left. split; [|by eapply str_leb_trans].
    intros E. rewrite E in Lab. by pose proof (str_leb_antisym _ _ Lab Lbc).
  - left. rewrite <- Ebc. done.
  - left. rewrite Eab. done.
  - right. split; [congruence|]. lia.
Qed.

Lemma elem_of_best_entries e es : e ∈ best_entries es → e ∈ es.
Proof.
  intros [He _]%elem_of_drop_duplicates. by apply elem_of_sort_stable in He.
Qed.

Lemma best_entries_NoDup es : NoDup (e_key <$> best_entries es).
Proof. apply drop_duplicates_NoDup. Qed.

Lemma best_entries_cover e es :
  e ∈ es → ∃ e', e' ∈ best_entries es ∧ e_key e' = e_key e.
Proof.
  intros He. apply drop_duplicates_cover; [|by intros ?%elem_of_nil].
  by apply elem_of_sort_stable.
Qed.

(** The row kept for a key has the highest score of the key, and among the
    rows with that score the last position. *)
Lemma best_entries_wins e e' es :
  e ∈ best_entries es → e' ∈ es → e_key e' = e_key e →
  (e_score e' < e_score e)%Z ∨ (e_score e = e_score e' ∧ (e_idx e' ≤ e_idx e)%nat).
Proof.
  intros He He' Hk.
  assert (entry_leb e e' = true) as Hle.
  { eapply (drop_duplicates_first e_key (λ a b, entry_leb a b = true));
      [apply entry_leb_refl| |exact He| |exact Hk].
    - apply sort_stable_sorted; [apply entry_leb_total|apply entry_leb_trans].
    - by apply elem_of_sort_stable. }
  apply entry_leb_spec in Hle as [[Hne _]|[_ ?]]; [by rewrite Hk in Hne|done].
Qed.

Lemma StronglySorted_impl {A} (R1 R2 : relation A) l :
  (∀ a b, R1 a b → R2 a b) → StronglySorted R1 l → StronglySorted R2 l.
Proof.
  intros HR. induction 1 as [|x l Hl IH Hx]; constructor; [done|].
  eapply list.Forall_impl; [exact Hx|]. auto.
Qed.

Lemma best_entries_sorted es :
  StronglySorted (λ a b, str_leb (e_key a) (e_key b) = true) (best_entries es).
Proof.
  apply (StronglySorted_impl (λ a b, entry_leb a b = true)).
  - intros a b [[_ ?]|[-> _]]%entry_leb_spec; [done|apply str_leb_refl].
  - apply drop_duplicates_sorted, sort_stable_sorted;
      [apply entry_leb_total|apply entry_leb_trans].
Qed.

Lemma elem_of_annotate key score rs e :
  e ∈ annotate key score rs ↔
  ∃ i r, rs !! i = Some r ∧ e = Entry (key r) (score r) i r.
Proof.
  unfold annotate. rewrite list_elem_of_lookup. split.
  - intros [i Hi]. rewrite list_lookup_imap in Hi.
    destruct (rs !! i) as [r|] eqn:E; [|done]. simpl in Hi.
    exists i, r. split; [done|]. congruence.
  - intros (i & r & Hr & ->). exists i. by rewrite list_lookup_imap, Hr.
Qed.

End RecordsFacts.

(** ** The attempt cache *)

Module CacheFacts.
Import PyStr Notions PyStrFacts Pandas PandasFacts Records RecordsFacts pubchem_cache.

Ltac py_neq := let E := fresh in intros E; vm_compute in E; discriminate E.

Lemma StronglySorted_impl_elem {A} (R1 R2 : relation A) l :
  (∀ a b, a ∈ l → b ∈ l → R1 a b → R2 a b) →
  StronglySorted R1 l → StronglySorted R2 l.
Proof.
  intros HR Hs. induction Hs as [|x l Hl IH Hx]; constructor.
  - apply IH. intros a b Ha Hb. apply HR; by right.
  - rewrite list.Forall_forall in Hx |- *. intros y Hy.
    apply HR; [by left|by right|by apply Hx].
Qed.

Lemma NoDup_fmap_eq {A B} (f : A → B) l x y :
  NoDup (f <$> l) → x ∈ l → y ∈ l → f x = f y → x = y.
Proof.
  induction l as [|z l IH]; csimpl; [by intros _ ?%elem_of_nil|].
  intros [Hz Hl]%NoDup_cons [->|Hx]%elem_of_cons [->|Hy]%elem_of_cons E; auto.
  - destruct Hz. rewrite E. by apply list_elem_of_fmap_2.
  - destruct Hz. rewrite <- E. by apply list_elem_of_fmap_2.
Qed.

Section Cache.
Context `{Lower}.

Lemma del_lookup names r c : c ∉ names → del names r !! c = r !! c.
Proof.
  induction names as [|n names IH]; [done|]. intros Hc. unfold del in *. simpl.
  rewrite lookup_delete_ne; [apply IH|]; intros ?; apply Hc; subst;
    [by right|by left].
Qed.

Lemma del_idemp names r : del names (del names r) = del names r.
Proof.
  apply map_eq. intros c. destruct (decide (c ∈ names)) as [Hc|Hc].
  - assert (Hn : ∀ r', del names r' !! c = None).
    { clear r. induction names as [|n names IH]; [by apply elem_of_nil in Hc|].
      intros r'. unfold del in *. simpl. destruct (decide (n = c)) as [->|Hne].
      - apply lookup_delete_eq.
      - rewrite lookup_delete_ne by done. apply IH.
        apply elem_of_cons in Hc as [?|?]; [congruence|done]. }
    by rewrite !Hn.
  - by rewrite !del_lookup.
Qed.

Lemma row_get_ext cols1 cols2 r1 r2 c dflt :
  (c ∈ cols1 ↔ c ∈ cols2) → r1 !! c = r2 !! c →
  row_get cols1 r1 c dflt = row_get cols2 r2 c dflt.
Proof.
  intros Hc Hr. unfold row_get. rewrite Hr.
  destruct (decide (c ∈ cols1)) as [H1|H1].
  - by rewrite !bool_decide_eq_true_2 by tauto.
  - by rewrite !bool_decide_eq_false_2 by tauto.
Qed.

(** The score looks at the six scored cells only. *)
Lemma _score_row_ext cols1 cols2 r1 r2 :
  scored_agree cols1 cols2 → (∀ c, c ∈ SCORED → r1 !! c = r2 !! c) →
  _score_row cols1 r1 = _score_row cols2 r2.
Proof.
  intros Hc Hr. unfold _score_row, status_ok.
  rewrite (row_get_ext cols1 cols2 r1 r2 STATUS),
          (row_get_ext cols1 cols2 r1 r2 PUBCHEM_CID),
          (row_get_ext cols1 cols2 r1 r2 PUBCHEM_NAME),
          (row_get_ext cols1 cols2 r1 r2 MOLECULAR_FORMULA),
          (row_get_ext cols1 cols2 r1 r2 MOLECULAR_WEIGHT),
          (row_get_ext cols1 cols2 r1 r2 SMILES);
    try done; try apply Hc; try apply Hr; unfold SCORED;
    rewrite !elem_of_cons; tauto.
Qed.

Lemma scored_not_scratch c : c ∈ SCORED → c ∉ MERGE_SCRATCH.
Proof.
  unfold SCORED, MERGE_SCRATCH. rewrite !elem_of_cons, !elem_of_nil.
  intros [->|[->|[->|[->|[->|[->|[]]]]]]] [E|[E|[E|[]]]];
    vm_compute in E; discriminate E.
Qed.

Lemma query_not_scratch : QUERY_NAME ∉ MERGE_SCRATCH.
Proof.
  unfold MERGE_SCRATCH. rewrite !elem_of_cons, !elem_of_nil.
  intros [E|[E|[E|[]]]]; vm_compute in E; discriminate E.
Qed.

Lemma _score_row_del cols1 cols2 r :
  scored_agree cols1 cols2 →
  _score_row cols2 (del MERGE_SCRATCH r) = _score_row cols1 r.
Proof.
  intros Hc. symmetry. apply _score_row_ext; [done|].
  intros c Hin. symmetry. by apply del_lookup, scored_not_scratch.
Qed.

Lemma qkey_del r : qkey (del MERGE_SCRATCH r) = qkey r.
Proof. unfold qkey. by rewrite del_lookup by apply query_not_scratch. Qed.

(** A merged row is left as it is by the preparation of the next merge. *)
Lemma strip_query_fix r :
  strip_query (del MERGE_SCRATCH (strip_query r)) = del MERGE_SCRATCH (strip_query r).
Proof.
  unfold strip_query at 1. apply insert_id.
  rewrite del_lookup by apply query_not_scratch.
  unfold strip_query. rewrite lookup_insert_eq. simpl.
  by rewrite strip_idemp.
Qed.

(** Every kept row comes from an entry that wins its key. *)
Lemma elem_of_sel cols rs r :
  r ∈ sel cols rs ↔
  ∃ i r0, (strip_query <$> rs) !! i = Some r0 ∧ r = del MERGE_SCRATCH r0 ∧
          Entry (qkey r0) (_score_row cols r0) i r0
            ∈ best_entries (annotate qkey (_score_row cols) (strip_query <$> rs)).
Proof.
  unfold sel. rewrite list_elem_of_fmap. split.
  - intros (r0 & -> & (e & -> & He)%list_elem_of_fmap).
    pose proof (elem_of_best_entries _ _ He) as (i & r0 & Hi & ->)%elem_of_annotate.
    by exists i, r0.
  - intros (i & r0 & Hi & -> & He). exists r0. split; [done|].
    apply list_elem_of_fmap. by eexists (Entry _ _ _ _).
Qed.

Lemma sel_keys_NoDup cols rs : NoDup (qkey <$> sel cols rs).
Proof.
  unfold sel. rewrite <- !list_fmap_compose.
  pose proof (best_entries_NoDup (annotate qkey (_score_row cols) (strip_query <$> rs)))
    as Hnd.
  erewrite list_fmap_ext; [exact Hnd|].
  intros j e He%list_elem_of_lookup_2. unfold compose. rewrite qkey_del.
  by apply elem_of_best_entries, elem_of_annotate in He as (i & r0 & _ & ->).
Qed.

Lemma sel_sorted cols rs :
  StronglySorted (λ a b, str_leb (qkey a) (qkey b) = true) (sel cols rs).
Proof.
  unfold sel. rewrite <- list_fmap_compose.
  set (es := best_entries _).
  assert (Hk : ∀ e, e ∈ es → qkey (del MERGE_SCRATCH (e_row e)) = e_key e).
  { intros e He. rewrite qkey_del.
    by apply elem_of_best_entries, elem_of_annotate in He as (i & r0 & _ & ->). }
  pose proof (best_entries_sorted (annotate qkey (_score_row cols) (strip_query <$> rs)))
    as Hs. fold es in Hs.
  clearbody es. induction Hs as [|e es Hs IH He]; csimpl; constructor.
  - apply IH. intros e' He'. apply Hk. by right.
  - rewrite Forall_fmap, list.Forall_forall in *. intros e' He'. unfold compose.
    rewrite (Hk e) by (by left). rewrite (Hk e') by (by right). by apply He.
Qed.

Lemma sel_fixed cols rs r : r ∈ sel cols rs → strip_query r = r ∧ del MERGE_SCRATCH r = r.
Proof.
  intros (i & r0 & Hi & -> & _)%elem_of_sel.
  apply list_lookup_fmap_Some in Hi as (r1 & -> & _).
  split; [apply strip_query_fix|apply del_idemp].
Qed.

(** Merging the new rows again into what a merge kept changes nothing. *)
Lemma sel_absorb cols1 cols2 a b :
  scored_agree cols1 cols2 →
  sel cols2 (sel cols1 (a ++ b) ++ b) = sel cols1 (a ++ b).
Proof.
  intros Hc. set (M := sel cols1 (a ++ b)). set (L2 := sel cols2 (M ++ b)).
  assert (Hs2 : ∀ r, _score_row cols2 r = _score_row cols1 r).
  { intros r. symmetry. by apply _score_row_ext. }
  assert (HP2 : strip_query <$> (M ++ b) = M ++ (strip_query <$> b)).
  { rewrite fmap_app. f_equal. rewrite <- (list_fmap_id M) at 2.
    apply list_fmap_ext. intros j r Hr%list_elem_of_lookup_2.
    by apply sel_fixed in Hr as [-> _]. }
  assert (HP1 : strip_query <$> (a ++ b) = (strip_query <$> a) ++ (strip_query <$> b))
    by apply fmap_app.
  set (pa := strip_query <$> a) in *. set (pb := strip_query <$> b) in *.
  (* every row the first merge kept is kept again *)
  assert (Hsub : ∀ r, r ∈ M → r ∈ L2).
  { intros r Hr.
    pose proof Hr as (i & r0 & Hi & Hrr & He1)%elem_of_sel.
    destruct (sel_fixed _ _ _ Hr) as [_ Hdel].
    pose proof Hr as [p Hp]%list_elem_of_lookup.
    assert (HeM : Entry (qkey r) (_score_row cols2 r) p r
                  ∈ annotate qkey (_score_row cols2) (strip_query <$> (M ++ b))).
    { apply elem_of_annotate. exists p, r. split; [|done].
      rewrite HP2. by apply lookup_app_l_Some. }
    destruct (best_entries_cover _ _ HeM) as (e2 & He2 & Hk2).
    pose proof (elem_of_best_entries _ _ He2) as (i2 & r2 & Hi2 & ->)%elem_of_annotate.
    simpl in Hk2.
    apply elem_of_sel. exists i2, r2. split; [done|]. split; [|done].
    rewrite HP2 in Hi2. apply lookup_app_Some in Hi2 as [Hi2|[Hge Hi2]].
    - assert (r2 = r) as ->; [|done].
      eapply (NoDup_fmap_eq qkey M); [apply sel_keys_NoDup| | |done];
        [by eapply list_elem_of_lookup_2|done].
    - (* the row comes from the new rows: it is the winner of the first merge *)
      assert (Hk0 : qkey r0 = qkey r) by (by rewrite Hrr, qkey_del).
      assert (Hs0 : _score_row cols1 r = _score_row cols1 r0).
      { rewrite Hrr. apply _score_row_del. by intros c _. }
      assert (He' : Entry (qkey r2) (_score_row cols1 r2) (length pa + (i2 - length M)) r2
                    ∈ annotate qkey (_score_row cols1) (strip_query <$> (a ++ b))).
      { apply elem_of_annotate. exists (length pa + (i2 - length M))%nat, r2.
        split; [|done]. rewrite HP1, lookup_app_r by lia.
        by replace (length pa + (i2 - length M) - length pa)%nat
          with (i2 - length M)%nat by lia. }
      pose proof (best_entries_wins _ _ _ He1 He' ltac:(simpl; congruence)) as W1.
      pose proof (best_entries_wins _ _ _ He2 HeM ltac:(simpl; congruence)) as W2.
      simpl in W1, W2. rewrite !Hs2, Hs0 in W2.
      assert (Hsc : _score_row cols1 r2 = _score_row cols1 r0) by lia.
      assert (Hi_ge : (length pa + (i2 - length M) ≤ i)%nat) by lia.
      rewrite HP1 in Hi. rewrite lookup_app_r in Hi by lia.
      assert (He'' : Entry (qkey r0) (_score_row cols2 r0) (length M + (i - length pa)) r0
                    ∈ annotate qkey (_score_row cols2) (strip_query <$> (M ++ b))).
      { apply elem_of_annotate. exists (length M + (i - length pa))%nat, r0.
        split; [|done]. rewrite HP2, lookup_app_r by lia.
        by replace (length M + (i - length pa) - length M)%nat
          with (i - length pa)%nat by lia. }
      pose proof (best_entries_wins _ _ _ He2 He'' ltac:(simpl; congruence)) as W3.
      simpl in W3. rewrite !Hs2 in W3.
      assert (i - length pa = i2 - length M)%nat as Heq by lia.
      rewrite Heq in Hi. rewrite Hi in Hi2. injection Hi2 as ->. done. }
  (* every key of the second merge is a key of the first *)
  assert (Hkeys : ∀ r, r ∈ L2 → ∃ m, m ∈ M ∧ qkey m = qkey r).
  { intros r (i2 & r2 & Hi2 & -> & _)%elem_of_sel. rewrite qkey_del.
    rewrite HP2 in Hi2. apply lookup_app_Some in Hi2 as [Hi2|[Hge Hi2]].
    - exists r2. split; [by eapply list_elem_of_lookup_2|done].
    - assert (He' : Entry (qkey r2) (_score_row cols1 r2) (length pa + (i2 - length M)) r2
                    ∈ annotate qkey (_score_row cols1) (strip_query <$> (a ++ b))).
      { apply elem_of_annotate. exists (length pa + (i2 - length M))%nat, r2.
        split; [|done]. rewrite HP1, lookup_app_r by lia.
        by replace (length pa + (i2 - length M) - length pa)%nat
          with (i2 - length M)%nat by lia. }
      destruct (best_entries_cover _ _ He') as (e1 & He1 & Hk1). simpl in Hk1.
      pose proof (elem_of_best_entries _ _ He1) as (i1 & r1 & Hi1 & ->)%elem_of_annotate.
      exists (del MERGE_SCRATCH r1). split; [|by rewrite qkey_del].
      apply elem_of_sel. by exists i1, r1. }
  assert (Hsup : ∀ r, r ∈ L2 → r ∈ M).
  { intros r Hr. destruct (Hkeys r Hr) as (m & Hm & Hk).
    assert (m = r) as <-; [|done].
    eapply (NoDup_fmap_eq qkey L2); [apply sel_keys_NoDup|by apply Hsub|done|done]. }
  symmetry.
  apply (StronglySorted_unique_strong (λ a b, str_leb (qkey a) (qkey b) = true)).
  - intros x1 x2 Hx1 Hx2 H12 H21.
    eapply (NoDup_fmap_eq qkey L2); [apply sel_keys_NoDup|by apply Hsub|done|].
    by apply str_leb_antisym.
  - apply sel_sorted.
  - apply sel_sorted.
  - apply NoDup_Permutation.
    + eapply NoDup_fmap_1, sel_keys_NoDup.
    + eapply NoDup_fmap_1, sel_keys_NoDup.
    + intros r. split; auto.
Qed.

Lemma sel_nonempty cols rs : rs ≠ [] → sel cols rs ≠ [].
Proof.
  destruct rs as [|r rs]; [done|]. intros _ Hnil.
  assert (He : Entry (qkey (strip_query r)) (_score_row cols (strip_query r)) 0
                     (strip_query r)
               ∈ annotate qkey (_score_row cols) (strip_query <$> r :: rs)).
  { apply elem_of_annotate. by exists O, (strip_query r). }
  destruct (best_entries_cover _ _ He) as (e & Hin & _).
  unfold sel in Hnil. apply fmap_nil_inv, fmap_nil_inv in Hnil.
  rewrite Hnil in Hin. by apply elem_of_nil in Hin.
Qed.

(** The branch of [merge_cache] that dedups. *)
Lemma merge_cache_main df_cached df_new :
  is_empty (all_records df_cached df_new) = false →
  QUERY_NAME ∈ columns (all_records df_cached df_new) →
  merge_cache df_cached df_new =
  Frame (keep (columns (all_records df_cached df_new)))
        (sel (columns (all_records df_cached df_new))
             (rows (all_records df_cached df_new))).
Proof.
  intros He Hq. unfold merge_cache. cbv zeta. rewrite He.
  rewrite bool_decide_eq_true_2 by done. reflexivity.
Qed.

Lemma is_empty_false df : is_empty df = false ↔ rows df ≠ [] ∧ columns df ≠ [].
Proof. unfold is_empty. destruct (rows df), (columns df); intuition congruence. Qed.

Lemma keep_query cols : QUERY_NAME ∈ cols → QUERY_NAME ∈ keep cols.
Proof.
  intros Hq. apply list_elem_of_filter. split; [apply query_not_scratch|done].
Qed.

Lemma filter_none {A} (P : A → Prop) `{!∀ x, Decision (P x)} (l : list A) :
  (∀ x, x ∈ l → ¬ P x) → filter P l = [].
Proof.
  induction l as [|x l IH]; [done|]. intros Hl.
  rewrite filter_cons, decide_False by (apply Hl; by left).
  apply IH. intros y Hy. apply Hl. by right.
Qed.

Lemma keep_absorb c1 X :
  (∀ x, x ∈ X → x ∈ c1) →
  keep (keep c1 ++ filter (λ c, c ∉ keep c1) X) = keep c1.
Proof.
  intros HX. unfold keep at 1. rewrite list.filter_app.
  rewrite (filter_none _ (filter _ X)).
  - rewrite app_nil_r. unfold keep. by apply list_filter_filter_l.
  - intros x [Hx1 Hx2]%list_elem_of_filter Hx3. apply Hx1.
    apply list_elem_of_filter. split; [done|by apply HX].
Qed.

Lemma scored_agree_keep c1 X :
  (∀ x, x ∈ X → x ∈ c1) →
  scored_agree c1 (keep c1 ++ filter (λ c, c ∉ keep c1) X).
Proof.
  intros HX c Hc. rewrite elem_of_app. unfold keep.
  rewrite !list_elem_of_filter. pose proof (scored_not_scratch c Hc).
  split; [tauto|]. intros [[_ ?]|[_ ?]]; auto.
Qed.

Lemma merge_cache_idem df_cached df_new :
  has_query df_cached → has_query df_new →
  merge_cache (merge_cache df_cached df_new) df_new = merge_cache df_cached df_new.
Proof.
  intros Hqa Hqb.
  (* the rows that are concatenated: [a ++ b], with the columns [c1] *)
  assert (Hcase :
    (is_empty (all_records df_cached df_new) = true) ∨
    (is_empty (all_records df_cached df_new) = false ∧
     QUERY_NAME ∈ columns (all_records df_cached df_new) ∧
     ∃ a b X, rows (all_records df_cached df_new) = a ++ b ∧
       (∀ x, x ∈ X → x ∈ columns (all_records df_cached df_new)) ∧
       ∀ M, is_empty M = false →
            columns M = keep (columns (all_records df_cached df_new)) →
            rows (all_records M df_new) = rows M ++ b ∧
            columns (all_records M df_new) = columns M ++ filter (λ c, c ∉ columns M) X)).
  { unfold all_records.
    destruct (is_empty df_cached) eqn:Ea; [|destruct (is_empty df_new) eqn:Eb].
    - destruct (is_empty df_new) eqn:Eb; [by left|right].
      destruct Hqb as [?|Hqb]; [congruence|].
      split; [done|]. split; [done|].
      exists [], (rows df_new), (columns df_new). split; [done|]. split; [done|].
      intros M HM HcM. rewrite HM. done.
    - right. destruct Hqa as [?|Hqa]; [congruence|].
      split; [done|]. split; [done|].
      exists (rows df_cached), [], []. split; [by rewrite app_nil_r|].
      split; [by intros x ?%elem_of_nil|].
      intros M HM HcM. rewrite HM. by rewrite !app_nil_r.
    - right. destruct Hqa as [?|Hqa]; [congruence|].
      assert (is_empty (concat df_cached df_new) = false) as Hne.
      { apply is_empty_false in Ea as [? ?]. apply is_empty_false.
        unfold concat; simpl. split; by destruct (rows df_cached), (columns df_cached). }
      split; [done|]. split; [by apply elem_of_app; left|].
      exists (rows df_cached), (rows df_new), (columns df_new). split; [done|].
      split.
      { intros x Hx. simpl. apply elem_of_app.
        destruct (decide (x ∈ columns df_cached)); [by left|right].
        by apply list_elem_of_filter. }
      intros M HM HcM. rewrite HM. done. }
  destruct Hcase as [He|(He & Hq & a & b & X & Hrows & HX & Hnext)].
  - (* nothing to merge: the call returns the empty concatenation *)
    assert (merge_cache df_cached df_new = all_records df_cached df_new) as ->.
    { unfold merge_cache. cbv zeta. by rewrite He. }
    assert (all_records df_cached df_new = df_new) as Hall.
    { unfold all_records in *. destruct (is_empty df_cached) eqn:Ea; [done|].
      destruct (is_empty df_new) eqn:Eb; [congruence|].
      apply is_empty_false in Ea as [? ?]. unfold is_empty, concat in He. simpl in He.
      by destruct (rows df_cached), (columns df_cached). }
    rewrite Hall in *. unfold merge_cache, all_records. rewrite He. cbv zeta.
    by rewrite He.
  - rewrite (merge_cache_main df_cached df_new He Hq).
    set (c1 := columns (all_records df_cached df_new)) in *.
    set (M := Frame (keep c1) (sel c1 (rows (all_records df_cached df_new)))).
    assert (HM : is_empty M = false).
    { apply is_empty_false. split; simpl.
      - apply sel_nonempty. by apply is_empty_false in He as [? _].
      - intros Hnil. pose proof (keep_query c1 Hq) as Hin.
        rewrite Hnil in Hin. by apply elem_of_nil in Hin. }
    destruct (Hnext M HM eq_refl) as [Hr2 Hc2].
    assert (He2 : is_empty (all_records M df_new) = false).
    { apply is_empty_false. rewrite Hr2, Hc2. simpl.
      apply is_empty_false in HM as [? ?]. simpl in *.
      split; [by destruct (sel c1 _)|by destruct (keep c1)]. }
    assert (Hq2 : QUERY_NAME ∈ columns (all_records M df_new)).
    { rewrite Hc2. apply elem_of_app. left. by apply keep_query. }
    rewrite (merge_cache_main M df_new He2 Hq2), Hr2, Hc2. simpl.
    rewrite (keep_absorb c1 X HX). f_equal.
    rewrite Hrows. apply sel_absorb. by apply scored_agree_keep.
Qed.

(** What [merge_cache] keeps: per normalized query the row with the highest
    score, and of the rows with that score the last one. *)
Lemma merge_cache_keeps df_cached df_new r :
  is_empty (all_records df_cached df_new) = false →
  QUERY_NAME ∈ columns (all_records df_cached df_new) →
  r ∈ rows (merge_cache df_cached df_new) →
  let cols := columns (all_records df_cached df_new) in
  let prepared := strip_query <$> rows (all_records df_cached df_new) in
  ∃ i r0, prepared !! i = Some r0 ∧ r = del MERGE_SCRATCH r0 ∧
    ∀ j r1, prepared !! j = Some r1 → qkey r1 = qkey r0 →
      (_score_row cols r1 < _score_row cols r0)%Z ∨
      (_score_row cols r0 = _score_row cols r1 ∧ (j ≤ i)%nat).
Proof.
  intros He Hq Hr. cbv zeta. rewrite (merge_cache_main _ _ He Hq) in Hr. simpl in Hr.
  apply elem_of_sel in Hr as (i & r0 & Hi & -> & Hbest).
  exists i, r0. split; [done|]. split; [done|]. intros j r1 Hj Hk.
  eapply (best_entries_wins _ (Entry (qkey r1) (_score_row _ r1) j r1)) in Hbest;
    [exact Hbest| |done].
  apply elem_of_annotate. by exists j, r1.
Qed.


Lemma best_per_cid_keeps df_ok r :
  is_empty df_ok = false →
  r ∈ rows (best_per_cid df_ok) →
  ∃ i r0, rows df_ok !! i = Some r0 ∧ r = del CID_SCRATCH r0 ∧
    ∀ j r1, rows df_ok !! j = Some r1 → cid_key r1 = cid_key r0 →
      (_score_row (columns df_ok) r1 < _score_row (columns df_ok) r0)%Z ∨
      (_score_row (columns df_ok) r0 = _score_row (columns df_ok) r1 ∧ (j ≤ i)%nat).
Proof.
  intros He Hr. unfold best_per_cid in Hr. rewrite He in Hr. simpl in Hr.
  apply list_elem_of_fmap in Hr as (r0 & -> & (e & -> & Hbest)%list_elem_of_fmap).
  pose proof (elem_of_best_entries _ _ Hbest) as (i & r0 & Hi & ->)%elem_of_annotate.
  exists i, r0. split; [done|]. split; [done|]. intros j r1 Hj Hk.
  eapply (best_entries_wins _ (Entry (cid_key r1) (_score_row _ r1) j r1)) in Hbest;
    [exact Hbest| |done].
  apply elem_of_annotate. by exists j, r1.
Qed.

End Cache.
End CacheFacts.

(** ** Resolving identifiers against the table *)

Module CompoundDbFacts.
Import PyStr Notions Pandas PandasFacts Frame compound_db.

Lemma index_of_Some {K} `{EqDecision K} (k : K) l i :
  index_of k l = Some i → l !! i = Some k.
Proof.
  revert i. induction l as [|x l IH]; intros i; simpl; [done|].
  case_decide as E; [by intros [= <-]; subst|].
  destruct (index_of k l) as [j|]; [|done]. intros [= <-]. by apply IH.
Qed.

Lemma index_of_elem {K} `{EqDecision K} (k : K) l :
  k ∈ l → is_Some (index_of k l).
Proof.
  induction l as [|x l IH]; [by intros ?%elem_of_nil|]. simpl.
  case_decide; [eauto|]. intros [?|Hk]%elem_of_cons; [congruence|].
  destruct (IH Hk) as [j ->]. eauto.
Qed.

Lemma index_le_antisym wanted a b : index_le wanted a b → index_le wanted b a → a = b.
Proof.
  intros (i & j & Hi & Hj & ?) (j' & i' & Hj' & Hi' & ?).
  assert (i = j) as -> by (simplify_eq; lia).
  apply index_of_Some in Hi, Hj. congruence.
Qed.

Lemma index_le_self_sorted wanted :
  NoDup wanted → StronglySorted (index_le wanted) wanted.
Proof.
  induction 1 as [|x l Hx Hl IH]; constructor.
  - eapply CacheFacts.StronglySorted_impl_elem; [|exact IH].
    intros a b Ha Hb (i & j & Hi & Hj & ?). exists (S i), (S j). simpl.
    rewrite !decide_False by (intros ->; done). rewrite Hi, Hj. split_and!; [done..|lia].
  - rewrite list.Forall_forall. intros b Hb. destruct (index_of_elem b l Hb) as [j Hj].
    exists O, (S j). simpl. rewrite decide_True by done.
    rewrite decide_False by (intros ->; done). rewrite Hj. split_and!; [done..|lia].
Qed.

Lemma StronglySorted_filter {A} (R : relation A) (P : A → Prop)
    `{!∀ x, Decision (P x)} l :
  StronglySorted R l → StronglySorted R (filter P l).
Proof.
  induction 1 as [|x l Hl IH Hx]; [constructor|].
  rewrite filter_cons. case_decide; [|done]. constructor; [done|].
  rewrite list.Forall_forall in Hx |- *. intros y [_ Hy]%list_elem_of_filter. auto.
Qed.

Lemma order_leb_total wanted a b :
  order_leb wanted a b = true ∨ order_leb wanted b a = true.
Proof.
  unfold order_leb. destruct (index_of (CID a) wanted), (index_of (CID b) wanted);
    auto. rewrite !Nat.leb_le. lia.
Qed.

Lemma order_leb_trans wanted a b c :
  order_leb wanted a b = true → order_leb wanted b c = true →
  order_leb wanted a c = true.
Proof.
  unfold order_leb.
  destruct (index_of (CID a) wanted), (index_of (CID b) wanted),
    (index_of (CID c) wanted); try done.
  rewrite !Nat.leb_le. lia.
Qed.

Lemma isin_nil df : isin [] df = [].
Proof.
  unfold isin. apply CacheFacts.filter_none. intros r _ Hr. by apply elem_of_nil in Hr.
Qed.

Section Db.
Context `{Lower}.
Variable molar_mass : pystr → Qc.
Variable fetch_by_cid : pystr → result (option fetched).

(** Offline resolution of a request without repeated identifiers. *)
Lemma get_compounds_by_cids_offline df loop cids update_cache :
  NoDup (wanted_of cids) →
  ∃ out,
    get_compounds_by_cids molar_mass (Ok df) fetch_by_cid loop cids false update_cache
      = (Ok out, no_effects) ∧
    rows out ≡ₚ isin (wanted_of cids) df ∧
    StronglySorted (λ a b, index_le (wanted_of cids) (CID a) (CID b)) (rows out).
Proof.
  intros Hnd. unfold get_compounds_by_cids. cbn [andb].
  destruct (wanted_of cids) as [|w ws] eqn:Ew.
  { exists paths.empty_db_df. split; [done|]. rewrite isin_nil. split; [done|constructor]. }
  rewrite <- Ew in *. clear Ew w ws.
  destruct (empty df) eqn:Ee.
  { exists paths.empty_db_df. split; [done|]. unfold empty in Ee. unfold isin.
    destruct (rows df); [|done]. split; [done|constructor]. }
  destruct (isin (wanted_of cids) df) as [|h hs] eqn:Eh.
  { exists paths.empty_db_df. split; [done|]. split; [done|constructor]. }
  rewrite <- Eh. unfold in_requested_order. rewrite bool_decide_eq_true_2 by done.
  eexists. split; [reflexivity|]. simpl. split; [apply sort_stable_perm|].
  eapply CacheFacts.StronglySorted_impl_elem;
    [|apply sort_stable_sorted; [apply order_leb_total|apply order_leb_trans]].
  intros a b Ha%elem_of_sort_stable Hb%elem_of_sort_stable Hab. simpl in Hab.
  apply list_elem_of_filter in Ha as [Ha _], Hb as [Hb _].
  destruct (index_of_elem _ _ Ha) as [i Hi], (index_of_elem _ _ Hb) as [j Hj].
  unfold order_leb in Hab. rewrite Hi, Hj in Hab. apply Nat.leb_le in Hab.
  by exists i, j.
Qed.

(** With identifiers that are unique in the table, the identifiers of the
    result are the requested ones that the table has, in the requested order. *)
Lemma get_compounds_by_cids_exact df loop cids update_cache :
  NoDup (wanted_of cids) → NoDup (CID <$> rows df) →
  ∃ out,
    get_compounds_by_cids molar_mass (Ok df) fetch_by_cid loop cids false update_cache
      = (Ok out, no_effects) ∧
    CID <$> rows out = filter (λ w, w ∈ CID <$> rows df) (wanted_of cids).
Proof.
  intros Hnd Htab.
  destruct (get_compounds_by_cids_offline df loop cids update_cache Hnd)
    as (out & Hout & Hperm & Hsort).
  exists out. split; [done|].
  apply (StronglySorted_unique_strong (index_le (wanted_of cids))).
  - intros ????. apply index_le_antisym.
  - by apply (StronglySorted_fmap CID _ (index_le (wanted_of cids))) in Hsort.
  - by apply StronglySorted_filter, index_le_self_sorted.
  - apply NoDup_Permutation.
    + rewrite Hperm. unfold isin.
      clear -Htab. induction (rows df) as [|r rs IH]; [constructor|].
      csimpl in Htab. apply NoDup_cons in Htab as [Hr Hrs].
      rewrite filter_cons. case_decide; [|by apply IH].
      csimpl. constructor; [|by apply IH].
      intros (r' & E & [_ Hr']%list_elem_of_filter)%list_elem_of_fmap.
      apply Hr. rewrite E. by apply list_elem_of_fmap_2.
    + by apply NoDup_filter.
    + intros c. rewrite Hperm. unfold isin.
      rewrite list_elem_of_fmap, list_elem_of_filter. split.
      * intros (r & -> & [Hw Hr]%list_elem_of_filter).
        split; [by apply list_elem_of_fmap_2|done].
      * intros [(r & -> & Hr)%list_elem_of_fmap Hw].
        exists r. split; [done|]. by apply list_elem_of_filter.
Qed.

(** A request that repeats an identifier raises as soon as a row matches. *)
Lemma get_compounds_by_cids_repeated df loop cids update_cache :
  ¬ NoDup (wanted_of cids) → isin (wanted_of cids) df ≠ [] →
  get_compounds_by_cids molar_mass (Ok df) fetch_by_cid loop cids false update_cache
    = (Raise ValueError, no_effects).
Proof.
  intros Hdup Hhit. unfold get_compounds_by_cids. cbn [andb].
  destruct (wanted_of cids) as [|w ws] eqn:Ew; [by rewrite isin_nil in Hhit|].
  rewrite <- Ew in *. clear Ew w ws.
  destruct (empty df) eqn:Ee.
  { unfold empty in Ee. unfold isin in Hhit. by destruct (rows df). }
  destruct (isin (wanted_of cids) df) as [|h hs] eqn:Eh; [done|].
  unfold in_requested_order. by rewrite bool_decide_eq_false_2.
Qed.

End Db.
End CompoundDbFacts.

(** ** Diagnostics of an unsolvable system *)

Module OptimizerFacts.
Import PyStr Notions PyStrFacts Frame compound_db medium_optimizer.

Lemma int_of_digits_nonneg s : (0 ≤ int_of_digits s)%Z.
Proof.
  unfold int_of_digits.
  assert (Hgen : ∀ acc, (0 ≤ acc)%Z →
            (0 ≤ fold_left (λ acc c, 10 * acc + default 0 (digit_value c)) s acc)%Z).
  { induction s as [|c s IH]; intros acc Hacc; simpl; [done|]. apply IH.
    unfold digit_value. destruct (find _ _); simpl; lia. }
  by apply Hgen.
Qed.

Lemma count_step_nonneg counts tok :
  map_Forall (λ _ v, (0 ≤ v)%Z) counts →
  map_Forall (λ _ v, (0 ≤ v)%Z) (utils.count_step counts tok).
Proof.
  intros Hc. destruct tok as [e n]. unfold utils.count_step.
  case_bool_decide; [|done]. apply map_Forall_insert_2; [|done].
  destruct n; [lia|apply int_of_digits_nonneg].
Qed.

Lemma elemental_counts_nonneg f els e :
  (0 ≤ count_of (utils.elemental_counts f els) e)%Z.
Proof.
  unfold count_of, utils.elemental_counts.
  assert (Hinit : map_Forall (λ _ v, (0 ≤ v)%Z)
                    (list_to_map ((λ e, (e, 0%Z)) <$> els) : gmap pystr Z)).
  { intros k v Hk. apply elem_of_list_to_map_2 in Hk.
    apply list_elem_of_fmap in Hk as (? & [= _ ->] & _). done. }
  revert Hinit. generalize (list_to_map ((λ e, (e, 0%Z)) <$> els) : gmap pystr Z).
  induction (utils.tokens f) as [|tok toks IH]; intros m Hm; simpl.
  - destruct (m !! e) as [v|] eqn:E; simpl; [by apply (Hm e v)|done].
  - apply IH. by apply count_step_nonneg.
Qed.










Section Optimizer.
Variable molar_mass : pystr → Qc.
Variable compound_repository : list cid_arg → result frame.
Variable solve_linear_program : list (list Z) → list Qc → nat → LpSolution.




End Optimizer.
End OptimizerFacts.

(** ** Counting atoms *)

Module CountFacts.
Import PyStr Notions utils.

Lemma count_step_lookup counts tok e :
  count_step counts tok !! e =
  match counts !! e with
  | Some v => Some (if bool_decide (fst tok = e) then token_count (snd tok) else v)
  | None => None
  end.
Proof.
  destruct tok as [s n]. unfold count_step. simpl.
  case_bool_decide as Hin.
  - destruct (decide (s = e)) as [->|Hne].
    + rewrite lookup_insert_eq. destruct Hin as [v ->].
      by rewrite bool_decide_eq_true_2.
    + rewrite lookup_insert_ne by done.
      rewrite bool_decide_eq_false_2 by done. by destruct (counts !! e).
  - destruct (decide (s = e)) as [->|Hne].
    + destruct (counts !! e) eqn:E; [|done]. destruct Hin. eauto.
    + rewrite bool_decide_eq_false_2 by done. by destruct (counts !! e).
Qed.

Lemma fold_count_step_lookup toks counts e :
  fold_left count_step toks counts !! e =
  (λ v, last_count v toks e) <$> counts !! e.
Proof.
  revert counts. induction toks as [|tok toks IH]; intros counts; simpl.
  - by destruct (counts !! e).
  - rewrite IH, count_step_lookup. by destruct (counts !! e).
Qed.

(** What [elemental_counts] returns: for a requested element the count of
    its last token (0 when it has none), and no entry for any other symbol. *)
Lemma elemental_counts_lookup formula elements e :
  elemental_counts formula elements !! e =
  if bool_decide (e ∈ elements) then Some (last_count 0 (tokens formula) e) else None.
Proof.
  unfold elemental_counts. cbv zeta. rewrite fold_count_step_lookup.
  case_bool_decide as Hin.
  - assert ((list_to_map ((λ e, (e, 0%Z)) <$> elements) : gmap pystr Z) !! e = Some 0%Z)
      as ->; [|done].
    induction elements as [|x xs IH]; [by apply elem_of_nil in Hin|].
    csimpl. destruct (decide (x = e)) as [->|Hne].
    + apply lookup_insert_eq.
    + rewrite lookup_insert_ne by done. apply IH.
      apply elem_of_cons in Hin as [?|?]; [congruence|done].
  - assert ((list_to_map ((λ e, (e, 0%Z)) <$> elements) : gmap pystr Z) !! e = None)
      as ->; [|done].
    apply not_elem_of_list_to_map_1. rewrite <- list_fmap_compose.
    intros (x & E & Hx)%list_elem_of_fmap. simpl in E. by subst.
Qed.

End CountFacts.

(** * The claims of the specification *)

Import PyStr Notions.

(** C1 (code defect).  [elemental_counts] does not add up the occurrences of
    a symbol: each token overwrites the count of its symbol.  For acetic acid
    written CH3COOH the function returns 1 for C, H and O, where the formula
    has 2, 4 and 2 atoms of them. *)
Theorem C1_elemental_counts_overwrites :
  let counts := utils.elemental_counts (py "CH3COOH") [py "C"; py "H"; py "O"] in
  counts !! py "C" = Some 1%Z ∧ atoms_in_formula (py "CH3COOH") (py "C") = 2%Z ∧
  counts !! py "H" = Some 1%Z ∧ atoms_in_formula (py "CH3COOH") (py "H") = 4%Z ∧
  counts !! py "O" = Some 1%Z ∧ atoms_in_formula (py "CH3COOH") (py "O") = 2%Z.
Proof. cbv zeta. repeat split; by vm_compute. Qed.






Import Records pubchem_cache.

Ltac by_compute :=
  match goal with
  | |- ?P => apply (bool_decide_eq_true_1 P); vm_compute; reflexivity
  end.




(** C3 (amended).  In the merge of the attempt cache by normalized query and
    in [best_per_cid], the record kept for a key has the highest score of the
    key, and when records of the key tie on that score the one that appears
    latest in the concatenated input is kept. *)
Theorem C3_ties_keep_latest (L : Lower) :
  (∀ df_cached df_new r,
     is_empty (all_records df_cached df_new) = false →
     QUERY_NAME ∈ columns (all_records df_cached df_new) →
     r ∈ rows (merge_cache df_cached df_new) →
     let cols := columns (all_records df_cached df_new) in
     let prepared := strip_query <$> rows (all_records df_cached df_new) in
     ∃ i r0, prepared !! i = Some r0 ∧ r = del MERGE_SCRATCH r0 ∧
       ∀ j r1, prepared !! j = Some r1 → qkey r1 = qkey r0 →
         (_score_row cols r1 ≤ _score_row cols r0)%Z ∧
         (_score_row cols r1 = _score_row cols r0 → (j ≤ i)%nat)) ∧
  (∀ df_ok r,
     is_empty df_ok = false →
     r ∈ rows (best_per_cid df_ok) →
     ∃ i r0, rows df_ok !! i = Some r0 ∧ r = del CID_SCRATCH r0 ∧
       ∀ j r1, rows df_ok !! j = Some r1 → cid_key r1 = cid_key r0 →
         (_score_row (columns df_ok) r1 ≤ _score_row (columns df_ok) r0)%Z ∧
         (_score_row (columns df_ok) r1 = _score_row (columns df_ok) r0 → (j ≤ i)%nat)).
Proof.
  split.
  - intros df_cached df_new r He Hq Hr. cbv zeta.
    destruct (CacheFacts.merge_cache_keeps df_cached df_new r He Hq Hr)
      as (i & r0 & Hi & -> & Hwin).
    exists i, r0. split; [done|]. split; [done|].
    intros j r1 Hj Hk. destruct (Hwin j r1 Hj Hk); split; lia.
  - intros df_ok r He Hr.
    destruct (CacheFacts.best_per_cid_keeps df_ok r He Hr) as (i & r0 & Hi & -> & Hwin).
    exists i, r0. split; [done|]. split; [done|].
    intros j r1 Hj Hk. destruct (Hwin j r1 Hj Hk); split; lia.
Qed.

Lemma C3_ties_keep_latest_witness :
  ∃ i r0,
    [Examples.glucose_ok; Examples.dextrose_ok] !! i = Some r0 ∧
    Examples.dextrose_ok = del CID_SCRATCH r0 ∧
    ∀ j r1, [Examples.glucose_ok; Examples.dextrose_ok] !! j = Some r1 →
      cid_key r1 = cid_key r0 →
      (@_score_row ascii_lower Examples.CALL_COLUMNS r1
       ≤ @_score_row ascii_lower Examples.CALL_COLUMNS r0)%Z ∧
      (@_score_row ascii_lower Examples.CALL_COLUMNS r1
       = @_score_row ascii_lower Examples.CALL_COLUMNS r0 → (j ≤ i)%nat).
Proof.
  destruct (C3_ties_keep_latest ascii_lower) as (_ & Hbest).
  apply (Hbest (Frame Examples.CALL_COLUMNS [Examples.glucose_ok; Examples.dextrose_ok])
               Examples.dextrose_ok).
  - reflexivity.
  - by_compute.
Defined.

(** C3, as stated, fails: two answers to one query tie on the score, and
    both dedups keep the later one. *)
Lemma C3_counterexample :
  @_score_row ascii_lower Examples.CALL_COLUMNS Examples.glucose_ok
    = @_score_row ascii_lower Examples.CALL_COLUMNS Examples.dextrose_ok ∧
  @qkey ascii_lower (strip_query Examples.glucose_ok)
    = @qkey ascii_lower (strip_query Examples.dextrose_ok) ∧
  rows (@merge_cache ascii_lower
          (Frame Examples.CALL_COLUMNS [Examples.glucose_ok])
          (Frame Examples.CALL_COLUMNS [Examples.dextrose_ok]))
    = [Examples.dextrose_ok] ∧
  rows (@best_per_cid ascii_lower
          (Frame Examples.CALL_COLUMNS [Examples.glucose_ok; Examples.dextrose_ok]))
    = [Examples.dextrose_ok] ∧
  Examples.glucose_ok ≠ Examples.dextrose_ok.
Proof.
  split; [by vm_compute|]. split; [by vm_compute|].
  split; [by_compute|].
  split; [by_compute|].
  by_compute.
Qed.

(** C4.  Merging the same new outcomes a second time changes nothing:
    for frames of outcomes (each empty or with its query column),
    merge(merge(A, B), B) = merge(A, B). *)
Theorem C4_merge_cache_idempotent (L : Lower) (df_cached df_new : frame) :
  has_query df_cached → has_query df_new →
  merge_cache (merge_cache df_cached df_new) df_new = merge_cache df_cached df_new.
Proof. apply CacheFacts.merge_cache_idem. Qed.

Lemma C4_merge_cache_idempotent_witness :
  @merge_cache ascii_lower
    (@merge_cache ascii_lower
       (Frame Examples.CALL_COLUMNS [Examples.glucose_ok; Examples.glucose_failed])
       (Frame Examples.CALL_COLUMNS [Examples.dextrose_ok]))
    (Frame Examples.CALL_COLUMNS [Examples.dextrose_ok])
  = @merge_cache ascii_lower
      (Frame Examples.CALL_COLUMNS [Examples.glucose_ok; Examples.glucose_failed])
      (Frame Examples.CALL_COLUMNS [Examples.dextrose_ok]).
Proof.
  apply (C4_merge_cache_idempotent ascii_lower).
  - right. by_compute.
  - right. by_compute.
Defined.

Import Frame compound_db medium_optimizer.

(** C6.  On a table whose first row lacks only the anhydrous molar mass and
    whose second row, a hexahydrate, lacks both anhydrous cells,
    [ensure_db_schema] writes the split base of the FIRST row into the
    anhydrous formula of the second: the bases are collected over the rows
    that need anything and assigned, cut to length, to the rows that need a
    formula.  The hydrate split of the second row's own formula is another
    base. *)
Theorem C6_ensure_db_schema_misaligned (molar_mass : pystr → Qc) :
  FormulaAnh <$> Frame.rows (paths.ensure_db_schema molar_mass Examples.legacy_table)
    = [SStr (py "NaCl"); SStr (py "NaCl")] ∧
  (Formula <$> Frame.rows Examples.legacy_table) !! 1%nat = Some (SStr (py "CoCl2•6H2O")) ∧
  utils.split_hydrate_formula (py "CoCl2•6H2O") = (py "CoCl2", 6%Z).
Proof. repeat split; vm_compute; reflexivity. Qed.

(** C7.  Asking twice for an identifier the table has makes the offline
    resolution raise: the requested list is used, duplicates included, as the
    categories of the ordering, which pandas refuses with a ValueError. *)
Theorem C7_repeated_identifier_raises :
  @get_compounds_by_cids ascii_lower Examples.sample_molar_mass
     (Ok Examples.glucose_table) Examples.no_client false
     [CidStr (py "5793"); CidStr (py "5793")] false true
  = (Raise ValueError, no_effects).
Proof. vm_compute. reflexivity. Qed.



(** C10.  When the normalized request holds an identifier more than once and
    some requested identifier is in the table, the offline resolution raises
    (the ValueError of the ordered categorical) and returns no table. *)
Theorem C10_repeated_request_raises (L : Lower)
    (molar_mass : pystr → Qc) (fetch_by_cid : pystr → result (option fetched))
    (df : frame) (loop : bool) (cids : list cid_arg) (update_cache : bool) :
  ¬ NoDup (wanted_of cids) →
  isin (wanted_of cids) df ≠ [] →
  get_compounds_by_cids molar_mass (Ok df) fetch_by_cid loop cids false update_cache
    = (Raise ValueError, no_effects).
Proof. apply CompoundDbFacts.get_compounds_by_cids_repeated. Qed.

Lemma C10_repeated_request_raises_witness :
  @get_compounds_by_cids ascii_lower Examples.sample_molar_mass
     (Ok Examples.glucose_table) Examples.no_client false
     [CidInt 5793; CidStr (py " 5793.0 ")] false true
  = (Raise ValueError, no_effects).
Proof.
  apply (C10_repeated_request_raises ascii_lower).
  - by_compute.
  - vm_compute. discriminate.
Defined.

(** * Further properties of the code *)

Ltac forall_compute :=
  vm_compute;
  repeat (constructor;
          [first [reflexivity | discriminate | split; discriminate | lia]|]);
  try constructor.

(** ** Strings *)

Module StripFacts.
Import PyStr.

Lemma Forall_lstrip (P : N → Prop) s : Forall P s → Forall P (lstrip s).
Proof.
  induction 1 as [|c s Hc Hs IH]; simpl; [constructor|].
  destruct (is_space c); [exact IH|by constructor].
Qed.

Lemma Forall_strip (P : N → Prop) s : Forall P s → Forall P (strip s).
Proof.
  intros Hs. unfold strip, rstrip.
  apply Forall_rev, Forall_lstrip, Forall_rev, Forall_lstrip, Hs.
Qed.

Lemma lstrip_suffix s : ∃ ws, s = ws ++ lstrip s ∧ Forall (λ c, is_space c = true) ws.
Proof.
  induction s as [|c s (ws & Hs & Hws)]; simpl.
  - exists []. by split.
  - destruct (is_space c) eqn:Hc.
    + exists (c :: ws). split; [by rewrite Hs at 1|by constructor].
    + exists []. by split.
Qed.

(** A string is its stripped core between two runs of whitespace. *)
Lemma strip_decompose s :
  ∃ l r, s = l ++ strip s ++ r ∧
         Forall (λ c, is_space c = true) l ∧ Forall (λ c, is_space c = true) r.
Proof.
  destruct (lstrip_suffix s) as (l & Hl & Hwl).
  destruct (lstrip_suffix (rev (lstrip s))) as (r & Hr & Hwr).
  exists l, (rev r). split; [|split; [done|by apply Forall_rev]].
  unfold strip, rstrip. rewrite <- rev_app_distr, <- Hr, rev_involutive. exact Hl.
Qed.

End StripFacts.

(** ** utils.py: counting atoms *)

Module CountMore.
Import PyStr Notions.

Lemma last_count_absent v (toks : list (pystr * pystr)) (e : pystr) : e ∉ (fst <$> toks) → last_count v toks e = v.
Proof.
  revert v. induction toks as [|tok toks IH]; intros v Hne; [done|].
  unfold last_count in *. simpl. rewrite IH.
  - rewrite bool_decide_eq_false_2; [done|]. intros E. apply Hne. rewrite <- E. left.
  - intros Hin. apply Hne. by right.
Qed.

Lemma atoms_absent (toks : list (pystr * pystr)) (e : pystr) :
  e ∉ (fst <$> toks) →
  foldr (λ tok acc, if bool_decide (fst tok = e) then (token_count (snd tok) + acc)%Z
                    else acc) 0%Z toks = 0%Z.
Proof.
  induction toks as [|tok toks IH]; intros Hne; [done|]. simpl.
  rewrite IH by (intros Hin; apply Hne; by right).
  rewrite bool_decide_eq_false_2; [done|]. intros E. apply Hne. rewrite <- E. left.
Qed.

Lemma last_count_single v (toks : list (pystr * pystr)) (e : pystr) :
  NoDup (fst <$> toks) → e ∈ (fst <$> toks) →
  last_count v toks e =
  foldr (λ tok acc, if bool_decide (fst tok = e) then (token_count (snd tok) + acc)%Z
                    else acc) 0%Z toks.
Proof.
  revert v. induction toks as [|tok toks IH]; intros v Hnd Hin.
  - by apply elem_of_nil in Hin.
  - apply NoDup_cons in Hnd as [Hfresh Hnd]. simpl.
    change (last_count v (tok :: toks) e)
      with (last_count (if bool_decide (fst tok = e) then token_count (snd tok) else v)
                       toks e).
    destruct (decide (fst tok = e)) as [E|E].
    + rewrite !bool_decide_eq_true_2 by done.
      rewrite last_count_absent, atoms_absent by (by rewrite <- E). lia.
    + rewrite !bool_decide_eq_false_2 by done. apply IH; [done|].
      apply elem_of_cons in Hin as [Hin|Hin]; [by destruct E|done].
Qed.

End CountMore.

Import PyStr Notions.

(** X1.  What [elemental_counts] returns: an entry for exactly the requested
    elements, and for each of them the count written by the last token of the
    formula that names it (0 when no token does). *)
Theorem elemental_counts_last_token (molecular_formula : pystr) (elements : list pystr)
    (element : pystr) :
  utils.elemental_counts molecular_formula elements !! element =
  if bool_decide (element ∈ elements)
  then Some (last_count 0 (utils.tokens molecular_formula) element)
  else None.
Proof. apply CountFacts.elemental_counts_lookup. Qed.

(** X2.  On a formula that names no element twice, [elemental_counts] gives
    every requested element its number of atoms in the formula. *)
Theorem elemental_counts_single_occurrence (molecular_formula : pystr)
    (elements : list pystr) (element : pystr) :
  NoDup (fst <$> utils.tokens molecular_formula) →
  element ∈ elements →
  utils.elemental_counts molecular_formula elements !! element
  = Some (atoms_in_formula molecular_formula element).
Proof.
  intros Hnd Hin. rewrite CountFacts.elemental_counts_lookup.
  rewrite bool_decide_eq_true_2 by done. f_equal. unfold atoms_in_formula.
  destruct (decide (element ∈ fst <$> utils.tokens molecular_formula)) as [Ho|Ho].
  - by apply CountMore.last_count_single.
  - by rewrite CountMore.last_count_absent, CountMore.atoms_absent.
Qed.

Lemma elemental_counts_single_occurrence_witness :
  utils.elemental_counts (py "C6H12O6") [py "C"; py "H"; py "Co"] !! py "H"
  = Some (atoms_in_formula (py "C6H12O6") (py "H")).
Proof.
  apply elemental_counts_single_occurrence.
  - by_compute.
  - by_compute.
Defined.

(** X3.  No count is negative, and a requested element that the formula does
    not name is counted 0. *)
Theorem elemental_counts_absent_zero (molecular_formula : pystr)
    (elements : list pystr) :
  map_Forall (λ _ n, (0 ≤ n)%Z) (utils.elemental_counts molecular_formula elements) ∧
  ∀ element, element ∈ elements →
             element ∉ (fst <$> utils.tokens molecular_formula) →
             utils.elemental_counts molecular_formula elements !! element = Some 0%Z.
Proof.
  split.
  - intros e n He.
    pose proof (OptimizerFacts.elemental_counts_nonneg molecular_formula elements e) as Hn.
    unfold medium_optimizer.count_of in Hn. by rewrite He in Hn.
  - intros e Hin Hno. rewrite CountFacts.elemental_counts_lookup.
    rewrite bool_decide_eq_true_2 by done. by rewrite CountMore.last_count_absent.
Qed.

Lemma elemental_counts_absent_zero_witness :
  utils.elemental_counts (py "C6H12O6") [py "C"; py "Co"] !! py "Co" = Some 0%Z.
Proof.
  apply (elemental_counts_absent_zero (py "C6H12O6") [py "C"; py "Co"]).
  - by_compute.
  - by_compute.
Defined.

(** ** utils.py and step_04_build_parquet.py: hydrate notation *)

Module SplitMore.
Import PyStr Notions Re utils.

Lemma first_water_count_nonneg parts : (0 ≤ first_water_count parts)%Z.
Proof.
  induction parts as [|part more IH]; simpl; [lia|].
  destruct (search water_re _) as [m|]; [|exact IH].
  destruct (group m 1); [apply OptimizerFacts.int_of_digits_nonneg|lia].
Qed.

Lemma stripped_nil : stripped [].
Proof. by split. Qed.

Lemma head_fmap_space (f : N → N) s :
  (∀ c, is_space c = false → is_space (f c) = false) →
  from_option is_space false (head s) = false →
  from_option is_space false (head (f <$> s)) = false.
Proof. intros Hf. destruct s as [|c s]; simpl; [done|apply Hf]. Qed.

Lemma fmap_rev {A B} (f : A → B) (l : list A) : f <$> rev l = rev (f <$> l).
Proof. induction l as [|x l IH]; [done|]. simpl. by rewrite fmap_app, IH. Qed.

Lemma stripped_fmap (f : N → N) s :
  (∀ c, is_space c = false → is_space (f c) = false) →
  stripped s → stripped (f <$> s).
Proof.
  intros Hf [Hh Hl]. split; [by apply head_fmap_space|].
  rewrite <- fmap_rev. by apply head_fmap_space.
Qed.

Lemma stripped_unify_markers s : stripped s → stripped (unify_markers s).
Proof.
  intros Hs. unfold unify_markers. rewrite !PyStrFacts.replace_char.
  apply stripped_fmap; [|apply stripped_fmap; [|done]];
    intros c Hc; destruct (c =? _); done.
Qed.

Lemma utils_split_shape formula :
  stripped (split_hydrate_formula formula).1 ∧ (0 ≤ (split_hydrate_formula formula).2)%Z.
Proof.
  destruct formula as [|c formula]; [by split|].
  rewrite HydrateFacts.split_hydrate_formula_nonempty by done. cbv zeta.
  pose proof (stripped_unify_markers _ (PyStrFacts.strip_stripped (c :: formula))) as Hs.
  destruct (negb _); [by split|].
  destruct (filter _ _) as [|base others] eqn:Hparts; [by split|]. simpl. split.
  - assert (base ∈ filter (λ p, p ≠ [])
              (strip <$> split BULLET (unify_markers (strip (c :: formula)))))
      as Hin by (rewrite Hparts; left).
    apply list_elem_of_filter in Hin as [_ Hin].
    apply list_elem_of_fmap in Hin as (p & -> & _). apply PyStrFacts.strip_stripped.
  - apply first_water_count_nonneg.
Qed.

Lemma step_04_split_shape formula :
  stripped (step_04_build_parquet.split_hydrate_formula formula).1 ∧
  (0 ≤ (step_04_build_parquet.split_hydrate_formula formula).2)%Z.
Proof.
  destruct formula as [|c formula]; [by split|].
  rewrite HydrateFacts.step04_split_nonempty by done. cbv zeta.
  destruct (negb _).
  { split; [apply PyStrFacts.strip_stripped|done]. }
  destruct (strip <$> split_max _ _ _) as [|left_ [|right_ [|? ?]]] eqn:Hparts;
    try (split; [apply stripped_nil|done]).
  assert (stripped left_) as Hl.
  { assert (left_ ∈ strip <$> split_max BULLET 1
                       (replace [MIDDLE_DOT] [BULLET] (c :: formula)))
      as Hin by (rewrite Hparts; left).
    apply list_elem_of_fmap in Hin as (p & -> & _). apply PyStrFacts.strip_stripped. }
  destruct (Re.search _ _); [split; [done|apply OptimizerFacts.int_of_digits_nonneg]|].
  destruct (Re.fullmatch _ _); split; done.
Qed.

End SplitMore.

(** X4.  A formula without hydrate marker is returned whole, stripped of the
    whitespace around it, with water count 0. *)
Theorem split_hydrate_formula_without_marker (formula : pystr) :
  Forall plain formula →
  utils.split_hydrate_formula formula = (strip formula, 0%Z).
Proof.
  intros Hp. destruct formula as [|c formula]; [reflexivity|].
  rewrite HydrateFacts.split_hydrate_formula_nonempty by done. cbv zeta.
  pose proof (StripFacts.Forall_strip _ _ Hp) as Hs.
  rewrite HydrateFacts.unify_markers_plain by done.
  rewrite PyStrFacts.contains_char_false; [done|].
  by apply HydrateFacts.plain_no_bullet.
Qed.

Lemma split_hydrate_formula_without_marker_witness :
  utils.split_hydrate_formula (py " C6H12O6 ") = (strip (py " C6H12O6 "), 0%Z).
Proof.
  apply split_hydrate_formula_without_marker.
  forall_compute.
Defined.

(** X5.  The copy of the function in the parquet build returns a formula
    without bullet and without middle dot whole, stripped, with water
    count 0; a full stop does not make it split. *)
Theorem step_04_split_without_bullet (formula : pystr) :
  Forall (λ c, c ≠ utils.BULLET ∧ c ≠ utils.MIDDLE_DOT) formula →
  step_04_build_parquet.split_hydrate_formula formula = (strip formula, 0%Z).
Proof.
  intros Hp. destruct formula as [|c formula]; [reflexivity|].
  rewrite HydrateFacts.step04_split_nonempty by done. cbv zeta.
  rewrite PyStrFacts.replace_char_absent
    by (eapply list.Forall_impl; [exact Hp|]; intros ? []; done).
  rewrite PyStrFacts.contains_char_false; [done|].
  eapply list.Forall_impl; [exact Hp|]. intros ? []; done.
Qed.

Lemma step_04_split_without_bullet_witness :
  step_04_build_parquet.split_hydrate_formula (py "CoCl2.6H2O")
  = (strip (py "CoCl2.6H2O"), 0%Z).
Proof.
  apply step_04_split_without_bullet.
  forall_compute.
Defined.

(** X6.  Whatever the formula, both functions return a base without
    whitespace around it and a water count that is not negative. *)
Theorem split_hydrate_formula_shape (formula : pystr) :
  stripped (utils.split_hydrate_formula formula).1 ∧
  (0 ≤ (utils.split_hydrate_formula formula).2)%Z ∧
  stripped (step_04_build_parquet.split_hydrate_formula formula).1 ∧
  (0 ≤ (step_04_build_parquet.split_hydrate_formula formula).2)%Z.
Proof.
  destruct (SplitMore.utils_split_shape formula), (SplitMore.step_04_split_shape formula).
  split; [done|]. split; [done|]. split; done.
Qed.

(** ** paths.py: the schema of the table *)

Module SchemaFacts.
Import PyStr Frame Pandas paths SchemaNotions.

Lemma length_loc_assign {A B} (upd : B → A → A) mask values rows :
  length (loc_assign upd mask values rows) = length rows.
Proof.
  revert mask values. induction rows as [|r rows IH]; intros [|[] mask] values; simpl; try done.
  - destruct values; simpl; [done|by rewrite IH].
  - by rewrite IH.
Qed.

Lemma loc_assign_proj {A B C} (p : A → C) (upd : B → A → A) mask values rows :
  (∀ v r, p (upd v r) = p r) →
  p <$> loc_assign upd mask values rows = p <$> rows.
Proof.
  intros Hp. revert mask values.
  induction rows as [|r rows IH]; intros [|[] mask] values; simpl; try done.
  - destruct values; simpl; [done|by rewrite Hp, IH].
  - by rewrite IH.
Qed.

Lemma loc_cons_true {A} mask (x : A) l : loc (true :: mask) (x :: l) = x :: loc mask l.
Proof.
  unfold loc. change (zip (true :: mask) (x :: l)) with ((true, x) :: zip mask l).
  by rewrite filter_cons_True.
Qed.

Lemma loc_cons_false {A} mask (x : A) l : loc (false :: mask) (x :: l) = loc mask l.
Proof.
  unfold loc. change (zip (false :: mask) (x :: l)) with ((false, x) :: zip mask l).
  by rewrite filter_cons_False.
Qed.

Lemma loc_assign_lookup {A B X} (upd : B → A → A) (g : X → B)
    (mask : list bool) (l : list X) (base : list A) (i : nat) (b : bool) (x : X) (r : A) :
  mask !! i = Some b → l !! i = Some x → base !! i = Some r →
  loc_assign upd mask (g <$> loc mask l) base !! i
  = Some (if b then upd (g x) r else r).
Proof.
  revert mask l base. induction i as [|i IH]; intros [|b0 mask] [|x0 l] [|r0 base];
    try done; simpl; intros Hb Hx Hr.
  - injection Hb as ->. injection Hx as ->. injection Hr as ->.
    destruct b; [by rewrite loc_cons_true|by rewrite loc_cons_false].
  - destruct b0.
    + rewrite loc_cons_true. simpl. by apply IH.
    + rewrite loc_cons_false. simpl. by apply IH.
Qed.


Lemma loc_assign_lookup_any {A B} (upd : B → A → A) mask values (base : list A) i r :
  base !! i = Some r →
  ∃ r1, loc_assign upd mask values base !! i = Some r1 ∧ (r1 = r ∨ ∃ v, r1 = upd v r).
Proof.
  revert mask values i. induction base as [|r0 base IH]; intros mask values i Hr; [done|].
  destruct mask as [|[] mask]; simpl.
  - exists r. by split; [|left].
  - destruct values as [|v values]; [exists r; by split; [|left]|].
    destruct i as [|i]; simpl in *.
    + injection Hr as ->. exists (upd v r). split; [done|]. right. by exists v.
    + by apply IH.
  - destruct i as [|i]; simpl in *.
    + injection Hr as ->. exists r. by split; [|left].
    + by apply IH.
Qed.

Lemma loc_assign_lookup_unselected {A B} (upd : B → A → A) mask values (base : list A) i :
  mask !! i = Some false →
  loc_assign upd mask values base !! i = base !! i.
Proof.
  revert mask values i. induction base as [|r0 base IH]; intros mask values i Hm.
  - by destruct mask as [|[] ?].
  - destruct mask as [|[] mask]; [done| |].
    + destruct values as [|v values]; [done|]. destruct i as [|i]; [done|].
      simpl. by apply IH.
    + destruct i as [|i]; [done|]. simpl. by apply IH.
Qed.

Lemma loc_all_true (mask : list bool) : Forall (λ b, b = true) (loc mask mask).
Proof.
  induction mask as [|[] mask IH].
  - constructor.
  - rewrite loc_cons_true. by constructor.
  - by rewrite loc_cons_false.
Qed.

Lemma length_loc {A} (mask : list bool) (l : list A) :
  length mask = length l →
  length (loc mask l) = length (filter (λ b : bool, b = true) mask).
Proof.
  revert l. induction mask as [|[] mask IH]; intros [|x l] Hl; try done.
  - rewrite loc_cons_true, filter_cons_True by done. simpl. f_equal. apply IH.
    by injection Hl.
  - rewrite loc_cons_false, filter_cons_False by done. apply IH. by injection Hl.
Qed.

Lemma filter_zip_all_true {A} (l : list A) (flags : list bool) :
  Forall (λ b, b = true) flags →
  filter (λ p : A * bool, p.2 = true) (zip l flags) = zip l flags.
Proof.
  intros Hf. revert l. induction Hf as [|b flags Hb Hf IH]; intros [|x l]; try done.
  change (zip (x :: l) (b :: flags)) with ((x, b) :: zip l flags).
  rewrite filter_cons_True by done. by rewrite IH.
Qed.

Lemma existsb_lookup (l : list bool) i : l !! i = Some true → existsb id l = true.
Proof.
  revert i. induction l as [|b l IH]; intros [|i] Hi; try done; simpl in *.
  - by injection Hi as ->.
  - rewrite (IH i Hi). apply orb_true_r.
Qed.

Section Schema.
Variable molar_mass : pystr → Qc.

Lemma aligned_masks df :
  aligned df →
  zip_with orb (needs_formula_of df <$> (coerce df <$> rows df))
               (needs_mw_of <$> (coerce df <$> rows df))
  = needs_formula_of df <$> (coerce df <$> rows df).
Proof.
  intros Ha. apply list_eq. intros j.
  rewrite lookup_zip_with, !list_lookup_fmap.
  destruct (rows df !! j) as [rj|] eqn:Hj; [|done]. simpl.
  pose proof (Forall_lookup_1 _ _ _ _ Ha Hj) as Hj'. simpl in Hj'.
  destruct (needs_mw_of (coerce df rj)); [by rewrite Hj'|by rewrite orb_false_r].
Qed.

Lemma ensure_db_schema_row df i r0 :
  rows df !! i = Some r0 →
  let r := coerce df r0 in
  let water :=
    if has_Formula df
    then (utils.split_hydrate_formula (str_of_scell (Formula r))).2 else 0%Z in
  ∃ r', rows (ensure_db_schema molar_mass df) !! i = Some r' ∧
        CID r' = CID r0 ∧ Name r' = Name r0 ∧ Formula r' = Formula r ∧ MW r' = MW r ∧
        MWAnh r' =
          match MWAnh r with
          | Some v => Some v
          | None =>
            (λ mw, mw - Qc_of_Z water * utils.molar_mass_h2o molar_mass)%Qc <$> MW r
          end ∧
        (needs_formula_of df r = false → FormulaAnh r' = FormulaAnh r) ∧
        (aligned df → needs_formula_of df r = true →
         FormulaAnh r'
         = SStr (utils.split_hydrate_formula (str_of_scell (Formula r))).1).
Proof.
  intros Hi. cbv zeta. unfold ensure_db_schema.
  assert (empty df = false) as -> by (unfold empty; by destruct (rows df)).
  cbv zeta.
  pose proof (aligned_masks df) as Hal.
  set (out0 := coerce df <$> rows df) in *.
  set (nf := needs_formula_of df <$> out0) in *. set (nm := needs_mw_of <$> out0) in *.
  set (na := zip_with orb nf nm) in *.
  set (r := coerce df r0).
  assert (out0 !! i = Some r) as H0 by (unfold out0; by rewrite list_lookup_fmap, Hi).
  assert (nf !! i = Some (needs_formula_of df r)) as Hnf
    by (unfold nf; by rewrite list_lookup_fmap, H0).
  assert (nm !! i = Some (needs_mw_of r)) as Hnm
    by (unfold nm; by rewrite list_lookup_fmap, H0).
  assert (na !! i = Some (needs_formula_of df r || needs_mw_of r)) as Hna
    by (unfold na; by rewrite lookup_zip_with, Hnf, Hnm).
  match goal with
  | |- context [let '(a, b) := ?p in _] => destruct p as [out1 wc] eqn:Hpair
  end.
  set (water := if has_Formula df
                then (utils.split_hydrate_formula (str_of_scell (Formula r))).2
                else 0%Z).
  set (base := (utils.split_hydrate_formula (str_of_scell (Formula r))).1).
  assert (∃ r1 w, out1 !! i = Some r1 ∧ wc !! i = Some w ∧
            CID r1 = CID r ∧ Name r1 = Name r ∧ Formula r1 = Formula r ∧
            MW r1 = MW r ∧ MWAnh r1 = MWAnh r ∧
            (needs_mw_of r = true → default 0%Z w = water) ∧
            (needs_formula_of df r = false → FormulaAnh r1 = FormulaAnh r) ∧
            (aligned df → needs_formula_of df r = true → FormulaAnh r1 = SStr base))
    as (r1 & w & H1 & Hw & HC & HN & HF & HM & HA & Hwater & Hkeep & Hbase).
  { destruct (has_Formula df && existsb id na) eqn:Hbr; injection Hpair as <- <-.
    - apply andb_true_iff in Hbr as [HF _]. unfold water. rewrite HF.
      set (values := (take (length (filter (λ b : bool, b = true) nf))
                        (filter (λ p : pystr * bool, p.2 = true)
                           (zip ((λ r : row,
                                    utils.split_hydrate_formula
                                      (str_of_scell (Formula r))) <$>
                                 loc na out0).*1 (loc na na))).*1)).
      assert (∃ r1, (if existsb id nf
                     then loc_assign set_FormulaAnh nf values out0
                     else out0) !! i = Some r1 ∧
                    (r1 = r ∨ ∃ v, r1 = set_FormulaAnh v r) ∧
                    (needs_formula_of df r = false → r1 = r) ∧
                    (aligned df → needs_formula_of df r = true →
                     r1 = set_FormulaAnh base r)) as (r1 & H1 & Hr1 & Hk & Hb).
      { destruct (existsb id nf) eqn:Hex.
        - destruct (loc_assign_lookup_any set_FormulaAnh nf values out0 i r H0)
            as (r1 & H1 & Hr1).
          exists r1. split; [done|]. split; [done|]. split.
          + intros Hn. rewrite Hn in Hnf.
            rewrite (loc_assign_lookup_unselected _ _ _ _ _ Hnf), H0 in H1. congruence.
          + intros Ha Hn. specialize (Hal Ha).
            assert (values
                    = (fst ∘ (λ r : row, utils.split_hydrate_formula
                                           (str_of_scell (Formula r)))) <$> loc nf out0)
              as Hvalues.
            { unfold values. rewrite Hal.
              rewrite filter_zip_all_true by apply loc_all_true.
              assert (length nf = length out0) as Hlen by (unfold nf; by rewrite length_fmap).
              rewrite fst_zip
                by (rewrite !length_fmap, !length_loc by done; done).
              rewrite take_ge by (rewrite !length_fmap, length_loc by done; done).
              by rewrite <- list_fmap_compose. }
            rewrite Hvalues in H1.
            rewrite (loc_assign_lookup set_FormulaAnh _ nf out0 out0 i
                       (needs_formula_of df r) r r Hnf H0 H0), Hn in H1.
            by injection H1 as <-.
        - exists r. split; [done|]. split; [by left|]. split; [done|].
          intros _ Hn. rewrite Hn in Hnf. by rewrite (existsb_lookup nf i) in Hex. }
      exists r1, (if needs_formula_of df r || needs_mw_of r
                  then Some (utils.split_hydrate_formula (str_of_scell (Formula r))).2
                  else None).
      split; [exact H1|]. split.
      { rewrite <- list_fmap_compose.
        apply (loc_assign_lookup (λ (w : Z) (_ : option Z), Some w)
                 (snd ∘ (λ r : row, utils.split_hydrate_formula (str_of_scell (Formula r))))
                 na out0 _ i _ r None); [done|done|].
        apply lookup_replicate_2. by eapply lookup_lt_Some. }
      assert (CID r1 = CID r ∧ Name r1 = Name r ∧ Formula r1 = Formula r ∧
              MW r1 = MW r ∧ MWAnh r1 = MWAnh r) as (? & ? & ? & ? & ?)
        by (destruct Hr1 as [->|[v ->]]; done).
      repeat (split; [done|]).
      split; [intros ->; by rewrite orb_true_r|].
      split; [by intros ->%Hk|]. intros Ha Hn. by rewrite (Hb Ha Hn).
    - exists r, (Some 0%Z). split; [done|].
      split; [apply lookup_replicate_2; by eapply lookup_lt_Some|].
      repeat (split; [done|]).
      assert (has_Formula df = true → needs_formula_of df r || needs_mw_of r = true →
              False) as Hno.
      { intros HF Hn. rewrite HF in Hbr. simpl in Hbr. rewrite Hn in Hna.
        by rewrite (existsb_lookup na i) in Hbr. }
      split; [|split; [done|]].
      + intros Hneed. unfold water. destruct (has_Formula df); [|done].
        destruct Hno; [done|]. by rewrite Hneed, orb_true_r.
      + intros _ Hn. destruct Hno; [|by rewrite Hn].
        unfold needs_formula_of in Hn. by apply andb_true_iff in Hn as [? _]. }
  assert (needs_mw_of r = false → ∃ v, MWAnh r = Some v) as Hsome.
  { unfold needs_mw_of. intros Hn%bool_decide_eq_false. destruct (MWAnh r); [by eexists|done]. }
  assert (needs_mw_of r = true → MWAnh r = None) as Hnone.
  { unfold needs_mw_of. by intros Hn%bool_decide_eq_true. }
  assert (CID r = CID r0 ∧ Name r = Name r0) as [HC0 HN0] by done.
  fold water base. clearbody water base r. cbn [rows]. rewrite <- HC0, <- HN0.
  destruct (existsb id nm) eqn:Hm.
  - exists (derive_mw (utils.molar_mass_h2o molar_mass) (needs_mw_of r) w r1).
    split; [by rewrite !lookup_zip_with, Hnm, Hw, H1|].
    unfold derive_mw. destruct (needs_mw_of r) eqn:Hn.
    + unfold set_MWAnh. cbn [CID Name Formula FormulaAnh MW MWAnh].
      rewrite Hnone, HM, Hwater by done. done.
    + destruct (Hsome eq_refl) as [v Hv]. rewrite Hv, <- HA in *. done.
  - exists r1. split; [done|].
    assert (needs_mw_of r = false) as Hn.
    { destruct (needs_mw_of r) eqn:Hn; [|done].
      by rewrite (existsb_lookup nm i) in Hm. }
    destruct (Hsome Hn) as [v Hv]. rewrite Hv. rewrite <- Hv. done.
Qed.

Lemma ensure_db_schema_length df :
  length (rows (ensure_db_schema molar_mass df)) = length (rows df).
Proof.
  unfold ensure_db_schema. destruct (empty df); [done|]. cbv zeta.
  set (out0 := coerce df <$> rows df).
  set (nf := needs_formula_of df <$> out0). set (nm := needs_mw_of <$> out0).
  set (na := zip_with orb nf nm).
  match goal with
  | |- context [let '(a, b) := ?p in _] => destruct p as [out1 wc] eqn:Hpair
  end.
  assert (length out0 = length (rows df)) as H0 by (unfold out0; by rewrite length_fmap).
  assert (length nm = length out0) as Hnm by (unfold nm; by rewrite length_fmap).
  assert (length out1 = length out0 ∧ length wc = length out0) as [H1 Hw].
  { destruct (has_Formula df && existsb id na); injection Hpair as <- <-.
    - split; [destruct (existsb id nf); [apply length_loc_assign|done]|].
      by rewrite length_loc_assign, length_replicate.
    - by rewrite length_replicate. }
  cbn [rows]. destruct (existsb id nm).
  - rewrite !length_zip_with. lia.
  - lia.
Qed.

Lemma ensure_db_schema_identity df :
  CID <$> rows (ensure_db_schema molar_mass df) = CID <$> rows df ∧
  Name <$> rows (ensure_db_schema molar_mass df) = Name <$> rows df.
Proof.
  pose proof (ensure_db_schema_length df) as Hlen.
  split; apply list_eq; intros i; rewrite !list_lookup_fmap;
    (destruct (rows df !! i) as [r0|] eqn:Hi;
     [destruct (ensure_db_schema_row df i r0 Hi)
        as (r' & -> & HC & HN & _); simpl; congruence
     |apply lookup_ge_None in Hi; rewrite lookup_ge_None_2 by lia; done]).
Qed.

End Schema.
End SchemaFacts.

Import Frame SchemaNotions.



(** X8.  [ensure_db_schema] neither adds, drops nor reorders rows: the
    result has the rows of the table, each with its identifier and name. *)
Theorem ensure_db_schema_keeps_rows (molar_mass : pystr → Qc) (df : frame) :
  CID <$> rows (paths.ensure_db_schema molar_mass df) = CID <$> rows df ∧
  Name <$> rows (paths.ensure_db_schema molar_mass df) = Name <$> rows df.
Proof. apply SchemaFacts.ensure_db_schema_identity. Qed.

(** X9.  The anhydrous molar mass after [ensure_db_schema]: a row that has
    one keeps it; for a row that lacks it, it is the molar mass minus the
    water count of the hydrate split of that row's own formula times the
    molar mass of water (the molar mass itself when the table has no formula
    column), and missing when the molar mass is missing. *)
Theorem ensure_db_schema_anhydrous_mass (molar_mass : pystr → Qc) (df : frame)
    (i : nat) (r0 : row) :
  rows df !! i = Some r0 →
  let water :=
    if has_Formula df
    then (utils.split_hydrate_formula (str_of_scell (Formula r0))).2 else 0%Z in
  ∃ r, rows (paths.ensure_db_schema molar_mass df) !! i = Some r ∧
       MW r = (if has_MW df then MW r0 else None) ∧
       MWAnh r =
         match (if has_MWAnh df then MWAnh r0 else None) with
         | Some v => Some v
         | None =>
           (λ mw, mw - Qc_of_Z water * utils.molar_mass_h2o molar_mass)%Qc <$> MW r
         end.
Proof.
  intros Hi. cbv zeta.
  destruct (SchemaFacts.ensure_db_schema_row molar_mass df i r0 Hi)
    as (r & Hr & _ & _ & _ & HM & HA & _).
  exists r. split; [done|]. split; [done|]. rewrite HA, HM. cbn [paths.coerce MW MWAnh Formula].
  destruct (has_Formula df); done.
Qed.

Lemma ensure_db_schema_anhydrous_mass_witness :
  ∃ r, rows (paths.ensure_db_schema Examples.sample_molar_mass Examples.legacy_table)
         !! 1%nat = Some r ∧
       MW r = Examples.mass 23793 ∧
       MWAnh r =
         (λ mw, mw - Qc_of_Z 6 * utils.molar_mass_h2o Examples.sample_molar_mass)%Qc
           <$> MW r.
Proof.
  apply (ensure_db_schema_anhydrous_mass Examples.sample_molar_mass Examples.legacy_table
           1%nat (Row (py "24643") (SStr (py "Cobalt chloride hexahydrate"))
                      (SStr (py "CoCl2•6H2O")) (SStr (py "")) (Examples.mass 23793) None)).
  reflexivity.
Defined.

(** X10.  An anhydrous formula that is present and not blank is never
    overwritten by [ensure_db_schema]. *)
Theorem ensure_db_schema_keeps_formula (molar_mass : pystr → Qc) (df : frame)
    (i : nat) (r0 : row) :
  rows df !! i = Some r0 →
  has_FormulaAnh df = true →
  strip (str_of_scell (FormulaAnh r0)) ≠ [] →
  ∃ r, rows (paths.ensure_db_schema molar_mass df) !! i = Some r ∧
       FormulaAnh r = SStr (str_of_scell (FormulaAnh r0)).
Proof.
  intros Hi Hcol Hpresent.
  destruct (SchemaFacts.ensure_db_schema_row molar_mass df i r0 Hi)
    as (r & Hr & _ & _ & _ & _ & _ & Hkeep & _).
  exists r. split; [done|]. rewrite Hkeep.
  - cbn [paths.coerce FormulaAnh]. by rewrite Hcol.
  - unfold paths.needs_formula_of. cbn [paths.coerce FormulaAnh]. rewrite Hcol.
    cbn [str_of_scell]. rewrite (bool_decide_eq_false_2 _ Hpresent). apply andb_false_r.
Qed.

Lemma ensure_db_schema_keeps_formula_witness :
  ∃ r, rows (paths.ensure_db_schema Examples.sample_molar_mass Examples.legacy_table)
         !! 0%nat = Some r ∧
       FormulaAnh r = SStr (py "NaCl").
Proof.
  apply (ensure_db_schema_keeps_formula Examples.sample_molar_mass Examples.legacy_table
           0%nat (Row (py "5234") (SStr (py "Sodium chloride"))
                      (SStr (py "NaCl")) (SStr (py "NaCl")) (Examples.mass 5844) None)).
  - reflexivity.
  - reflexivity.
  - vm_compute. discriminate.
Defined.

(** X11.  When every row that lacks the anhydrous mass also lacks the
    anhydrous formula (as in a table without the anhydrous columns), the
    anhydrous formula [ensure_db_schema] derives for a row is the base of
    the hydrate split of that row's own formula. *)
Theorem ensure_db_schema_derives_own_base (molar_mass : pystr → Qc) (df : frame)
    (i : nat) (r0 : row) :
  aligned df →
  rows df !! i = Some r0 →
  paths.needs_formula_of df (paths.coerce df r0) = true →
  ∃ r, rows (paths.ensure_db_schema molar_mass df) !! i = Some r ∧
       FormulaAnh r = SStr (utils.split_hydrate_formula (str_of_scell (Formula r0))).1.
Proof.
  intros Hal Hi Hneed.
  destruct (SchemaFacts.ensure_db_schema_row molar_mass df i r0 Hi)
    as (r & Hr & _ & _ & _ & _ & _ & _ & Hbase).
  exists r. split; [done|]. rewrite (Hbase Hal Hneed).
  unfold paths.needs_formula_of in Hneed. apply andb_true_iff in Hneed as [HF _].
  cbn [paths.coerce Formula]. by rewrite HF.
Qed.

Lemma ensure_db_schema_derives_own_base_witness :
  ∃ r, rows (paths.ensure_db_schema Examples.sample_molar_mass MoreExamples.raw_table)
         !! 1%nat = Some r ∧
       FormulaAnh r = SStr (py "CoCl2").
Proof.
  apply (ensure_db_schema_derives_own_base Examples.sample_molar_mass
           MoreExamples.raw_table 1%nat
           (Row (py "24643") (SStr (py "Cobalt chloride hexahydrate"))
                (SStr (py " CoCl2 · 6 H2O")) SNaN (Examples.mass 23793) None)).
  - repeat (constructor; [intros _; vm_compute; reflexivity|]). constructor.
  - reflexivity.
  - vm_compute. reflexivity.
Defined.

(** ** compound_db.py: resolving identifiers *)
Module DbMore.
Import PyStr Frame Pandas compound_db Notions.

Section Db.
Context `{Lower}.
Variable molar_mass : pystr → Qc.
Variable fetch_by_cid : pystr → result (option fetched).

Lemma fetch_records_cache missing eff :
  cache_writes (fetch_records fetch_by_cid missing eff).2 = cache_writes eff.
Proof.
  revert eff. induction missing as [|cid more IH]; intros eff; [done|]. simpl.
  destruct (fetch_by_cid cid) as [[rec|]|e]; [| |done].
  - specialize (IH (Effects (remote_fetches eff ++ [cid]) (cache_writes eff))).
    destruct (fetch_records _ _ _) as [[rs|e] eff']; exact IH.
  - apply (IH (Effects (remote_fetches eff ++ [cid]) (cache_writes eff))).
Qed.

Lemma fetch_records_all_ok missing eff :
  (∀ c, c ∈ missing → ∃ o, fetch_by_cid c = Ok o) →
  ∃ rs, fetch_records fetch_by_cid missing eff
        = (Ok rs, Effects (remote_fetches eff ++ missing) (cache_writes eff)).
Proof.
  revert eff. induction missing as [|cid more IH]; intros eff Hok.
  - exists []. simpl. rewrite app_nil_r. by destruct eff.
  - simpl. destruct (Hok cid) as [o Ho]; [left|]. rewrite Ho.
    destruct (IH (Effects (remote_fetches eff ++ [cid]) (cache_writes eff)))
      as [rs Hrs]; [intros c Hc; apply Hok; by right|].
    rewrite Hrs. simpl. rewrite <- app_assoc. simpl.
    destruct o as [rec|]; eexists; reflexivity.
Qed.

Lemma fetch_records_raise missing eff m e :
  m ∈ missing → fetch_by_cid m = Raise e →
  ∃ e', (fetch_records fetch_by_cid missing eff).1 = Raise e'.
Proof.
  revert eff. induction missing as [|cid more IH]; intros eff Hm He.
  - by apply elem_of_nil in Hm.
  - simpl. destruct (fetch_by_cid cid) as [[rec|]|e0] eqn:Hc.
    + apply elem_of_cons in Hm as [->|Hm]; [congruence|].
      destruct (IH (Effects (remote_fetches eff ++ [cid]) (cache_writes eff)) Hm He)
        as [e' He'].
      destruct (fetch_records _ _ _) as [[rs|e1] eff']; [done|]. by exists e1.
    + apply elem_of_cons in Hm as [->|Hm]; [congruence|]. by apply IH.
    + by exists e0.
Qed.

Lemma filter_ext_elem {A} (P Q : A → Prop) `{!∀ x, Decision (P x)} `{!∀ x, Decision (Q x)}
    (l : list A) :
  (∀ x, x ∈ l → (P x ↔ Q x)) → filter P l = filter Q l.
Proof.
  induction l as [|x l IH]; intros HPQ; [done|].
  rewrite !filter_cons. rewrite IH by (intros y Hy; apply HPQ; by right).
  destruct (decide (P x)) as [HP|HP], (decide (Q x)) as [HQ|HQ]; try done.
  - destruct HQ. apply HPQ; [left|done].
  - destruct HP. apply HPQ; [left|done].
Qed.

Lemma missing_of_table wanted df :
  filter (λ cid, cid ∉ CID <$> isin wanted df) wanted
  = filter (λ cid, cid ∉ CID <$> rows df) wanted.
Proof.
  apply filter_ext_elem. intros w Hw. unfold isin.
  rewrite !list_elem_of_fmap. split; intros Hn (r & -> & Hr); apply Hn; exists r.
  - split; [done|]. by apply list_elem_of_filter.
  - split; [done|]. by apply list_elem_of_filter in Hr as [_ ?].

Qed.

Lemma finish_effects wanted (hit : list row) (eff : effects) :
  (match hit return result frame * effects with
   | [] => (Ok paths.empty_db_df, eff)
   | _ :: _ => (in_requested_order wanted hit, eff)
   end).2 = eff.
Proof. by destruct hit. Qed.

Lemma online_fetches df cids update_cache :
  empty df = false →
  (∀ c, ∃ o, fetch_by_cid c = Ok o) →
  remote_fetches
    (get_compounds_by_cids molar_mass (Ok df) fetch_by_cid false cids true update_cache).2
  = filter (λ w, w ∉ CID <$> rows df) (wanted_of cids).
Proof.
  intros Hne Hok. unfold get_compounds_by_cids, get_compounds_by_cids_async. cbn [andb].
  destruct (wanted_of cids) as [|w ws] eqn:Ew; [done|]. rewrite <- Ew. clear Ew w ws.
  rewrite Hne. cbv zeta. rewrite missing_of_table.
  set (missing := filter (λ w, w ∉ CID <$> rows df) (wanted_of cids)).
  destruct (bool_decide (missing = [])) eqn:Hm; cbn [negb andb].
  { apply bool_decide_eq_true in Hm. rewrite finish_effects. by rewrite Hm. }
  apply bool_decide_eq_false in Hm.
  unfold _fetch_missing_rows_async.
  destruct (fetch_records_all_ok missing no_effects) as [rs Hrs]; [by intros c _|].
  destruct missing as [|m ms] eqn:Em; [done|]. rewrite <- Em in *. rewrite Hrs. cbn [no_effects remote_fetches cache_writes app].
  clear Hrs Em.
  destruct (empty _);
    repeat match goal with
           | |- context [if empty ?d then _ else _] => destruct (empty d)
           | |- context [match isin ?a ?b with _ => _ end] => destruct (isin a b)
           end;
    destruct update_cache; reflexivity.
Qed.

Lemma async_cache_writes (loaded : result frame) cids fetch_missing eff :
  cache_writes
    (get_compounds_by_cids_async molar_mass loaded fetch_by_cid cids fetch_missing
       false eff).2
  = cache_writes eff.
Proof.
  unfold get_compounds_by_cids_async.
  destruct (wanted_of cids) as [|w ws] eqn:Ew; [done|]. rewrite <- Ew. clear Ew w ws.
  destruct loaded as [df|e]; [|done]. destruct (empty df); [done|]. cbv zeta.
  destruct (fetch_missing && _); [|by rewrite finish_effects].
  unfold _fetch_missing_rows_async.
  destruct (filter _ (wanted_of cids)) as [|m ms] eqn:Em;
    [cbn; by destruct (isin _ _)|].
  rewrite <- Em. clear Em.
  pose proof (fetch_records_cache (filter (λ cid, cid ∉ CID <$> isin (wanted_of cids) df)
                                     (wanted_of cids)) eff) as Hc.
  destruct (fetch_records _ _ _) as [[rs|e] eff']; [|done]. simpl in Hc.
  destruct (empty _);
    repeat match goal with
           | |- context [if empty ?d then _ else _] => destruct (empty d)
           | |- context [match isin ?a ?b with _ => _ end] => destruct (isin a b)
           end; exact Hc.
Qed.

Lemma async_cache_once (loaded : result frame) cids fetch_missing update_cache eff :
  let eff' := (get_compounds_by_cids_async molar_mass loaded fetch_by_cid cids
                 fetch_missing update_cache eff).2 in
  cache_writes eff' = cache_writes eff ∨
  (update_cache = true ∧ fetch_missing = true ∧
   remote_fetches eff' ≠ remote_fetches eff ∧
   ∃ table, cache_writes eff' = cache_writes eff ++ [table]).
Proof.
  cbv zeta. unfold get_compounds_by_cids_async.
  destruct (wanted_of cids) as [|w ws] eqn:Ew; [by left|]. rewrite <- Ew. clear Ew w ws.
  destruct loaded as [df|e]; [|by left]. destruct (empty df); [by left|]. cbv zeta.
  destruct fetch_missing; cbn [andb]; [|left; by rewrite finish_effects].
  destruct (negb _) eqn:Hmiss; [|left; by rewrite finish_effects].
  unfold _fetch_missing_rows_async.
  destruct (filter _ (wanted_of cids)) as [|m ms] eqn:Em;
    [by rewrite bool_decide_eq_true_2 in Hmiss|].
  rewrite <- Em.
  destruct (fetch_records_all_ok [] eff) as [_ _]; [by intros ? ?%elem_of_nil|].
  pose proof (fetch_records_cache (filter (λ cid, cid ∉ CID <$> isin (wanted_of cids) df)
                                     (wanted_of cids)) eff) as Hc.
  assert (remote_fetches
            (fetch_records fetch_by_cid
               (filter (λ cid, cid ∉ CID <$> isin (wanted_of cids) df) (wanted_of cids))
               eff).2 ≠ remote_fetches eff) as Hsent.
  { rewrite Em. simpl. clear.
    assert (∀ l e, ∃ t, remote_fetches (fetch_records fetch_by_cid l e).2
                        = remote_fetches e ++ t) as Hgrow.
    { induction l as [|c l IH]; intros e; [exists []; by rewrite app_nil_r|]. simpl.
      destruct (IH (Effects (remote_fetches e ++ [c]) (cache_writes e))) as [t Ht].
      destruct (fetch_by_cid c) as [[rec|]|e0].
      - destruct (fetch_records _ _ _) as [[rs|e1] eff']; exists (c :: t);
          simpl in *; by rewrite Ht, <- app_assoc.
      - exists (c :: t). simpl in Ht. by rewrite Ht, <- app_assoc.
      - by exists [c]. }
    destruct (Hgrow ms (Effects (remote_fetches eff ++ [m]) (cache_writes eff)))
      as [t Ht].
    assert (∀ (a : list pystr) b, a ++ b = a → b = []) as Hnil.
    { intros a b Hab. apply (f_equal length) in Hab. rewrite length_app in Hab.
      destruct b; [done|simpl in Hab; lia]. }
    destruct (fetch_by_cid m) as [[rec|]|e0].
    - destruct (fetch_records _ _ _) as [[rs|e1] eff']; simpl in *; rewrite Ht;
        rewrite <- app_assoc; by intros ?%Hnil.
    - simpl in Ht. rewrite Ht, <- app_assoc. by intros ?%Hnil.
    - simpl. by intros ?%Hnil. }
  destruct (fetch_records _ _ _) as [[rs|e] eff']; [|by left]. simpl in Hc, Hsent.
  destruct update_cache.
  - destruct (empty _);
      repeat match goal with
             | |- context [if empty ?d then _ else _] => destruct (empty d)
             | |- context [match isin ?a ?b with _ => _ end] => destruct (isin a b)
             end; simpl;
      first [by left | right; rewrite Hc; by eauto].
  - left. destruct (empty _);
      repeat match goal with
             | |- context [if empty ?d then _ else _] => destruct (empty d)
             | |- context [match isin ?a ?b with _ => _ end] => destruct (isin a b)
             end; exact Hc.
Qed.


Lemma online_nothing_missing df cids update_cache :
  (∀ w, w ∈ wanted_of cids → w ∈ CID <$> rows df) →
  get_compounds_by_cids molar_mass (Ok df) fetch_by_cid false cids true update_cache
  = get_compounds_by_cids molar_mass (Ok df) fetch_by_cid false cids false update_cache.
Proof.
  intros Hall. unfold get_compounds_by_cids, get_compounds_by_cids_async. cbn [andb].
  destruct (wanted_of cids) as [|w ws] eqn:Ew; [done|]. rewrite <- Ew in *. clear Ew w ws.
  destruct (empty df); [done|]. cbv zeta. rewrite missing_of_table.
  rewrite (CacheFacts.filter_none _ (wanted_of cids))
    by (intros w Hw Hn; by apply Hn, Hall).
  rewrite bool_decide_eq_true_2 by done. cbn [negb andb]. by destruct (isin _ _).
Qed.

Lemma online_client_error df cids update_cache m e :
  empty df = false →
  m ∈ wanted_of cids → m ∉ CID <$> rows df → fetch_by_cid m = Raise e →
  let r := get_compounds_by_cids molar_mass (Ok df) fetch_by_cid false cids true
             update_cache in
  (∃ e', r.1 = Raise e') ∧ cache_writes r.2 = [].
Proof.
  intros Hne Hm Hmiss He. cbv zeta.
  unfold get_compounds_by_cids, get_compounds_by_cids_async. cbn [andb].
  destruct (wanted_of cids) as [|w ws] eqn:Ew; [by apply elem_of_nil in Hm|].
  rewrite <- Ew in *. clear Ew w ws.
  rewrite Hne. cbv zeta. rewrite missing_of_table.
  set (missing := filter (λ w, w ∉ CID <$> rows df) (wanted_of cids)).
  assert (m ∈ missing) as Hin by (by apply list_elem_of_filter).
  rewrite bool_decide_eq_false_2 by (intros E; rewrite E in Hin; by apply elem_of_nil in Hin).
  cbn [negb andb]. unfold _fetch_missing_rows_async.
  destruct (fetch_records_raise missing no_effects m e Hin He) as [e' He'].
  pose proof (fetch_records_cache missing no_effects) as Hc.
  destruct missing as [|m0 ms] eqn:Em; [by apply elem_of_nil in Hin|].
  rewrite <- Em in *. clear Em.
  destruct (fetch_records _ _ _) as [[rs|e1] eff']; [done|]. simpl in *.
  split; [by exists e1|done].
Qed.

Lemma dedupe_leb_total a b : dedupe_leb a b = true ∨ dedupe_leb b a = true.
Proof.
  unfold dedupe_leb. destruct (decide (CID a = CID b)) as [E|E].
  - rewrite !bool_decide_eq_true_2 by done. rewrite !Z.leb_le. lia.
  - rewrite !bool_decide_eq_false_2 by done. apply PandasFacts.str_leb_total.
Qed.

Lemma dedupe_leb_trans a b c :
  dedupe_leb a b = true → dedupe_leb b c = true → dedupe_leb a c = true.
Proof.
  unfold dedupe_leb.
  destruct (decide (CID a = CID b)) as [Eab|Eab], (decide (CID b = CID c)) as [Ebc|Ebc].
  - rewrite !bool_decide_eq_true_2 by congruence. rewrite !Z.leb_le. lia.
  - rewrite (bool_decide_eq_true_2 _ Eab), (bool_decide_eq_false_2 _ Ebc).
    rewrite bool_decide_eq_false_2 by congruence. intros _. by rewrite Eab.
  - rewrite (bool_decide_eq_false_2 _ Eab), (bool_decide_eq_true_2 _ Ebc).
    rewrite bool_decide_eq_false_2 by congruence. intros ? _. by rewrite <- Ebc.
  - rewrite (bool_decide_eq_false_2 _ Eab), (bool_decide_eq_false_2 _ Ebc).
    intros Hab Hbc. destruct (decide (CID a = CID c)) as [Eac|Eac].
    + destruct Eab. apply PandasFacts.str_leb_antisym; [done|]. by rewrite Eac.
    + rewrite bool_decide_eq_false_2 by done. by eapply PandasFacts.str_leb_trans.
Qed.

Lemma dedupe_spec df :
  NoDup (CID <$> rows (_dedupe_keep_most_complete df)) ∧
  (∀ r, r ∈ rows (_dedupe_keep_most_complete df) →
        r ∈ rows df ∧
        ∀ r', r' ∈ rows df → CID r' = CID r →
              (_completeness_score r' ≤ _completeness_score r)%Z) ∧
  (∀ r, r ∈ rows df → ∃ r', r' ∈ rows (_dedupe_keep_most_complete df) ∧ CID r' = CID r).
Proof.
  unfold _dedupe_keep_most_complete. destruct (empty df) eqn:He.
  { unfold empty in He. destruct (rows df); [|done].
    split; [constructor|]. split; intros r Hr; by apply elem_of_nil in Hr. }
  cbn [rows]. split; [apply PandasFacts.drop_duplicates_NoDup|]. split.
  - intros r Hr. pose proof Hr as [Hin _]%PandasFacts.elem_of_drop_duplicates.
    apply PandasFacts.elem_of_sort_stable in Hin. split; [done|].
    intros r' Hr' Hk.
    assert (dedupe_leb r r' = true) as Hfirst.
    { apply (PandasFacts.drop_duplicates_first CID (λ a b, dedupe_leb a b = true)
               (sort_stable dedupe_leb (rows df)) [] r r'); [| |done| |done].
      - intros a. destruct (dedupe_leb_total a a); done.
      - apply PandasFacts.sort_stable_sorted;
          [apply dedupe_leb_total|apply dedupe_leb_trans].
      - by apply PandasFacts.elem_of_sort_stable. }
    unfold dedupe_leb in Hfirst. rewrite bool_decide_eq_true_2 in Hfirst by done.
    by apply Z.leb_le.
  - intros r Hr. apply PandasFacts.drop_duplicates_cover.
    + by apply PandasFacts.elem_of_sort_stable.
    + apply not_elem_of_nil.
Qed.

End Db.
End DbMore.

Import compound_db.

(** X12.  Offline resolution of a request without repeated identifiers,
    against a table with unique identifiers: the identifiers of the rows
    returned are the requested ones that the table has, in the order of the
    request; nothing is fetched and nothing is written. *)
Theorem get_compounds_by_cids_in_request_order (L : Lower)
    (molar_mass : pystr → Qc) (fetch_by_cid : pystr → result (option fetched))
    (df : frame) (loop : bool) (cids : list cid_arg) (update_cache : bool) :
  NoDup (wanted_of cids) → NoDup (CID <$> rows df) →
  ∃ out,
    get_compounds_by_cids molar_mass (Ok df) fetch_by_cid loop cids false update_cache
      = (Ok out, no_effects) ∧
    CID <$> rows out = filter (λ w, w ∈ CID <$> rows df) (wanted_of cids).
Proof. apply CompoundDbFacts.get_compounds_by_cids_exact. Qed.

Lemma get_compounds_by_cids_in_request_order_witness :
  ∃ out,
    @get_compounds_by_cids ascii_lower Examples.sample_molar_mass
      (Ok Examples.glucose_table) Examples.no_client false
      [CidStr (py "5793"); CidStr (py "999999999")] false true
      = (Ok out, no_effects) ∧
    CID <$> rows out = [py "5793"].
Proof.
  apply (get_compounds_by_cids_in_request_order ascii_lower Examples.sample_molar_mass
           Examples.no_client Examples.glucose_table false
           [CidStr (py "5793"); CidStr (py "999999999")] true).
  - by_compute.
  - by_compute.
Defined.

(** X13.  Offline resolution of a request without repeated identifiers,
    against any table: the rows returned are exactly the rows of the table
    whose identifier is requested, ordered by the position of their
    identifier in the request. *)
Theorem get_compounds_by_cids_offline_order (L : Lower)
    (molar_mass : pystr → Qc) (fetch_by_cid : pystr → result (option fetched))
    (df : frame) (loop : bool) (cids : list cid_arg) (update_cache : bool) :
  NoDup (wanted_of cids) →
  ∃ out,
    get_compounds_by_cids molar_mass (Ok df) fetch_by_cid loop cids false update_cache
      = (Ok out, no_effects) ∧
    rows out ≡ₚ isin (wanted_of cids) df ∧
    StronglySorted (λ a b, index_le (wanted_of cids) (CID a) (CID b)) (rows out).
Proof. apply CompoundDbFacts.get_compounds_by_cids_offline. Qed.

Lemma get_compounds_by_cids_offline_order_witness :
  ∃ out,
    @get_compounds_by_cids ascii_lower Examples.sample_molar_mass
      (Ok Examples.legacy_table) Examples.no_client false
      [CidInt 24643; CidStr (py "5234.0")] false true
      = (Ok out, no_effects) ∧
    rows out ≡ₚ isin [py "24643"; py "5234"] Examples.legacy_table ∧
    StronglySorted (λ a b, index_le [py "24643"; py "5234"] (CID a) (CID b)) (rows out).
Proof.
  apply (get_compounds_by_cids_offline_order ascii_lower Examples.sample_molar_mass
           Examples.no_client Examples.legacy_table false
           [CidInt 24643; CidStr (py "5234.0")] true).
  by_compute.
Defined.



(** X15.  With fetch_missing on and every requested identifier already in
    the table, resolution is the offline resolution: the remote client is
    not called and the cache is not written. *)
Theorem online_resolution_skips_fetch_when_complete (L : Lower)
    (molar_mass : pystr → Qc) (fetch_by_cid : pystr → result (option fetched))
    (df : frame) (cids : list cid_arg) (update_cache : bool) :
  (∀ w, w ∈ wanted_of cids → w ∈ CID <$> rows df) →
  get_compounds_by_cids molar_mass (Ok df) fetch_by_cid false cids true update_cache
  = get_compounds_by_cids molar_mass (Ok df) fetch_by_cid false cids false update_cache.
Proof. apply DbMore.online_nothing_missing. Qed.

Lemma online_resolution_skips_fetch_when_complete_witness :
  @get_compounds_by_cids ascii_lower Examples.sample_molar_mass
    (Ok Examples.legacy_table) MoreExamples.failing_client false
    [CidStr (py "24643"); CidInt 5234] true true
  = @get_compounds_by_cids ascii_lower Examples.sample_molar_mass
      (Ok Examples.legacy_table) MoreExamples.failing_client false
      [CidStr (py "24643"); CidInt 5234] false true.
Proof.
  apply (online_resolution_skips_fetch_when_complete ascii_lower).
  apply list.Forall_forall. by_compute.
Defined.

(** X16.  With fetch_missing on, a table that is not empty and a remote
    client that answers every call, the identifiers sent to the client are
    the requested identifiers that the table lacks, in the order of the
    request, each as often as it is requested. *)
Theorem online_resolution_fetches_missing (L : Lower)
    (molar_mass : pystr → Qc) (fetch_by_cid : pystr → result (option fetched))
    (df : frame) (cids : list cid_arg) (update_cache : bool) :
  empty df = false →
  (∀ c, ∃ o, fetch_by_cid c = Ok o) →
  remote_fetches
    (get_compounds_by_cids molar_mass (Ok df) fetch_by_cid false cids true update_cache).2
  = filter (λ w, w ∉ CID <$> rows df) (wanted_of cids).
Proof. apply DbMore.online_fetches. Qed.

Lemma online_resolution_fetches_missing_witness :
  remote_fetches
    (@get_compounds_by_cids ascii_lower Examples.sample_molar_mass
       (Ok Examples.glucose_table) MoreExamples.salt_client false
       [CidInt 5234; CidStr (py "5793"); CidStr (py "962.0")] true true).2
  = [py "5234"; py "962"].
Proof.
  apply (online_resolution_fetches_missing ascii_lower Examples.sample_molar_mass
           MoreExamples.salt_client Examples.glucose_table
           [CidInt 5234; CidStr (py "5793"); CidStr (py "962.0")] true).
  - reflexivity.
  - intros c. unfold MoreExamples.salt_client. destruct (bool_decide _); by eexists.
Defined.

(** X17.  The remote client's errors are not caught: when the client raises
    for a requested identifier that the table lacks, the resolution raises,
    and the cache is not written. *)
Theorem online_resolution_client_error (L : Lower)
    (molar_mass : pystr → Qc) (fetch_by_cid : pystr → result (option fetched))
    (df : frame) (cids : list cid_arg) (update_cache : bool) (m : pystr) (e : exn) :
  empty df = false →
  m ∈ wanted_of cids → m ∉ CID <$> rows df → fetch_by_cid m = Raise e →
  let r := get_compounds_by_cids molar_mass (Ok df) fetch_by_cid false cids true
             update_cache in
  (∃ e', r.1 = Raise e') ∧ cache_writes r.2 = [].
Proof. apply DbMore.online_client_error. Qed.

Lemma online_resolution_client_error_witness :
  (∃ e', (@get_compounds_by_cids ascii_lower Examples.sample_molar_mass
            (Ok Examples.glucose_table) MoreExamples.failing_client false
            [CidStr (py "5793"); CidInt 962] true true).1 = Raise e') ∧
  cache_writes
    (@get_compounds_by_cids ascii_lower Examples.sample_molar_mass
       (Ok Examples.glucose_table) MoreExamples.failing_client false
       [CidStr (py "5793"); CidInt 962] true true).2 = [].
Proof.
  apply (online_resolution_client_error ascii_lower Examples.sample_molar_mass
           MoreExamples.failing_client Examples.glucose_table
           [CidStr (py "5793"); CidInt 962] true (py "962") ClientError).
  - reflexivity.
  - by_compute.
  - by_compute.
  - reflexivity.
Defined.

(** X18.  The asynchronous resolution writes the cache at most once, and
    only with update_cache and fetch_missing on and after a call to the
    remote client; with update_cache off it never writes. *)
Theorem resolution_writes_cache_at_most_once (L : Lower)
    (molar_mass : pystr → Qc) (loaded : result frame)
    (fetch_by_cid : pystr → result (option fetched))
    (cids : list cid_arg) (fetch_missing update_cache : bool) (eff : effects) :
  let eff' := (get_compounds_by_cids_async molar_mass loaded fetch_by_cid cids
                 fetch_missing update_cache eff).2 in
  cache_writes eff' = cache_writes eff ∨
  (update_cache = true ∧ fetch_missing = true ∧
   remote_fetches eff' ≠ remote_fetches eff ∧
   ∃ table, cache_writes eff' = cache_writes eff ++ [table]).
Proof. apply DbMore.async_cache_once. Qed.

(** X19.  [_dedupe_keep_most_complete] leaves one row per identifier: the
    identifiers of the result are pairwise different, every identifier of the
    table is still there, and the row kept for an identifier is a row of the
    table that no row of that identifier exceeds in completeness. *)
Theorem dedupe_keeps_most_complete (df : frame) :
  NoDup (CID <$> rows (_dedupe_keep_most_complete df)) ∧
  (∀ r, r ∈ rows (_dedupe_keep_most_complete df) →
        r ∈ rows df ∧
        ∀ r', r' ∈ rows df → CID r' = CID r →
              (_completeness_score r' ≤ _completeness_score r)%Z) ∧
  (∀ r, r ∈ rows df → ∃ r', r' ∈ rows (_dedupe_keep_most_complete df) ∧ CID r' = CID r).
Proof. apply DbMore.dedupe_spec. Qed.

Lemma dedupe_keeps_most_complete_witness :
  ∃ r', r' ∈ rows (_dedupe_keep_most_complete
                     (Frame true true true true
                        [Examples.glucose_row;
                         Row (py "5793") SNone SNone SNone None None])) ∧
        CID r' = py "5793".
Proof.
  destruct (dedupe_keeps_most_complete
              (Frame true true true true
                 [Examples.glucose_row; Row (py "5793") SNone SNone SNone None None]))
    as (_ & _ & Hcover).
  apply (Hcover (Row (py "5793") SNone SNone SNone None None)). right. left.
Defined.

(** ** pubchem_cache.py: the cache of call records *)
Module CacheMore.
Import PyStr Records pubchem_cache Notions.

Section Cache.
Context `{Lower}.

Lemma _score_row_bounds cols r :
  (0 ≤ _score_row cols r ≤ 13250)%Z ∧
  (status_ok cols r = true → (10000 ≤ _score_row cols r)%Z) ∧
  (status_ok cols r = false → (_score_row cols r ≤ 3250)%Z).
Proof.
  unfold _score_row.
  destruct (status_ok cols r), (truthy _), (_not_empty (row_get cols r PUBCHEM_NAME _)),
    (_not_empty (row_get cols r MOLECULAR_FORMULA _)),
    (_not_empty (row_get cols r MOLECULAR_WEIGHT _)),
    (_not_empty (row_get cols r SMILES _)); repeat split; (done || lia).
Qed.

Lemma merge_cache_keys df_cached df_new :
  is_empty (all_records df_cached df_new) = false →
  QUERY_NAME ∈ columns (all_records df_cached df_new) →
  NoDup (qkey <$> rows (merge_cache df_cached df_new)) ∧
  StronglySorted (λ a b, str_leb (qkey a) (qkey b) = true)
    (rows (merge_cache df_cached df_new)) ∧
  ∀ r0, r0 ∈ rows (all_records df_cached df_new) →
        ∃ r, r ∈ rows (merge_cache df_cached df_new) ∧ qkey r = qkey (strip_query r0).
Proof.
  intros He Hq. rewrite (CacheFacts.merge_cache_main _ _ He Hq). cbn [rows].
  split; [apply CacheFacts.sel_keys_NoDup|]. split; [apply CacheFacts.sel_sorted|].
  intros r0 [i Hi]%list_elem_of_lookup.
  set (cols := columns (all_records df_cached df_new)).
  set (rs := rows (all_records df_cached df_new)) in *.
  destruct (RecordsFacts.best_entries_cover
              (Entry (qkey (strip_query r0)) (_score_row cols (strip_query r0)) i
                     (strip_query r0))
              (annotate qkey (_score_row cols) (strip_query <$> rs)))
    as (e' & He' & Hk).
  { apply RecordsFacts.elem_of_annotate. exists i, (strip_query r0).
    split; [by rewrite list_lookup_fmap, Hi|done]. }
  pose proof (RecordsFacts.elem_of_best_entries _ _ He')
    as (j & r1 & Hj & ->)%RecordsFacts.elem_of_annotate.
  exists (del MERGE_SCRATCH r1). split.
  - apply CacheFacts.elem_of_sel. by exists j, r1.
  - rewrite CacheFacts.qkey_del. exact Hk.
Qed.

Lemma merge_cache_success df_cached df_new r :
  is_empty (all_records df_cached df_new) = false →
  QUERY_NAME ∈ columns (all_records df_cached df_new) →
  r ∈ rows (merge_cache df_cached df_new) →
  let cols := columns (all_records df_cached df_new) in
  let prepared := strip_query <$> rows (all_records df_cached df_new) in
  ∃ r1, r1 ∈ prepared ∧ r = del MERGE_SCRATCH r1 ∧
        ∀ r0, r0 ∈ prepared → qkey r0 = qkey r1 →
              status_ok cols r0 = true → status_ok cols r1 = true.
Proof.
  intros He Hq Hr. cbv zeta.
  destruct (CacheFacts.merge_cache_keeps df_cached df_new r He Hq Hr)
    as (i & r1 & Hi & -> & Hwin).
  exists r1. split; [by eapply list_elem_of_lookup_2|]. split; [done|].
  intros r0 [j Hj]%list_elem_of_lookup Hk Hok.
  destruct (status_ok _ r1) eqn:H1; [done|].
  pose proof (_score_row_bounds (columns (all_records df_cached df_new)) r0)
    as (_ & Hhi & _).
  pose proof (_score_row_bounds (columns (all_records df_cached df_new)) r1)
    as (_ & _ & Hlo).
  specialize (Hhi Hok). specialize (Hlo H1).
  destruct (Hwin j r0 Hj Hk); lia.
Qed.

Lemma cid_key_del r : cid_key (del CID_SCRATCH r) = cid_key r.
Proof.
  unfold cid_key. rewrite CacheFacts.del_lookup; [done|].
  unfold CID_SCRATCH, PUBCHEM_CID. rewrite !elem_of_cons, elem_of_nil.
  intros [E|[E|[]]]; vm_compute in E; discriminate E.
Qed.

Lemma best_per_cid_keys df_ok :
  NoDup (cid_key <$> rows (best_per_cid df_ok)) ∧
  (is_empty df_ok = false →
   ∀ r0, r0 ∈ rows df_ok → ∃ r, r ∈ rows (best_per_cid df_ok) ∧ cid_key r = cid_key r0).
Proof.
  unfold best_per_cid. destruct (is_empty df_ok) eqn:He.
  { split; [constructor|done]. }
  cbn [rows drop_columns]. fold (del CID_SCRATCH).
  set (es := best_entries _). split.
  - rewrite <- !list_fmap_compose.
    assert (∀ e, e ∈ es → (cid_key ∘ del CID_SCRATCH ∘ e_row) e = e_key e) as Hkey.
    { intros e He'. apply RecordsFacts.elem_of_best_entries in He'.
      apply RecordsFacts.elem_of_annotate in He' as (i & r & _ & ->).
      simpl. apply cid_key_del. }
    rewrite (list_fmap_ext _ e_key es) by (intros ? e He'%list_elem_of_lookup_2; by apply Hkey).
    apply RecordsFacts.best_entries_NoDup.
  - intros _ r0 [i Hi]%list_elem_of_lookup.
    destruct (RecordsFacts.best_entries_cover
                (Entry (cid_key r0) (_score_row (columns df_ok) r0) i r0)
                (annotate (λ r, str_of_cell (r !! PUBCHEM_CID))
                          (_score_row (columns df_ok)) (rows df_ok)))
      as (e' & He' & Hk).
    { apply RecordsFacts.elem_of_annotate. by exists i, r0. }
    pose proof (RecordsFacts.elem_of_best_entries _ _ He')
      as (j & r1 & Hj & ->)%RecordsFacts.elem_of_annotate.
    exists (del CID_SCRATCH r1). split.
    + apply list_elem_of_fmap. eexists. split; [reflexivity|].
      apply list_elem_of_fmap. eexists. split; [|exact He']. done.
    + rewrite cid_key_del. exact Hk.
Qed.

End Cache.
End CacheMore.


Import Records pubchem_cache.

(** X20.  The score of a record lies between 0 and 13250, and a record with
    status ok scores above every record without it, whatever else the two
    records hold. *)
Theorem score_row_success_dominates (L : Lower) (cols : list pystr)
    (r r' : gmap pystr value) :
  (0 ≤ _score_row cols r ≤ 13250)%Z ∧
  (status_ok cols r = true → status_ok cols r' = false →
   (_score_row cols r' < _score_row cols r)%Z).
Proof.
  destruct (CacheMore._score_row_bounds cols r) as (Hb & Hhi & _).
  destruct (CacheMore._score_row_bounds cols r') as (_ & _ & Hlo).
  split; [done|]. intros Hok Hfail. specialize (Hhi Hok). specialize (Hlo Hfail). lia.
Qed.

Lemma score_row_success_dominates_witness :
  (@_score_row ascii_lower Examples.CALL_COLUMNS Examples.glucose_failed
   < @_score_row ascii_lower Examples.CALL_COLUMNS Examples.only_smiles)%Z.
Proof.
  apply (score_row_success_dominates ascii_lower Examples.CALL_COLUMNS
           Examples.only_smiles Examples.glucose_failed).
  - by vm_compute.
  - by vm_compute.
Defined.

(** X21.  The merged cache holds one record per normalized query: the
    queries of its records are pairwise different in lower case, they come
    in ascending order, and every query of a cached or new record is the
    query of a record of the merge, so no attempt is forgotten. *)
Theorem merge_cache_one_record_per_query (L : Lower) (df_cached df_new : frame) :
  is_empty (all_records df_cached df_new) = false →
  QUERY_NAME ∈ columns (all_records df_cached df_new) →
  NoDup (qkey <$> rows (merge_cache df_cached df_new)) ∧
  StronglySorted (λ a b, str_leb (qkey a) (qkey b) = true)
    (rows (merge_cache df_cached df_new)) ∧
  ∀ r0, r0 ∈ rows (all_records df_cached df_new) →
        ∃ r, r ∈ rows (merge_cache df_cached df_new) ∧ qkey r = qkey (strip_query r0).
Proof. apply CacheMore.merge_cache_keys. Qed.

Lemma merge_cache_one_record_per_query_witness :
  ∃ r, r ∈ rows (@merge_cache ascii_lower
                   (Frame Examples.CALL_COLUMNS [Examples.glucose_ok; Examples.blank_weight])
                   (Frame Examples.CALL_COLUMNS [Examples.glucose_failed])) ∧
       @qkey ascii_lower r = @qkey ascii_lower (strip_query Examples.glucose_failed).
Proof.
  destruct (merge_cache_one_record_per_query ascii_lower
              (Frame Examples.CALL_COLUMNS [Examples.glucose_ok; Examples.blank_weight])
              (Frame Examples.CALL_COLUMNS [Examples.glucose_failed]))
    as (_ & _ & Hcover).
  - reflexivity.
  - by_compute.
  - apply Hcover. by_compute.
Defined.

(** X22.  A success is never replaced by a failure: the record the merge
    keeps for a query has status ok whenever some cached or new record of
    that query has. *)
Theorem merge_cache_prefers_success (L : Lower) (df_cached df_new : frame)
    (r : gmap pystr value) :
  is_empty (all_records df_cached df_new) = false →
  QUERY_NAME ∈ columns (all_records df_cached df_new) →
  r ∈ rows (merge_cache df_cached df_new) →
  let cols := columns (all_records df_cached df_new) in
  let prepared := strip_query <$> rows (all_records df_cached df_new) in
  ∃ r1, r1 ∈ prepared ∧ r = del MERGE_SCRATCH r1 ∧
        ∀ r0, r0 ∈ prepared → qkey r0 = qkey r1 →
              status_ok cols r0 = true → status_ok cols r1 = true.
Proof. apply CacheMore.merge_cache_success. Qed.

Lemma merge_cache_prefers_success_witness :
  ∃ r1, r1 ∈ strip_query <$> [Examples.glucose_ok; Examples.glucose_failed] ∧
        Examples.glucose_ok = del MERGE_SCRATCH r1 ∧
        ∀ r0, r0 ∈ strip_query <$> [Examples.glucose_ok; Examples.glucose_failed] →
              @qkey ascii_lower r0 = @qkey ascii_lower r1 →
              @status_ok ascii_lower Examples.CALL_COLUMNS r0 = true →
              @status_ok ascii_lower Examples.CALL_COLUMNS r1 = true.
Proof.
  apply (merge_cache_prefers_success ascii_lower
           (Frame Examples.CALL_COLUMNS [Examples.glucose_ok])
           (Frame Examples.CALL_COLUMNS [Examples.glucose_failed])
           Examples.glucose_ok).
  - reflexivity.
  - by_compute.
  - by_compute.
Defined.

(** X23.  [best_per_cid] returns one record per identifier: the identifiers
    of its records are pairwise different, and every identifier of the input
    is the identifier of a record returned. *)
Theorem best_per_cid_one_record_per_identifier (L : Lower) (df_ok : frame) :
  NoDup (cid_key <$> rows (best_per_cid df_ok)) ∧
  (is_empty df_ok = false →
   ∀ r0, r0 ∈ rows df_ok → ∃ r, r ∈ rows (best_per_cid df_ok) ∧ cid_key r = cid_key r0).
Proof. apply CacheMore.best_per_cid_keys. Qed.

Lemma best_per_cid_one_record_per_identifier_witness :
  ∃ r, r ∈ rows (@best_per_cid ascii_lower
                   (Frame Examples.CALL_COLUMNS
                      [Examples.blank_weight; Examples.glucose_ok; Examples.only_smiles])) ∧
       cid_key r = cid_key Examples.blank_weight.
Proof.
  destruct (best_per_cid_one_record_per_identifier ascii_lower
              (Frame Examples.CALL_COLUMNS
                 [Examples.blank_weight; Examples.glucose_ok; Examples.only_smiles]))
    as [_ Hcover].
  apply Hcover; [reflexivity|by_compute].
Defined.

(** ** step_03_fetch_pubchem.py: the backoff *)
Module RetryMore.
Import step_03_fetch_pubchem.

Section Retry.
Context {J : Type} (session : nat → outcome J).

Lemma retry_loop_prefix n backoff i slept :
  ∃ j, (j ≤ n)%nat ∧
       (i + j ≤ gets (retry_loop session n backoff i slept))%nat ∧
       sleeps (retry_loop session n backoff i slept) = slept ++ backoffs backoff j.
Proof.
  revert backoff i slept. induction n as [|n IH]; intros backoff i slept.
  - exists 0%nat. simpl. rewrite app_nil_r. split; [lia|]. split; [lia|done].
  - simpl.
    assert (∃ j, (j ≤ S n)%nat ∧
                 (i + j ≤ gets (retry_loop session n (Z.min (backoff * 2) 300) (S i)
                                  (slept ++ [backoff])))%nat ∧
                 sleeps (retry_loop session n (Z.min (backoff * 2) 300) (S i)
                           (slept ++ [backoff])) = slept ++ backoffs backoff j) as Hretry.
    { destruct (IH (Z.min (backoff * 2) 300) (S i) (slept ++ [backoff]))
        as (j & Hj & Hg & Hs).
      exists (S j). split; [lia|]. split; [lia|]. rewrite Hs, <- app_assoc. done. }
    destruct (session i) as [status body|]; [|exact Hretry].
    destruct (status =? 200)%Z.
    { exists 0%nat. simpl. rewrite app_nil_r. split; [lia|]. split; [lia|done]. }
    destruct ((status =? 429) || (status =? 503))%Z; [exact Hretry|].
    exists 0%nat. simpl. rewrite app_nil_r. split; [lia|]. split; [lia|done].
Qed.

End Retry.


Lemma backoffs_bounds b k :
  (0 ≤ b ≤ 300)%Z → Forall (λ s, (b ≤ s ≤ 300)%Z) (backoffs b k).
Proof.
  revert b. induction k as [|k IH]; intros b Hb; simpl; constructor; [lia|].
  eapply list.Forall_impl; [apply IH; lia|]. simpl. intros s Hs. lia.
Qed.

End RetryMore.



(** X25.  Whatever the remote answers, the sleeps of one retried GET are an
    initial part of the backoff schedule, with at most one sleep per request
    issued and at most max_retries requests; with an initial backoff between
    0 and 300 seconds every sleep lies between the initial backoff and
    300. *)
Theorem get_json_with_retries_sleeps {J : Type}
    (session : nat → step_03_fetch_pubchem.outcome J)
    (config : step_03_fetch_pubchem.PubchemConfig) :
  let r := step_03_fetch_pubchem._get_json_with_retries session config in
  let b0 := step_03_fetch_pubchem.initial_backoff_seconds config in
  (∃ j, (j ≤ step_03_fetch_pubchem.gets r)%nat ∧
        (step_03_fetch_pubchem.gets r
         ≤ Z.to_nat (step_03_fetch_pubchem.max_retries config))%nat ∧
        step_03_fetch_pubchem.sleeps r = step_03_fetch_pubchem.backoffs b0 j) ∧
  ((0 ≤ b0 ≤ 300)%Z →
   Forall (λ s, (b0 ≤ s ≤ 300)%Z) (step_03_fetch_pubchem.sleeps r)).
Proof.
  cbv zeta. unfold step_03_fetch_pubchem._get_json_with_retries.
  destruct (RetryMore.retry_loop_prefix session
              (Z.to_nat (step_03_fetch_pubchem.max_retries config))
              (step_03_fetch_pubchem.initial_backoff_seconds config) 0 [])
    as (j & Hj & Hg & Hs).
  pose proof (RetryFacts.retry_loop_gets session
                (Z.to_nat (step_03_fetch_pubchem.max_retries config))
                (step_03_fetch_pubchem.initial_backoff_seconds config) 0 []) as Hn.
  split.
  - exists j. split; [lia|]. split; [lia|]. exact Hs.
  - intros Hb. rewrite Hs. by apply RetryMore.backoffs_bounds.
Qed.

Lemma get_json_with_retries_sleeps_witness :
  Forall (λ s, (10 ≤ s ≤ 300)%Z)
    (step_03_fetch_pubchem.sleeps
       (step_03_fetch_pubchem._get_json_with_retries Examples.busy_then_ok
          step_03_fetch_pubchem.default_config)).
Proof.
  apply (get_json_with_retries_sleeps Examples.busy_then_ok
           step_03_fetch_pubchem.default_config).
  simpl. lia.
Defined.

(** ** medium_optimizer.py: the optimization *)
Module OptMore.
Import PyStr Frame Pandas compound_db medium_optimizer.

Section Optimizer.
Variable molar_mass : pystr → Qc.
Variable compound_repository : list cid_arg → result frame.
Variable solve_linear_program : list (list Z) → list Qc → nat → LpSolution.

Lemma requirement_rows_raises biomass items e :
  requirement_rows molar_mass biomass items = Raise e → e = ZeroDivisionError.
Proof.
  induction items as [|[element req] more IH]; simpl; [done|].
  destruct (_ || _); [done|]. destruct (bool_decide _); [by intros [= <-]|].
  destruct (requirement_rows _ _ more); [done|]. intros [= <-]. by apply IH.
Qed.

Lemma requirement_rows_zero biomass items element req :
  (element, req) ∈ items →
  (0 < reference_yield_g_cdw_per_g req)%Qc → (0 < excess_factor req)%Qc →
  molar_mass element = 0%Qc →
  requirement_rows molar_mass biomass items = Raise ZeroDivisionError.
Proof.
  intros Hin Hy Hf Hz. induction items as [|[element' req'] more IH].
  { by apply elem_of_nil in Hin. }
  simpl. apply elem_of_cons in Hin as [[= <- <-]|Hin].
  - rewrite !bool_decide_eq_false_2 by (by apply Qclt_not_le). simpl.
    by rewrite bool_decide_eq_true_2.
  - rewrite (IH Hin). destruct (_ || _); [done|]. by destruct (bool_decide _).
Qed.

Lemma requirement_rows_elements biomass items reqs :
  requirement_rows molar_mass biomass items = Ok reqs →
  (λ r, r.1.1) <$> reqs
  = fst <$> filter (λ p, (0 < reference_yield_g_cdw_per_g p.2)%Qc ∧
                         (0 < excess_factor p.2)%Qc) items.
Proof.
  revert reqs. induction items as [|[element req] more IH]; intros reqs; simpl.
  { by intros [= <-]. }
  destruct (decide (reference_yield_g_cdw_per_g req ≤ 0)%Qc) as [Hy|Hy].
  { rewrite (bool_decide_eq_true_2 _ Hy). simpl. intros Hr.
    rewrite filter_cons_False; [by apply IH|]. simpl. intros [Hp _].
    by apply Qclt_not_le in Hp. }
  rewrite (bool_decide_eq_false_2 _ Hy). simpl.
  destruct (decide (excess_factor req ≤ 0)%Qc) as [Hf|Hf].
  { rewrite (bool_decide_eq_true_2 _ Hf). intros Hr.
    rewrite filter_cons_False; [by apply IH|]. simpl. intros [_ Hp].
    by apply Qclt_not_le in Hp. }
  rewrite (bool_decide_eq_false_2 _ Hf).
  destruct (bool_decide _); [done|].
  destruct (requirement_rows _ _ more) as [rows|]; [|done]. intros [= <-].
  rewrite filter_cons_True by (split; by apply Qcnot_le_lt). simpl. f_equal. by apply IH.
Qed.

Lemma optimize_medium_solved inp df reqs mol :
  compound_repository (compound_cids inp) = Ok df →
  empty df = false →
  requirement_rows molar_mass (max_dry_biomass_g_per_l inp) (required_elements inp)
    = Ok reqs →
  reqs ≠ [] →
  let selected_elements := (λ r, r.1.1) <$> reqs in
  let counts := counts_table (paths.ensure_db_schema molar_mass df) selected_elements in
  let solution :=
    solve_linear_program (matrix_of counts selected_elements) (snd <$> reqs)
                         (length counts) in
  lp_success solution = true → x solution = Some mol →
  ∃ res,
    optimize_medium molar_mass compound_repository solve_linear_program inp = Ok res ∧
    success res = true ∧ message res = lp_message solution ∧ diagnostics res = None ∧
    element <$> element_matches res = selected_elements ∧
    required_mass_g_per_l <$> element_matches res = (λ r, r.1.2) <$> reqs ∧
    Forall (λ d, (0 < mass_g_per_l d)%Qc ∧ cid d ∈ CID <$> rows df)
           (compound_doses res) ∧
    StronglySorted (λ a b, (mass_g_per_l b ≤ mass_g_per_l a)%Qc) (compound_doses res).
Proof.
  intros Hrepo Hne Hreq Hreqs selected_elements counts solution Hs Hx.
  subst selected_elements counts solution.
  unfold optimize_medium. rewrite Hrepo, Hne, Hreq.
  destruct reqs as [|r0 reqs']; [done|]. cbv zeta. rewrite Hs, Hx.
  set (reqs := r0 :: reqs').
  eexists. split; [reflexivity|]. cbn [success message diagnostics element_matches
                                        compound_doses].
  split; [done|]. split; [done|]. split; [done|]. split; [|split; [|split]].
  - rewrite <- list_fmap_compose.
    apply list_fmap_ext. by intros ? [[e rm] rmol] _.
  - rewrite <- list_fmap_compose. apply list_fmap_ext. by intros ? [[e rm] rmol] _.
  - apply list.Forall_forall. intros d Hd%PandasFacts.elem_of_sort_stable.
    apply list_elem_of_omap in Hd as ([r m] & Hp & Hd). simpl in Hd.
    destruct (MW r) as [mw|]; [|done].
    destruct (bool_decide (0 < m * mw)%Qc) eqn:Hpos; [|done].
    injection Hd as <-. simpl. split; [by apply bool_decide_eq_true in Hpos|].
    apply elem_of_zip_l in Hp.
    destruct (SchemaFacts.ensure_db_schema_identity molar_mass df) as [<- _].
    by apply list_elem_of_fmap_2.
  - eapply (RecordsFacts.StronglySorted_impl
              (λ a b, bool_decide (mass_g_per_l b ≤ mass_g_per_l a)%Qc = true));
      [intros a b; by rewrite bool_decide_eq_true|].
    apply (PandasFacts.sort_stable_sorted
             (λ a b, bool_decide (mass_g_per_l b ≤ mass_g_per_l a)%Qc)).
    + intros a b. rewrite !bool_decide_eq_true.
      destruct (Qclt_le_dec (mass_g_per_l a) (mass_g_per_l b)) as [Hlt|Hle];
        [right; by apply Qclt_le_weak|by left].
    + intros a b c. rewrite !bool_decide_eq_true. intros Hab Hbc.
      by eapply Qcle_trans.
Qed.

End Optimizer.
End OptMore.

Import Frame compound_db medium_optimizer.

(** X26.  An element with a valid requirement (positive yield and excess
    factor) whose molar mass is 0, as for a symbol the chemistry library
    cannot parse, makes [optimize_medium] raise ZeroDivisionError instead of
    returning a result. *)
Theorem optimize_medium_zero_molar_mass
    (molar_mass : pystr → Qc)
    (compound_repository : list cid_arg → result frame)
    (solve_linear_program : list (list Z) → list Qc → nat → LpSolution)
    (inp : MediumOptimizationInput) (df : frame)
    (element : pystr) (req : ElementRequirement) :
  compound_repository (compound_cids inp) = Ok df →
  empty df = false →
  (element, req) ∈ required_elements inp →
  (0 < reference_yield_g_cdw_per_g req)%Qc → (0 < excess_factor req)%Qc →
  molar_mass element = 0%Qc →
  optimize_medium molar_mass compound_repository solve_linear_program inp
  = Raise ZeroDivisionError.
Proof.
  intros Hrepo Hne Hin Hy Hf Hz. unfold optimize_medium. rewrite Hrepo, Hne.
  by rewrite (OptMore.requirement_rows_zero molar_mass _ _ element req Hin Hy Hf Hz).
Qed.

Lemma optimize_medium_zero_molar_mass_witness :
  optimize_medium (λ _, 0%Qc) Examples.glucose_repository Examples.failing_solver
    Examples.cobalt_input
  = Raise ZeroDivisionError.
Proof.
  apply (optimize_medium_zero_molar_mass (λ _, 0%Qc) Examples.glucose_repository
           Examples.failing_solver Examples.cobalt_input Examples.glucose_table
           (py "C") {| reference_yield_g_cdw_per_g := Qc_of_Z 1;
                       excess_factor := Qc_of_Z 1 |}).
  - reflexivity.
  - reflexivity.
  - left.
  - reflexivity.
  - reflexivity.
  - reflexivity.
Defined.

(** X27.  When the solver succeeds, [optimize_medium] returns success with
    the solver's message and no diagnostics; there is one element match per
    element with a valid requirement, in the order of the requirements;
    every dose has a positive mass and the identifier of a resolved
    compound, and the doses come in descending order of mass. *)
Theorem optimize_medium_solved_shape
    (molar_mass : pystr → Qc)
    (compound_repository : list cid_arg → result frame)
    (solve_linear_program : list (list Z) → list Qc → nat → LpSolution)
    (inp : MediumOptimizationInput) (df : frame) (reqs : list (pystr * Qc * Qc))
    (mol : list Qc) :
  compound_repository (compound_cids inp) = Ok df →
  empty df = false →
  requirement_rows molar_mass (max_dry_biomass_g_per_l inp) (required_elements inp)
    = Ok reqs →
  reqs ≠ [] →
  let selected_elements := (λ r, r.1.1) <$> reqs in
  let counts := counts_table (paths.ensure_db_schema molar_mass df) selected_elements in
  let solution :=
    solve_linear_program (matrix_of counts selected_elements) (snd <$> reqs)
                         (length counts) in
  lp_success solution = true → x solution = Some mol →
  ∃ res,
    optimize_medium molar_mass compound_repository solve_linear_program inp = Ok res ∧
    success res = true ∧ message res = lp_message solution ∧ diagnostics res = None ∧
    element <$> element_matches res
      = fst <$> filter (λ p, (0 < reference_yield_g_cdw_per_g p.2)%Qc ∧
                             (0 < excess_factor p.2)%Qc) (required_elements inp) ∧
    Forall (λ d, (0 < mass_g_per_l d)%Qc ∧ cid d ∈ CID <$> rows df)
           (compound_doses res) ∧
    StronglySorted (λ a b, (mass_g_per_l b ≤ mass_g_per_l a)%Qc) (compound_doses res).
Proof.
  intros Hrepo Hne Hreq Hreqs selected_elements counts solution Hs Hx.
  destruct (OptMore.optimize_medium_solved molar_mass compound_repository
              solve_linear_program inp df reqs mol Hrepo Hne Hreq Hreqs Hs Hx)
    as (res & Hres & H1 & H2 & H3 & H4 & _ & H6 & H7).
  exists res. repeat (split; [done|]). split; [|done].
  rewrite H4. by eapply OptMore.requirement_rows_elements.
Qed.

Lemma optimize_medium_solved_shape_witness :
  ∃ res,
    optimize_medium Examples.sample_molar_mass Examples.glucose_repository
      MoreExamples.two_moles_solver Examples.cobalt_input = Ok res ∧
    success res = true ∧
    element <$> element_matches res = [py "C"; py "Co"] ∧
    Forall (λ d, (0 < mass_g_per_l d)%Qc ∧
                 cid d ∈ CID <$> rows Examples.glucose_table)
           (compound_doses res).
Proof.
  pose (reqs :=
    match requirement_rows Examples.sample_molar_mass
            (max_dry_biomass_g_per_l Examples.cobalt_input)
            (required_elements Examples.cobalt_input) with
    | Ok r => r
    | Raise _ => []
    end).
  destruct (optimize_medium_solved_shape Examples.sample_molar_mass
              Examples.glucose_repository MoreExamples.two_moles_solver
              Examples.cobalt_input Examples.glucose_table reqs
              [Qc_of_Z 2])
    as (res & Hres & Hs & _ & _ & Hel & Hd & _).
  - reflexivity.
  - reflexivity.
  - vm_compute. reflexivity.
  - vm_compute. discriminate.
  - reflexivity.
  - reflexivity.
  - exists res. split; [done|]. split; [done|]. split; [|done].
    rewrite Hel. unfold Examples.cobalt_input. cbn [required_elements].
    rewrite !filter_cons_True by (split; reflexivity). done.
Defined.

(** ** io_json.py and db_state.py: the names to fetch *)
Module NamesFacts.
Import PyStr io_json db_state.

Section Names.
Context `{Lower}.
Variable isdigit : pystr → bool.

Lemma dedupe_loop_spec items seen :
  Forall (λ s, strip s = s ∧ s ≠ [] ∧ (lower s ∉ seen) ∧ ∃ n, n ∈ items ∧ s = strip n)
         (dedupe_loop items seen) ∧
  NoDup (lower <$> dedupe_loop items seen).
Proof.
  revert seen. induction items as [|n more IH]; intros seen; simpl.
  { split; constructor. }
  assert (∀ seen',
            seen ⊆ seen' →
            Forall (λ s, strip s = s ∧ s ≠ [] ∧ (lower s ∉ seen) ∧
                         ∃ n0, n0 ∈ n :: more ∧ s = strip n0)
                   (dedupe_loop more seen')) as Hrest.
  { intros seen' Hsub. destruct (IH seen') as [Hall _].
    eapply list.Forall_impl; [exact Hall|]. simpl.
    intros s (? & ? & Hs & n0 & ? & ?). repeat (split; [done|]).
    split; [intros Hin; apply Hs; by apply Hsub|]. exists n0. split; [by right|done]. }
  destruct (strip n) as [|c s] eqn:Es.
  { split; [by apply Hrest|apply IH]. }
  destruct (bool_decide (lower (c :: s) ∈ seen)) eqn:Hk.
  { split; [by apply Hrest|apply IH]. }
  apply bool_decide_eq_false in Hk. split.
  - constructor; [|apply Hrest; apply union_subseteq_r].
    split; [by rewrite <- Es, PyStrFacts.strip_idemp|]. split; [done|]. split; [done|].
    exists n. split; [left|done].
  - csimpl. constructor; [|apply IH].
    destruct (IH ({[lower (c :: s)]} ∪ seen)) as [Hall _].
    intros (s' & Hs' & Hin)%list_elem_of_fmap.
    rewrite list.Forall_forall in Hall. destruct (Hall s' Hin) as (_ & _ & Hn & _).
    apply Hn, elem_of_union. left. by apply elem_of_singleton.
Qed.

Lemma dedupe_loop_cover items seen n :
  n ∈ items → strip n ≠ [] →
  lower (strip n) ∈ seen ∨ lower (strip n) ∈ lower <$> dedupe_loop items seen.
Proof.
  revert seen. induction items as [|m more IH]; intros seen Hin Hne.
  { by apply elem_of_nil in Hin. }
  simpl. apply elem_of_cons in Hin as [->|Hin].
  - destruct (strip m) as [|c s] eqn:Es; [done|].
    destruct (bool_decide (lower (c :: s) ∈ seen)) eqn:Hk.
    + left. by apply bool_decide_eq_true in Hk.
    + right. csimpl. left.
  - destruct (strip m) as [|c s] eqn:Es; [by apply IH|].
    destruct (bool_decide (lower (c :: s) ∈ seen)) eqn:Hk; [by apply IH|].
    destruct (IH ({[lower (c :: s)]} ∪ seen) Hin Hne)
      as [[->%elem_of_singleton|Hs]%elem_of_union|Hr].
    + right. csimpl. left.
    + by left.
    + right. csimpl. by right.
Qed.

Lemma dedupe_loop_fixed l seen :
  Forall (λ s, strip s = s ∧ s ≠ []) l → NoDup (lower <$> l) →
  (∀ s, s ∈ l → lower s ∉ seen) →
  dedupe_loop l seen = l.
Proof.
  revert seen. induction l as [|s l IH]; intros seen Hall Hnd Hseen; [done|].
  apply Forall_cons in Hall as [[Hs Hne] Hall]. csimpl in Hnd.
  apply NoDup_cons in Hnd as [Hfresh Hnd]. simpl. rewrite Hs.
  destruct s as [|c s]; [done|].
  rewrite bool_decide_eq_false_2 by (apply Hseen; left). f_equal.
  apply IH; [done|done|]. intros s' Hs'.
  assert (lower s' ≠ lower (c :: s))
    by (intros E; apply Hfresh; rewrite <- E; by apply list_elem_of_fmap_2).
  assert (lower s' ∉ seen) by (apply Hseen; by right).
  intros [?%elem_of_singleton|?]%elem_of_union; done.
Qed.

Lemma filter_loop_spec names kn kc att seen :
  Forall (λ s, strip s = s ∧ s ≠ [] ∧ (lower s ∉ seen) ∧ (lower s ∉ att) ∧ (lower s ∉ kn) ∧
               ¬ (isdigit s = true ∧ s ∈ kc) ∧ ∃ n, n ∈ names ∧ s = strip n)
         (filter_loop isdigit names kn kc att seen) ∧
  NoDup (lower <$> filter_loop isdigit names kn kc att seen).
Proof.
  revert seen. induction names as [|n more IH]; intros seen; simpl.
  { split; constructor. }
  assert (∀ seen',
            seen ⊆ seen' →
            Forall (λ s, strip s = s ∧ s ≠ [] ∧ (lower s ∉ seen) ∧ (lower s ∉ att) ∧
                         (lower s ∉ kn) ∧ ¬ (isdigit s = true ∧ s ∈ kc) ∧
                         ∃ n0, n0 ∈ n :: more ∧ s = strip n0)
                   (filter_loop isdigit more kn kc att seen')) as Hrest.
  { intros seen' Hsub. destruct (IH seen') as [Hall _].
    eapply list.Forall_impl; [exact Hall|]. simpl.
    intros s (? & ? & Hs & ? & ? & ? & n0 & ? & ?). repeat (split; [done|]).
    split; [intros Hin; apply Hs; by apply Hsub|]. repeat (split; [done|]).
    exists n0. split; [by right|done]. }
  destruct (strip n) as [|c s] eqn:Es.
  { split; [by apply Hrest|apply IH]. }
  destruct (bool_decide (lower (c :: s) ∈ seen)) eqn:Hk.
  { split; [by apply Hrest|apply IH]. }
  apply bool_decide_eq_false in Hk.
  destruct (bool_decide (lower (c :: s) ∈ att)) eqn:Ha.
  { split; [apply Hrest; apply union_subseteq_r|apply IH]. }
  apply bool_decide_eq_false in Ha.
  destruct (isdigit (c :: s) && bool_decide (c :: s ∈ kc)) eqn:Hd.
  { split; [apply Hrest; apply union_subseteq_r|apply IH]. }
  destruct (bool_decide (lower (c :: s) ∈ kn)) eqn:Hn.
  { split; [apply Hrest; apply union_subseteq_r|apply IH]. }
  apply bool_decide_eq_false in Hn. split.
  - constructor; [|apply Hrest; apply union_subseteq_r].
    split; [by rewrite <- Es, PyStrFacts.strip_idemp|]. repeat (split; [done|]).
    split.
    + intros [Hdig Hin]. rewrite Hdig, bool_decide_eq_true_2 in Hd by done. done.
    + exists n. split; [left|done].
  - csimpl. constructor; [|apply IH].
    destruct (IH ({[lower (c :: s)]} ∪ seen)) as [Hall _].
    intros (s' & Hs' & Hin)%list_elem_of_fmap.
    rewrite list.Forall_forall in Hall. destruct (Hall s' Hin) as (_ & _ & Hno & _).
    apply Hno, elem_of_union. left. by apply elem_of_singleton.
Qed.

Lemma filter_loop_nothing_known names seen :
  filter_loop isdigit names ∅ ∅ ∅ seen = dedupe_loop names seen.
Proof.
  revert seen. induction names as [|n more IH]; intros seen; simpl; [done|].
  destruct (strip n) as [|c s]; [apply IH|].
  destruct (bool_decide (lower (c :: s) ∈ seen)); [apply IH|].
  rewrite !(bool_decide_eq_false_2 (_ ∈ ∅)) by apply not_elem_of_empty.
  rewrite andb_false_r. by rewrite IH.
Qed.

Lemma filter_loop_resume names kn kc att att' seen :
  att ⊆ att' →
  (∀ s, s ∈ filter_loop isdigit names kn kc att seen → lower s ∈ att') →
  filter_loop isdigit names kn kc att' seen = [].
Proof.
  revert seen. induction names as [|n more IH]; intros seen Hsub Hout; simpl in *; [done|].
  destruct (strip n) as [|c s]; [by apply IH|].
  destruct (bool_decide (lower (c :: s) ∈ seen)); [by apply IH|].
  destruct (bool_decide (lower (c :: s) ∈ att)) eqn:Ha.
  { apply bool_decide_eq_true in Ha.
    rewrite bool_decide_eq_true_2 by (by apply Hsub). by apply IH. }
  destruct (isdigit (c :: s) && bool_decide (c :: s ∈ kc)).
  { destruct (bool_decide (_ ∈ att')); by apply IH. }
  destruct (bool_decide (lower (c :: s) ∈ kn)).
  { destruct (bool_decide (_ ∈ att')); by apply IH. }
  rewrite bool_decide_eq_true_2 by (apply Hout; left).
  apply IH; [done|]. intros s' Hs'. apply Hout. by right.
Qed.

End Names.
End NamesFacts.

(** X28.  [dedupe_preserve_order] returns names that are stripped and not
    empty, each the stripped form of an input name, pairwise different in
    lower case; every input name that is not blank is represented, and
    deduplicating again changes nothing. *)
Theorem dedupe_preserve_order_spec (L : Lower) (items : list pystr) :
  Forall (λ s, strip s = s ∧ s ≠ [] ∧ ∃ n, n ∈ items ∧ s = strip n)
         (io_json.dedupe_preserve_order items) ∧
  NoDup (lower <$> io_json.dedupe_preserve_order items) ∧
  (∀ n, n ∈ items → strip n ≠ [] →
        lower (strip n) ∈ lower <$> io_json.dedupe_preserve_order items) ∧
  io_json.dedupe_preserve_order (io_json.dedupe_preserve_order items)
  = io_json.dedupe_preserve_order items.
Proof.
  unfold io_json.dedupe_preserve_order.
  destruct (NamesFacts.dedupe_loop_spec items ∅) as [Hall Hnd].
  split; [|split; [done|split]].
  - eapply list.Forall_impl; [exact Hall|]. simpl. intros s (? & ? & _ & ?). done.
  - intros n Hn Hne.
    destruct (NamesFacts.dedupe_loop_cover items ∅ n Hn Hne) as [Hin|Hin]; [|done].
    by apply elem_of_empty in Hin.
  - apply NamesFacts.dedupe_loop_fixed; [|done|].
    + eapply list.Forall_impl; [exact Hall|]. simpl. intros s (? & ? & _). done.
    + intros s _. apply not_elem_of_empty.
Qed.

Lemma dedupe_preserve_order_spec_witness :
  @lower ascii_lower (strip (py " GLUCOSE "))
  ∈ @lower ascii_lower
      <$> @io_json.dedupe_preserve_order ascii_lower
            [py "glucose"; py ""; py " GLUCOSE "; py "NaCl"].
Proof.
  apply (dedupe_preserve_order_spec ascii_lower
           [py "glucose"; py ""; py " GLUCOSE "; py "NaCl"]).
  - by_compute.
  - vm_compute. discriminate.
Defined.

(** X29.  [filter_names_to_fetch] returns only new names: each is the
    stripped, non-empty form of an input name, its lower case is neither an
    attempted query nor a known name, it is not a number that is a known
    identifier, and no two of them agree in lower case.  With nothing known
    and nothing attempted it is [dedupe_preserve_order]. *)
Theorem filter_names_to_fetch_spec (L : Lower) (isdigit : pystr → bool)
    (names : list pystr)
    (known_names_lower known_cids_str attempted_queries_lower : gset pystr) :
  let out := db_state.filter_names_to_fetch isdigit names known_names_lower
               known_cids_str attempted_queries_lower in
  Forall (λ s, strip s = s ∧ s ≠ [] ∧
               (lower s ∉ attempted_queries_lower) ∧ (lower s ∉ known_names_lower) ∧
               ¬ (isdigit s = true ∧ s ∈ known_cids_str) ∧
               ∃ n, n ∈ names ∧ s = strip n) out ∧
  NoDup (lower <$> out) ∧
  db_state.filter_names_to_fetch isdigit names ∅ ∅ ∅
  = io_json.dedupe_preserve_order names.
Proof.
  cbv zeta. unfold db_state.filter_names_to_fetch, io_json.dedupe_preserve_order.
  destruct (NamesFacts.filter_loop_spec isdigit names known_names_lower known_cids_str
              attempted_queries_lower ∅) as [Hall Hnd].
  split; [|split; [done|apply NamesFacts.filter_loop_nothing_known]].
  eapply list.Forall_impl; [exact Hall|]. simpl.
  intros s (? & ? & _ & ? & ? & ? & ?). done.
Qed.

Lemma filter_names_to_fetch_spec_witness :
  @db_state.filter_names_to_fetch ascii_lower MoreExamples.ascii_isdigit
    MoreExamples.run_names {[py "sodium chloride"]} {[py "5793"]} {[py "glucose"]}
  = [py "Urea"] ∧
  Forall (λ s, ¬ (MoreExamples.ascii_isdigit s = true ∧ s ∈ ({[py "5793"]} : gset pystr)))
         (@db_state.filter_names_to_fetch ascii_lower MoreExamples.ascii_isdigit
            MoreExamples.run_names {[py "sodium chloride"]} {[py "5793"]}
            {[py "glucose"]}).
Proof.
  split; [by vm_compute|].
  destruct (filter_names_to_fetch_spec ascii_lower MoreExamples.ascii_isdigit
              MoreExamples.run_names {[py "sodium chloride"]} {[py "5793"]}
              {[py "glucose"]}) as (Hall & _ & _).
  eapply list.Forall_impl; [exact Hall|]. simpl. intros s (_ & _ & _ & _ & Hd & _). exact Hd.
Defined.

(** X30.  Nothing is fetched twice: once the names returned by
    [filter_names_to_fetch] count as attempted, filtering the same names
    again returns no name. *)
Theorem filter_names_to_fetch_resume (L : Lower) (isdigit : pystr → bool)
    (names : list pystr)
    (known_names_lower known_cids_str attempted_queries_lower : gset pystr) :
  let out := db_state.filter_names_to_fetch isdigit names known_names_lower
               known_cids_str attempted_queries_lower in
  db_state.filter_names_to_fetch isdigit names known_names_lower known_cids_str
    (attempted_queries_lower ∪ list_to_set (lower <$> out))
  = [].
Proof.
  cbv zeta. unfold db_state.filter_names_to_fetch.
  eapply NamesFacts.filter_loop_resume.
  - apply union_subseteq_l.
  - intros s Hs. apply elem_of_union. right.
    apply elem_of_list_to_set. by apply list_elem_of_fmap_2.
Qed.
